(** * AI-todo: the task store, the HTTP handlers and the insight generator

    A shallow embedding of [server/src/database.ts], [server/src/index.ts]
    and [server/src/ai-service.ts].

    - The [tasks] table is a list of rows in rowid order together with the
      AUTOINCREMENT counter; every prepared statement of [taskQueries] and
      [analyticsQueries] is a function on that table.
    - Timestamps are milliseconds since the Unix epoch (UTC).  SQLite's
      [CURRENT_TIMESTAMP] has a resolution of one second, JavaScript's
      [new Date()] of one millisecond; both read the same system clock.
    - JavaScript numbers and SQLite's REAL values are IEEE-754 doubles.
      Counts are exact integers; the divisions of the code
      ([completed / total * 100] and [total / 7]) go through [fl],
      round-to-nearest-even on 53 bits.
    - A handler is a function from the request and the store to the new
      store and the response; the outbound HTTP call of the insight
      generator is an effect recorded in a log.
    - The task handlers are given twice.  [Api] has them on bodies whose
      properties are of the types [interface Task] declares, which is what
      the client sends.  [Wire] has them on any JSON, with the driver's
      binding of the arguments, SQLite's column affinities and the
      handlers' catch blocks; on bodies as declared the two agree. *)

From Stdlib Require Import ZArith QArith Qround List String Ascii Bool Lia Lqa.
From Stdlib Require Import Permutation Sorted DecimalString DecimalPos Qpower.
Import ListNotations.

Open Scope Z_scope.

(** ** JavaScript and SQL helpers *)

(** [Array.prototype.sort] and SQL's ORDER BY, as a stable insertion sort:
    [le x y] says that [x] may stay in front of [y]. *)
Section Sorting.
Context {A : Type} (le : A -> A -> bool).

Fixpoint insert_by (x : A) (l : list A) : list A :=
  match l with
  | [] => [x]
  | y :: l' => if le x y then x :: l else y :: insert_by x l'
  end.

Fixpoint sort_by (l : list A) : list A :=
  match l with
  | [] => []
  | x :: l' => insert_by x (sort_by l')
  end.

(** The order a comparison function decides. *)
Definition ordered_by (x y : A) : Prop := le x y = true.

End Sorting.

(** [ORDER BY key DESC] answered from an index on [key], which SQLite walks
    backwards: the largest key first and, among rows of equal key, the row
    inserted last first.  The rows come in rowid order. *)
Definition index_desc {A : Type} (key : A -> Z) (l : list A) : list A :=
  rev (sort_by (fun a b => key a <=? key b) l).

(** [.length] of an array, as a JavaScript number. *)
Definition len {A : Type} (l : list A) : Z := Z.of_nat (List.length l).

(** JavaScript's truthiness of a string: only the empty string is falsy. *)
Definition truthy_string (s : string) : bool := negb (s =? "")%string.

(** Truthiness of a string-valued property that may be absent ([undefined]). *)
Definition truthy (s : option string) : bool :=
  match s with
  | Some s => truthy_string s
  | None => false
  end.

(** [a || b] for a string-valued [a] that may be absent. *)
Definition or_else (a : option string) (b : string) : string :=
  match a with
  | Some s => if truthy_string s then s else b
  | None => b
  end.

(** The same, where the fallback is a nullable column. *)
Definition or_else_null (a : option string) (b : option string) : option string :=
  if truthy a then a else b.

(** Decimal rendering of an integer, as in a template literal. *)
Definition show (n : Z) : string := NilZero.string_of_int (Z.to_int n).

(** ** IEEE-754 doubles

    A double is represented by the rational it denotes.  [fl] rounds a
    rational to the nearest double, ties to even, with an unbounded exponent
    range: the quotients and percentages of the code lie between [2^-32]
    and [2^32], far from overflow and from the subnormal numbers. *)

Definition round_half_even (q : Q) : Z :=
  let f := Qfloor q in
  match Qcompare (q - inject_Z f) (1 # 2) with
  | Lt => f
  | Gt => f + 1
  | Eq => if Z.even f then f else f + 1
  end.

(** The binary exponent [e] of a positive rational: [2^e <= q < 2^(e+1)]. *)
Definition binade (q : Q) : Z :=
  let e0 := Z.log2 (Qnum q) - Z.log2 (Zpos (Qden q)) in
  if Qle_bool (Qpower 2 e0) q then e0 else e0 - 1.

Definition fl_pos (q : Q) : Q :=
  let e := binade q in
  inject_Z (round_half_even (q * Qpower 2 (52 - e))) * Qpower 2 (e - 52).

Definition fl (q : Q) : Q :=
  let q := Qred q in
  Qred match Qcompare q 0 with
       | Eq => 0
       | Gt => fl_pos q
       | Lt => - fl_pos (- q)
       end.

(** [a / b] and [a * b] on doubles. *)
Definition fdiv (a b : Q) : Q := fl (a / b).
Definition fmul (a b : Q) : Q := fl (a * b).

(** [Number.prototype.toFixed(f)] for [x >= 0]: the integer [n] for which
    [n / 10^f - x] is closest to zero, the larger one on a tie, printed with
    [f] digits after the point. *)
Definition toFixed (f : nat) (x : Q) : string :=
  let p := 10 ^ Z.of_nat f in
  let n := Qfloor (x * inject_Z p + (1 # 2)) in
  match f with
  | O => show n
  | _ =>
      let frac := show (n mod p) in
      (show (n / p) ++ "."
       ++ String.concat "" (repeat "0" (f - String.length frac)) ++ frac)%string
  end.

Definition digit_value (c : ascii) : option Z :=
  let n := Z.of_nat (nat_of_ascii c) in
  if (48 <=? n) && (n <=? 57) then Some (n - 48) else None.

Fixpoint parse_digits (s : string) (acc : option Z) : option Z :=
  match s with
  | EmptyString => acc
  | String c s' =>
      match digit_value c with
      | Some d => parse_digits s' (Some (10 * match acc with Some a => a | None => 0 end + d))
      | None => acc
      end
  end.

(** [parseInt(s)] in base ten: an optional sign and the longest run of
    digits; [None] is [NaN]. *)
Definition parseInt (s : string) : option Z :=
  match s with
  | String "-" s' => option_map Z.opp (parse_digits s' None)
  | String "+" s' => parse_digits s' None
  | _ => parse_digits s None
  end.

(** [x < n] where [x] may be [NaN]: every comparison with [NaN] is false. *)
Definition lt_number (x : option Z) (n : Z) : bool :=
  match x with
  | Some v => v <? n
  | None => false
  end.

(** ** database.ts *)

Module Db.

(** [interface Task]: one row of the [tasks] table as [SELECT *] returns it.
    A nullable column is an [option]. *)
Record Task := mkTask {
  id : Z;
  title : string;
  description : option string;
  status : string;
  priority : option string;
  created_at : Z;
  completed_at : option Z;
  position : Z
}.

(** [interface DailyAnalytics] (without the unused [categories]). *)
Record DailyAnalytics := mkDaily {
  date : Z;
  total_tasks : Z;
  completed_tasks : Z;
  completion_rate : Q
}.

(** The [tasks] table: rows in rowid order; [seq] is the largest rowid
    ever handed out (AUTOINCREMENT never reuses one). *)
Record t := mkDb {
  tasks : list Task;
  seq : Z
}.

Definition empty : t := mkDb [] 0.

(** [CURRENT_TIMESTAMP]: the clock, truncated to whole seconds. *)
Definition CURRENT_TIMESTAMP (now : Z) : Z := 1000 * (now / 1000).

(** SQL [date(ts)]: the UTC calendar day, as a day number. *)
Definition date_of (ts : Z) : Z := ts / 86400000.

(** [status = 'done'] *)
Definition is_done (x : Task) : bool := (status x =? "done")%string.

Definition on_date (d : Z) (x : Task) : bool := date_of (created_at x) =? d.

(** The four result columns of the two statistics queries, for one group:
    [COUNT( * )], [SUM(CASE WHEN status = 'done' THEN 1 ELSE 0 END)] and
    [CAST(... AS REAL) / COUNT( * ) * 100]. *)
Definition stats_row (d : Z) (rows : list Task) : DailyAnalytics :=
  let total := len rows in
  let completed := len (filter is_done rows) in
  mkDaily d total completed
          (fmul (fdiv (inject_Z completed) (inject_Z total)) 100).

(** [GROUP BY date(created_at)]: one result row per date that occurs. *)
Definition group_by_date (rows : list Task) : list DailyAnalytics :=
  map (fun d => stats_row d (filter (on_date d) rows))
      (nodup Z.eq_dec (map (fun x => date_of (created_at x)) rows)).

Module taskQueries.

(** [ORDER BY position ASC, created_at DESC] *)
Definition getAll_le (a b : Task) : bool :=
  (position a <? position b)
  || ((position a =? position b) && (created_at b <=? created_at a)).

(** [SELECT * FROM tasks ORDER BY position ASC, created_at DESC] *)
Definition getAll (db : t) : list Task := sort_by getAll_le (tasks db).

(** [SELECT * FROM tasks WHERE id = ?] with [.get]: the row or undefined. *)
Definition getById (i : Z) (db : t) : option Task :=
  find (fun x => id x =? i) (tasks db).

(** [INSERT INTO tasks (title, description, status, priority, position)]:
    the new store and [lastInsertRowid]. *)
Definition create (now : Z) (ttl : string) (desc : option string)
    (st : string) (prio : option string) (pos : Z) (db : t) : t * Z :=
  let i := seq db + 1 in
  (mkDb (tasks db ++ [mkTask i ttl desc st prio (CURRENT_TIMESTAMP now) None pos]) i,
   i).

(** [UPDATE tasks SET title = ?, description = ?, status = ?, priority = ?,
    completed_at = ? WHERE id = ?] *)
Definition update (ttl : string) (desc : option string) (st : string)
    (prio : option string) (done_at : option Z) (i : Z) (db : t) : t :=
  mkDb (map (fun x =>
               if id x =? i
               then mkTask (id x) ttl desc st prio (created_at x) done_at (position x)
               else x)
            (tasks db))
       (seq db).

(** [UPDATE tasks SET position = ? WHERE id = ?] *)
Definition updatePosition (pos : Z) (i : Z) (db : t) : t :=
  mkDb (map (fun x =>
               if id x =? i
               then mkTask (id x) (title x) (description x) (status x) (priority x)
                           (created_at x) (completed_at x) pos
               else x)
            (tasks db))
       (seq db).

(** [DELETE FROM tasks WHERE id = ?] *)
Definition delete (i : Z) (db : t) : t :=
  mkDb (filter (fun x => negb (id x =? i)) (tasks db)) (seq db).

(** [SELECT * FROM tasks WHERE date(created_at) BETWEEN date(?) AND date(?)
    ORDER BY created_at DESC] *)
Definition getByDateRange (from to : Z) (db : t) : list Task :=
  index_desc created_at
             (filter (fun x => (from <=? date_of (created_at x))
                               && (date_of (created_at x) <=? to))
                     (tasks db)).

End taskQueries.

Module analyticsQueries.

(** [... WHERE date(created_at) = date(?) GROUP BY date(created_at)] with
    [.get]: the first result row or undefined. *)
Definition getDailyStats (d : Z) (db : t) : option DailyAnalytics :=
  hd_error (group_by_date (filter (on_date d) (tasks db))).

(** [... WHERE date(created_at) >= date('now', '-7 days')
    GROUP BY date(created_at) ORDER BY date DESC] with [.all]. *)
Definition getWeeklyStats (now : Z) (db : t) : list DailyAnalytics :=
  sort_by (fun a b => date b <=? date a)
          (group_by_date
             (filter (fun x => date_of now - 7 <=? date_of (created_at x)) (tasks db))).

(** [SELECT * FROM tasks ORDER BY created_at DESC] *)
Definition getAllTasks (db : t) : list Task :=
  index_desc created_at (tasks db).

End analyticsQueries.

End Db.

(** ** index.ts *)

Module Api.

Import Db.

(** The JSON body of [POST /api/tasks] and [PUT /api/tasks/:id] with its
    properties as [interface Task] declares them, which is what the client
    sends: every property may be absent ([None] is [undefined]).  What the
    handlers do with any other JSON is in [Wire] below. *)
Record TaskBody := mkBody {
  b_title : option string;
  b_description : option string;
  b_status : option string;
  b_priority : option string;
  b_position : option Z
}.

(** The [tasks] property of the body of [PATCH /api/tasks/reorder]: an array
    of [{ id, position }] with two integers, as the client sends it, or no
    array.  An array of anything else is in [Wire] below. *)
Inductive ReorderBody :=
| NotAnArray
| TaskArray (l : list (Z * Z)).

Inductive Payload :=
| PTask (x : option Task)
| PTasks (l : list Task)
| PError (error : string)
| PSuccess
| PStats (s : DailyAnalytics)
| PStatsList (l : list DailyAnalytics).

(** [res.status(code).json(payload)] *)
Record Response := mkResponse {
  code : Z;
  payload : Payload
}.

Definition json (p : Payload) : Response := mkResponse 200 p.

(** [app.get('/api/tasks')] *)
Definition get_tasks (db : Db.t) : Db.t * Response :=
  (db, json (PTasks (taskQueries.getAll db))).

(** [app.get('/api/tasks/:id')] *)
Definition get_task (i : Z) (db : Db.t) : Db.t * Response :=
  match taskQueries.getById i db with
  | None => (db, mkResponse 404 (PError "Task not found"))
  | Some task => (db, json (PTask (Some task)))
  end.

(** [app.post('/api/tasks')] *)
Definition post_task (now : Z) (body : TaskBody) (db : Db.t) : Db.t * Response :=
  let status := match b_status body with Some s => s | None => "todo"%string end in
  let priority := match b_priority body with Some s => s | None => "medium"%string end in
  let position := match b_position body with Some p => p | None => 0 end in
  match b_title body with
  | Some title =>
      if negb (truthy_string title)
      then (db, mkResponse 400 (PError "Title is required"))
      else
        let (db', lastInsertRowid) :=
          taskQueries.create now title (b_description body)
                             status (Some priority) position db in
        let newTask := taskQueries.getById lastInsertRowid db' in
        (db', mkResponse 201 (PTask newTask))
  | None => (db, mkResponse 400 (PError "Title is required"))
  end.

(** [app.put('/api/tasks/:id')]; [now] is [new Date()]. *)
Definition put_task (now : Z) (i : Z) (body : TaskBody) (db : Db.t) : Db.t * Response :=
  match taskQueries.getById i db with
  | None => (db, mkResponse 404 (PError "Task not found"))
  | Some existingTask =>
      let completed_at :=
        if match b_status body with Some s => (s =? "done")%string | None => false end
           && negb (Db.status existingTask =? "done")%string
        then Some now
        else Db.completed_at existingTask in
      let db' :=
        taskQueries.update
          (or_else (b_title body) (Db.title existingTask))
          (match b_description body with
           | Some d => Some d
           | None => Db.description existingTask
           end)
          (or_else (b_status body) (Db.status existingTask))
          (or_else_null (b_priority body) (Db.priority existingTask))
          completed_at
          i db in
      let updatedTask := taskQueries.getById i db' in
      (db', json (PTask updatedTask))
  end.

(** [app.patch('/api/tasks/reorder')] *)
Definition patch_reorder (tasks : ReorderBody) (db : Db.t) : Db.t * Response :=
  match tasks with
  | NotAnArray => (db, mkResponse 400 (PError "Tasks array is required"))
  | TaskArray l =>
      (fold_left (fun db '(id, position) => taskQueries.updatePosition position id db) l db,
       json PSuccess)
  end.

(** [app.delete('/api/tasks/:id')] *)
Definition delete_task (i : Z) (db : Db.t) : Db.t * Response :=
  match taskQueries.getById i db with
  | None => (db, mkResponse 404 (PError "Task not found"))
  | Some _ => (taskQueries.delete i db, json PSuccess)
  end.

(** [app.get('/api/analytics/daily')]: [date] is the [date] query parameter,
    today's date when it is absent. *)
Definition get_daily (now : Z) (query_date : option Z) (db : Db.t) : Db.t * Response :=
  let date := match query_date with Some d => d | None => date_of now end in
  let stats := analyticsQueries.getDailyStats date db in
  (db, json (PStats match stats with
                    | Some s => s
                    | None => mkDaily date 0 0 0
                    end)).

(** [app.get('/api/analytics/weekly')] *)
Definition get_weekly (now : Z) (db : Db.t) : Db.t * Response :=
  (db, json (PStatsList (analyticsQueries.getWeeklyStats now db))).

(** The requests that touch the [tasks] table. *)
Inductive Request :=
| GET_tasks
| GET_task (i : Z)
| POST_task (body : TaskBody)
| PUT_task (i : Z) (body : TaskBody)
| PATCH_reorder (tasks : ReorderBody)
| DELETE_task (i : Z)
| GET_daily (query_date : option Z)
| GET_weekly.

Definition handle (now : Z) (r : Request) (db : Db.t) : Db.t * Response :=
  match r with
  | GET_tasks => get_tasks db
  | GET_task i => get_task i db
  | POST_task body => post_task now body db
  | PUT_task i body => put_task now i body db
  | PATCH_reorder tasks => patch_reorder tasks db
  | DELETE_task i => delete_task i db
  | GET_daily d => get_daily now d db
  | GET_weekly => get_weekly now db
  end.

(** The server: the store and the time of the last request served.  The
    table is created empty; the clock never runs backwards. *)
Record Server := mkServer {
  store : Db.t;
  clock : Z
}.

Inductive reachable : Server -> Prop :=
| reach_start (t0 : Z) : reachable (mkServer Db.empty t0)
| reach_request (s : Server) (now : Z) (r : Request) :
    reachable s -> clock s <= now ->
    reachable (mkServer (fst (handle now r (store s))) now).

End Api.

(** ** ai-service.ts *)

Module Ai.

Import Db.

(** [interface AnalysisResult] *)
Record AnalysisResult := mkAnalysis {
  patterns : list string;
  completionInsights : list string;
  failureReasons : list string;
  recommendations : list string
}.

(** *** JavaScript values, as far as a decoded JSON reply needs them *)

#[warnings="-register-all"]
Inductive value :=
| VUndefined
| VNull
| VBool (b : bool)
| VNum (x : Q)
| VStr (s : string)
| VArr (l : list value)
| VObj (fields : list (string * value)).

(** What the method hands back: a result it built itself, or whatever
    [JSON.parse] produced from the model's reply. *)
Inductive Analysis :=
| Built (r : AnalysisResult)
| Parsed (v : value).

(** *** Exceptions and effects

    A computation either returns or throws, and leaves a log of the effects
    it performed: outbound HTTP requests and [console.error] lines. *)

Inductive outcome (A : Type) :=
| Return (a : A)
| Throw (error : string).
Arguments Return {A} a.
Arguments Throw {A} error.

Inductive event :=
| Fetch (endpoint : string) (authorization : string) (content : string)
| ConsoleError (label : string).

Definition M (A : Type) : Type := outcome A * list event.

Definition ret {A} (a : A) : M A := (Return a, []).

Definition throw {A} (error : string) : M A := (Throw error, []).

Definition bind {A B} (m : M A) (k : A -> M B) : M B :=
  match m with
  | (Return a, log) => let (r, log') := k a in (r, log ++ log')
  | (Throw e, log) => (Throw e, log)
  end.

(** [try { m } catch (error) { handler }] *)
Definition try_catch {A} (m : M A) (handler : string -> M A) : M A :=
  match m with
  | (Return a, log) => (Return a, log)
  | (Throw e, log) => let (r, log') := handler e in (r, log ++ log')
  end.

(** A pure step that may throw. *)
Definition lift {A} (o : outcome A) : M A := (o, []).

Definition console_error (label : string) : M unit := (Return tt, [ConsoleError label]).

Notation "x <- m ;; k" := (bind m (fun x => k))
  (at level 61, m at next level, right associativity).
Notation "m ;;; k" := (bind m (fun _ => k))
  (at level 61, right associativity).

(** *** Property access *)

Definition is_truthy (v : value) : bool :=
  match v with
  | VUndefined | VNull => false
  | VBool b => b
  | VNum x => negb (Qeq_bool x 0)
  | VStr s => truthy_string s
  | VArr _ | VObj _ => true
  end.

Definition is_nullish (v : value) : bool :=
  match v with
  | VUndefined | VNull => true
  | _ => false
  end.

Fixpoint lookup (k : string) (fields : list (string * value)) : value :=
  match fields with
  | [] => VUndefined
  | (k', v) :: rest => if (k' =? k)%string then v else lookup k rest
  end.

(** A property key that is a canonical array index. *)
Definition array_index (k : string) : option nat :=
  match NilEmpty.uint_of_string k with
  | Some d => if (show (Z.of_uint d) =? k)%string then Some (Nat.of_uint d) else None
  | None => None
  end.

(** [v[k]] for an own property [k]: a [TypeError] on [undefined] and [null].
    None of the keys the code reads names a method of a prototype. *)
Definition get (v : value) (k : string) : outcome value :=
  match v with
  | VUndefined | VNull => Throw "TypeError"
  | VBool _ | VNum _ => Return VUndefined
  | VStr s =>
      Return match array_index k with
             | Some n => match String.get n s with
                         | Some c => VStr (String c "")
                         | None => VUndefined
                         end
             | None => if (k =? "length")%string
                       then VNum (inject_Z (Z.of_nat (String.length s)))
                       else VUndefined
             end
  | VArr l =>
      Return match array_index k with
             | Some n => nth n l VUndefined
             | None => if (k =? "length")%string then VNum (inject_Z (len l)) else VUndefined
             end
  | VObj fields => Return (lookup k fields)
  end.

(** [v?.k] *)
Definition get_opt (v : value) (k : string) : outcome value :=
  if is_nullish v then Return VUndefined else get v k.

(** *** The regular expression [/\{[\s\S]*\}/]

    The leftmost match starts at the first opening brace that has a closing
    brace after it, and being greedy it ends at the last closing brace. *)

Fixpoint after_first_open (s : string) : option string :=
  match s with
  | EmptyString => None
  | String c s' => if (c =? "{")%char then Some s' else after_first_open s'
  end.

Fixpoint upto_last_close (s : string) : option string :=
  match s with
  | EmptyString => None
  | String c s' =>
      match upto_last_close s' with
      | Some m => Some (String c m)
      | None => if (c =? "}")%char then Some (String c EmptyString) else None
      end
  end.

(** [jsonMatch[0]], or [None] when [match] returns [null]. *)
Definition match_braces (content : string) : option string :=
  match after_first_open content with
  | Some rest => option_map (String "{") (upto_last_close rest)
  | None => None
  end.

(** [content.match(...)]: only a string has the method. *)
Definition String_match (content : value) : outcome (option string) :=
  match content with
  | VStr s => Return (match_braces s)
  | _ => Throw "TypeError"
  end.

(** *** The service *)

(** [class AIService]: its one varying field. *)
Record AIService := mkService {
  groqApiKey : string
}.

Definition groqEndpoint : string := "https://api.groq.com/openai/v1/chat/completions".

(** [constructor(apiKey?)]: [apiKey || process.env.GROQ_API_KEY || ''] *)
Definition new_AIService (apiKey : option string) (env_GROQ_API_KEY : option string)
    : AIService :=
  mkService (or_else apiKey (or_else env_GROQ_API_KEY "")).

(** What [fetch] resolves to: the [ok] flag and the body, which may fail to
    arrive. *)
Record HttpResponse := mkHttp {
  ok : bool;
  text : outcome string
}.

Definition newline : string := String (ascii_of_nat 10) EmptyString.
Definition dquote : string := String (ascii_of_nat 34) EmptyString.

(** [`${x}`] for a nullable text column. *)
Definition show_nullable (s : option string) : string :=
  match s with
  | Some s => s
  | None => "null"
  end.

(** [t.priority === p] *)
Definition has_priority (p : string) (x : Task) : bool :=
  match priority x with
  | Some q => (q =? p)%string
  | None => false
  end.

Definition prompt_of (tasks completedTasks incompleteTasks : list Task) : string :=
  ("Analyze these task patterns and provide insights:" ++ newline
   ++ newline
   ++ "Total tasks: " ++ show (len tasks) ++ newline
   ++ "Completed: " ++ show (len completedTasks) ++ newline
   ++ "In progress/Todo: " ++ show (len incompleteTasks) ++ newline
   ++ newline
   ++ "Completed tasks:" ++ newline
   ++ String.concat newline
        (map (fun t => "- " ++ title t ++ " (Priority: " ++ show_nullable (priority t) ++ ")")
             completedTasks)
   ++ newline
   ++ newline
   ++ "Incomplete tasks:" ++ newline
   ++ String.concat newline
        (map (fun t => "- " ++ title t ++ " (Status: " ++ status t
                       ++ ", Priority: " ++ show_nullable (priority t) ++ ")")
             incompleteTasks)
   ++ newline
   ++ newline
   ++ "Provide a JSON response with:" ++ newline
   ++ "1. " ++ dquote ++ "patterns" ++ dquote ++ ": Array of 2-3 patterns you notice in task types or priorities" ++ newline
   ++ "2. " ++ dquote ++ "completionInsights" ++ dquote ++ ": Array of 2-3 insights about what gets completed" ++ newline
   ++ "3. " ++ dquote ++ "failureReasons" ++ dquote ++ ": Array of 2-3 possible reasons tasks aren't completed" ++ newline
   ++ "4. " ++ dquote ++ "recommendations" ++ dquote ++ ": Array of 2-3 actionable recommendations" ++ newline
   ++ newline
   ++ "Keep each point concise (1 sentence). Focus on actionable insights.")%string.

(** [private basicAnalysis(tasks, completedTasks, incompleteTasks)].
    [completionRate] is the string [toFixed(0)] returns (the number [0] of
    the other branch prints and parses as that string does). *)
Definition basicAnalysis (tasks completedTasks incompleteTasks : list Task)
    : AnalysisResult :=
  let completionRate : string :=
    if len tasks >? 0
    then toFixed 0 (fmul (fdiv (inject_Z (len completedTasks)) (inject_Z (len tasks))) 100)
    else "0"%string in
  let highPriorityCompleted := len (filter (has_priority "high") completedTasks) in
  let highPriorityIncomplete := len (filter (has_priority "high") incompleteTasks) in
  let patterns :=
    if len tasks >? 0
    then
      let avgTasksPerDay := fdiv (inject_Z (len tasks)) 7 in
      let priorityDist :=
        [ ("high"%string, len (filter (has_priority "high") tasks));
          ("medium"%string, len (filter (has_priority "medium") tasks));
          ("low"%string, len (filter (has_priority "low") tasks)) ] in
      let mostCommon :=
        hd ("undefined"%string, 0)
           (sort_by (fun a b => snd b - snd a <=? 0) priorityDist) in
      [ ("You create an average of " ++ toFixed 1 avgTasksPerDay ++ " tasks per week")%string;
        ("Most tasks are " ++ fst mostCommon ++ " priority ("
         ++ show (snd mostCommon) ++ " tasks)")%string ]
    else [] in
  let completionInsights :=
    if len completedTasks >? 0
    then
      [ ("You have a " ++ completionRate ++ "% completion rate")%string ]
      ++ (if highPriorityCompleted >? 0
          then [ ("You've completed " ++ show highPriorityCompleted
                  ++ " high-priority tasks")%string ]
          else [])
    else [ "No tasks completed yet - start checking items off your list!"%string ] in
  let failureReasons :=
    if len incompleteTasks >? 0
    then
      (if highPriorityIncomplete >? 0
       then [ (show highPriorityIncomplete ++ " high-priority tasks are still pending")%string ]
       else [])
      ++ (if len incompleteTasks >? len completedTasks
          then [ "More incomplete tasks than completed - consider breaking down large tasks"%string ]
          else [])
    else [] in
  let recommendations :=
    (if lt_number (parseInt completionRate) 50 && (len tasks >? 3)
     then [ "Focus on completing existing tasks before adding new ones"%string ]
     else [])
    ++ (if highPriorityIncomplete >? 0
        then [ "Prioritize high-priority tasks first for better productivity"%string ]
        else [])
    ++ (if len incompleteTasks >? 10
        then [ "Consider archiving or deleting tasks that are no longer relevant"%string ]
        else [ "Great job managing your task list! Keep up the momentum"%string ]) in
  mkAnalysis patterns completionInsights failureReasons recommendations.

(** The network and the JSON parser are the environment of the method:
    [fetch] answers a request or rejects, [JSON_parse] decodes a text or
    throws a [SyntaxError]. *)
Section AnalyzeTasks.

Variable fetch : string -> string -> string -> outcome HttpResponse.
Variable JSON_parse : string -> outcome value.

(** [await fetch(endpoint, { headers: { Authorization }, body })]: the call
    is logged whether it resolves or rejects. *)
Definition do_fetch (endpoint authorization content : string) : M HttpResponse :=
  (fetch endpoint authorization content, [Fetch endpoint authorization content]).

(** [await response.json()] *)
Definition response_json (response : HttpResponse) : outcome value :=
  match text response with
  | Return body => JSON_parse body
  | Throw e => Throw e
  end.

(** [data.choices[0]?.message?.content || ''] *)
Definition content_of (data : value) : outcome value :=
  match get data "choices" with
  | Throw e => Throw e
  | Return choices =>
      match get choices "0" with
      | Throw e => Throw e
      | Return choice =>
          match get_opt choice "message" with
          | Throw e => Throw e
          | Return message =>
              match get_opt message "content" with
              | Throw e => Throw e
              | Return content =>
                  Return (if is_truthy content then content else VStr "")
              end
          end
      end
  end.

(** [async analyzeTasks(tasks)] *)
Definition analyzeTasks (this : AIService) (tasks : list Task) : M Analysis :=
  let completedTasks := filter (fun t => (status t =? "done")%string) tasks in
  let incompleteTasks := filter (fun t => negb (status t =? "done")%string) tasks in
  let totalTasks := len tasks in
  if totalTasks =? 0
  then
    ret (Built (mkAnalysis
                  [ "No tasks to analyze yet"%string ]
                  [ "Start adding tasks to get insights"%string ]
                  []
                  [ "Create your first task to begin tracking your productivity"%string ]))
  else
    let prompt := prompt_of tasks completedTasks incompleteTasks in
    try_catch
      (if negb (truthy_string (groqApiKey this))
       then ret (Built (basicAnalysis tasks completedTasks incompleteTasks))
       else
         response <- do_fetch groqEndpoint ("Bearer " ++ groqApiKey this) prompt ;;
         if negb (ok response)
         then
           _ <- lift (text response) ;;
           console_error "Groq API error:" ;;;
           ret (Built (basicAnalysis tasks completedTasks incompleteTasks))
         else
           data <- lift (response_json response) ;;
           content <- lift (content_of data) ;;
           jsonMatch <- lift (String_match content) ;;
           match jsonMatch with
           | Some m =>
               analysis <- lift (JSON_parse m) ;;
               ret (Parsed analysis)
           | None => ret (Built (basicAnalysis tasks completedTasks incompleteTasks))
           end)
      (fun error =>
         console_error "AI analysis error:" ;;;
         ret (Built (basicAnalysis tasks completedTasks incompleteTasks))).

End AnalyzeTasks.

End Ai.

(** ** The insight log: database.ts, ai-service.ts and index.ts *)

Module Insights.

Import Db Ai.

(** ['pattern' | 'completion' | 'failure' | 'recommendation'] *)
Inductive InsightType :=
| pattern
| completion
| failure
| recommendation.

Definition InsightType_eqb (a b : InsightType) : bool :=
  match a, b with
  | pattern, pattern | completion, completion
  | failure, failure | recommendation, recommendation => true
  | _, _ => false
  end.

(** What the [content] column, of TEXT affinity, holds after an insert: the
    text that was bound, or the text SQLite renders for a number that was
    bound. *)
Inductive Cell :=
| Text (s : string)
| NumberText (x : Q).

(** [interface AIInsight]: one row of [ai_insights]. *)
Record AIInsight := mkInsight {
  id : Z;
  created_at : Z;
  insight_type : InsightType;
  content : Cell;
  related_tasks : option string;
  confidence_score : option Q
}.

(** The [ai_insights] table: rows in rowid order and the AUTOINCREMENT
    counter. *)
Record t := mkLog {
  rows : list AIInsight;
  seq : Z
}.

Definition empty : t := mkLog [] 0.

Module insightsQueries.

(** [SELECT * FROM ai_insights ORDER BY created_at DESC LIMIT 10] *)
Definition getAll (db : t) : list AIInsight :=
  firstn 10 (index_desc created_at (rows db)).

(** [INSERT INTO ai_insights (insight_type, content, related_tasks,
    confidence_score) VALUES (?, ?, ?, ?)] *)
Definition create (now : Z) (ty : InsightType) (text : Cell)
    (related : option string) (confidence : option Q) (db : t) : t :=
  let i := seq db + 1 in
  mkLog (rows db ++ [mkInsight i (CURRENT_TIMESTAMP now) ty text related confidence]) i.

(** [SELECT * FROM ai_insights WHERE insight_type = ?
    ORDER BY created_at DESC LIMIT 5] *)
Definition getByType (ty : InsightType) (db : t) : list AIInsight :=
  firstn 5 (index_desc created_at
                       (filter (fun r => InsightType_eqb (insight_type r) ty) (rows db))).

End insightsQueries.

(** The argument of [saveInsight]: [Omit<AIInsight, 'id' | 'created_at'>].
    The content is the JavaScript value the caller passes, a string when the
    caller keeps to the declared type. *)
Record NewInsight := mkNew {
  n_insight_type : InsightType;
  n_content : value;
  n_related_tasks : option string;
  n_confidence_score : option Q
}.

(** Binding one value to the [content TEXT NOT NULL] parameter: strings and
    numbers bind; [null] and [undefined] bind as NULL and fail the NOT NULL
    constraint; anything else is refused by the binder. *)
Definition bind_scalar (v : value) : outcome Cell :=
  match v with
  | VStr s => Return (Text s)
  | VNum x => Return (NumberText x)
  | VUndefined | VNull => Throw "SqliteError"
  | VBool _ | VArr _ | VObj _ => Throw "TypeError"
  end.

(** The second argument of [create.run]: the driver spreads an array
    argument over the anonymous parameters and reads a plain object as
    named parameters, so an array of one value binds that value and every
    other array or object leaves the statement with the wrong number of
    values. *)
Definition bind_content (v : value) : outcome Cell :=
  match v with
  | VArr [x] => bind_scalar x
  | VArr _ | VObj _ => Throw "RangeError"
  | _ => bind_scalar v
  end.

(** The double [0.8]. *)
Definition default_confidence : Q := fl (8 # 10).

(** [insight.confidence_score || 0.8]: absent and zero are falsy. *)
Definition confidence_or_default (c : option Q) : Q :=
  match c with
  | Some x => if Qeq_bool x 0 then default_confidence else x
  | None => default_confidence
  end.

(** [async saveInsight(insight)]: the table afterwards, or the error the
    insert throws (the table is then as it was). *)
Definition saveInsight (now : Z) (insight : NewInsight) (db : t) : t * outcome unit :=
  match bind_content (n_content insight) with
  | Return text =>
      (insightsQueries.create now (n_insight_type insight) text
         (or_else_null (n_related_tasks insight) None)
         (Some (confidence_or_default (n_confidence_score insight)))
         db,
       Return tt)
  | Throw e => (db, Throw e)
  end.

(** [async getRecentInsights()] *)
Definition getRecentInsights (db : t) : list AIInsight := insightsQueries.getAll db.

(** [for (const x of v)]: arrays and strings are iterable, a string by its
    characters; anything else a decoded reply can hold is not. *)
Definition iterate (v : value) : outcome (list value) :=
  match v with
  | VArr l => Return l
  | VStr s => Return (map (fun c => VStr (String c EmptyString)) (list_ascii_of_string s))
  | _ => Throw "TypeError"
  end.

(** [for (const item of items) await aiService.saveInsight({...})]: the
    writes made before a failing one stay. *)
Fixpoint save_each (now : Z) (ty : InsightType) (related : option string)
    (items : list value) (db : t) : t * outcome unit :=
  match items with
  | [] => (db, Return tt)
  | item :: rest =>
      match saveInsight now (mkNew ty item related None) db with
      | (db', Return _) => save_each now ty related rest db'
      | (db', Throw e) => (db', Throw e)
      end
  end.

(** One of the four loops of the handler: read the property, iterate it,
    save every item. *)
Definition save_field (now : Z) (analysis : value) (field : string)
    (ty : InsightType) (related : option string) (db : t) : t * outcome unit :=
  match get analysis field with
  | Throw e => (db, Throw e)
  | Return items =>
      match iterate items with
      | Throw e => (db, Throw e)
      | Return l => save_each now ty related l db
      end
  end.

(** The object the handler reads the four properties from: the result the
    service built, or the reply it parsed. *)
Definition as_value (a : Analysis) : value :=
  match a with
  | Built r =>
      VObj [ ("patterns"%string, VArr (map VStr (patterns r)));
             ("completionInsights"%string, VArr (map VStr (completionInsights r)));
             ("failureReasons"%string, VArr (map VStr (failureReasons r)));
             ("recommendations"%string, VArr (map VStr (recommendations r))) ]
  | Parsed v => v
  end.

(** [JSON.stringify(tasks.map(t => t.id))] *)
Definition stringify_ids (tasks : list Task) : string :=
  ("[" ++ String.concat "," (map (fun x => show (Db.id x)) tasks) ++ "]")%string.

Inductive Payload :=
| PAnalysis (a : Analysis)
| PInsights (l : list AIInsight)
| PError (error : string).

Record Response := mkResponse {
  code : Z;
  payload : Payload
}.

Section Handlers.

Variable fetch : string -> string -> string -> outcome HttpResponse.
Variable JSON_parse : string -> outcome value.

(** [app.get('/api/ai/analyze')]: the insight log afterwards, the effects
    and the response; [now] is the clock while the insights are written. *)
Definition get_analyze (this : AIService) (now : Z) (store : Db.t) (db : t)
    : t * list event * Response :=
  let tasks := analyticsQueries.getAllTasks store in
  let failed (db' : t) (log : list event) :=
    (db', log ++ [ConsoleError "AI analysis error:"],
     mkResponse 500 (PError "Failed to analyze tasks")) in
  match analyzeTasks fetch JSON_parse this tasks with
  | (Throw e, log) => failed db log
  | (Return analysis, log) =>
      match save_field now (as_value analysis) "patterns" pattern
                       (Some (stringify_ids tasks)) db with
      | (db1, Throw e) => failed db1 log
      | (db1, Return _) =>
          match save_field now (as_value analysis) "completionInsights" completion None db1 with
          | (db2, Throw e) => failed db2 log
          | (db2, Return _) =>
              match save_field now (as_value analysis) "failureReasons" failure None db2 with
              | (db3, Throw e) => failed db3 log
              | (db3, Return _) =>
                  match save_field now (as_value analysis) "recommendations"
                                   recommendation None db3 with
                  | (db4, Throw e) => failed db4 log
                  | (db4, Return _) => (db4, log, mkResponse 200 (PAnalysis analysis))
                  end
              end
          end
      end
  end.

End Handlers.

(** [app.get('/api/ai/insights')] *)
Definition get_insights (db : t) : t * Response :=
  (db, mkResponse 200 (PInsights (getRecentInsights db))).

End Insights.

(** ** index.ts, on any JSON

    The task handlers as the server runs them.  [req.body] is whatever
    [express.json()] decoded, and nothing checks its properties against
    [interface Task] before they reach the driver.  The handlers of [Api]
    above are these on bodies of the declared types. *)

Module Wire.

Import Ai.

(** What a column of INTEGER affinity holds: an integer, a number that is
    no 64-bit integer, or a text that denotes no integer. *)
Inductive Cell :=
| CInt (z : Z)
| CReal (x : Q)
| CText (s : string).

(** One row of the [tasks] table.  The four columns of TEXT affinity hold
    text, [created_at] and [completed_at] hold times the server wrote, and
    [position] holds what the request sent. *)
Record Row := mkRow {
  id : Z;
  title : string;
  description : option string;
  status : string;
  priority : option string;
  created_at : Z;
  completed_at : option Z;
  position : Cell
}.

Record t := mkDb {
  tasks : list Row;
  seq : Z
}.

Definition empty : t := mkDb [] 0.

(** *** The driver

    [stmt.run(...args)] of better-sqlite3.  A number, a string and [null]
    bind as they are and [undefined] binds as NULL; a boolean does not
    bind.  An array among the arguments is spread over the parameters, and
    so are its elements only; a plain object is read as named parameters,
    of which these statements have none, so it supplies no value, and a
    second one is refused.  The values supplied must be as many as the
    statement has parameters. *)
Inductive Bound :=
| BNull
| BReal (x : Q)
| BText (s : string).

Definition bind_value (v : value) : outcome Bound :=
  match v with
  | VUndefined | VNull => Return BNull
  | VNum x => Return (BReal x)
  | VStr s => Return (BText s)
  | VBool _ | VArr _ | VObj _ => Throw "TypeError"
  end.

Fixpoint bind_array (l : list value) : outcome (list Bound) :=
  match l with
  | [] => Return []
  | v :: rest =>
      match bind_value v with
      | Throw e => Throw e
      | Return b =>
          match bind_array rest with
          | Throw e => Throw e
          | Return bs => Return (b :: bs)
          end
      end
  end.

Fixpoint bind_arguments (named : bool) (args : list value) : outcome (list Bound) :=
  match args with
  | [] => Return []
  | VArr l :: rest =>
      match bind_array l with
      | Throw e => Throw e
      | Return bs =>
          match bind_arguments named rest with
          | Throw e => Throw e
          | Return bs' => Return (bs ++ bs')
          end
      end
  | VObj _ :: rest => if named then Throw "TypeError" else bind_arguments true rest
  | v :: rest =>
      match bind_value v with
      | Throw e => Throw e
      | Return b =>
          match bind_arguments named rest with
          | Throw e => Throw e
          | Return bs' => Return (b :: bs')
          end
      end
  end.

(** The values bound to a statement of [n] parameters. *)
Definition bind_parameters (n : nat) (args : list value) : outcome (list Bound) :=
  match bind_arguments false args with
  | Throw e => Throw e
  | Return bs => if (List.length bs =? n)%nat then Return bs else Throw "RangeError"
  end.

(** The integer a number is, when it is one. *)
Definition integer_of_real (x : Q) : option Z :=
  let r := Qred x in
  if (Qden r =? 1)%positive then Some (Qnum r) else None.

(** Two conversions of SQLite, which is no part of the repository: the
    integer a text denotes when a column or a comparison of INTEGER
    affinity reads it, if it denotes one, and the text stored for a number
    in a column of TEXT affinity. *)
Class Engine := {
  integer_of_text : string -> option Z;
  real_text : Q -> string
}.

(** A bound value in a column of TEXT affinity; [None] is NULL. *)
Definition text_column {sqlite : Engine} (b : Bound) : option string :=
  match b with
  | BNull => None
  | BReal x => Some (real_text x)
  | BText s => Some s
  end.

(** A bound value in a column of INTEGER affinity; [None] is NULL. *)
Definition integer_column {sqlite : Engine} (b : Bound) : option Cell :=
  match b with
  | BNull => None
  | BReal x =>
      Some match integer_of_real x with
           | Some z =>
               if (- 2 ^ 63 <? z) && (z <? 2 ^ 63 - 1) then CInt z else CReal x
           | None => CReal x
           end
  | BText s =>
      Some match integer_of_text s with
           | Some z => CInt z
           | None => CText s
           end
  end.

(** [WHERE id = ?]: the rowid a bound value is equal to, if any. *)
Definition rowid_of {sqlite : Engine} (b : Bound) : option Z :=
  match b with
  | BNull => None
  | BReal x => integer_of_real x
  | BText s => integer_of_text s
  end.

Module taskQueries.

(** [SELECT * FROM tasks WHERE id = ?] with [.get] *)
Definition getById (i : Z) (db : t) : option Row :=
  find (fun x => id x =? i) (tasks db).

(** [INSERT INTO tasks (title, description, status, priority, position)
    VALUES (?, ?, ?, ?, ?)]: the new store and [lastInsertRowid], or the
    NOT NULL constraint of [title], [status] or [position] fails and
    nothing is inserted. *)
Definition create {sqlite : Engine} (now : Z) (ttl desc st prio pos : Bound) (db : t) : outcome (t * Z) :=
  match text_column ttl, text_column st, integer_column pos with
  | Some ttl, Some st, Some pos =>
      let i := seq db + 1 in
      Return (mkDb (tasks db
                    ++ [mkRow i ttl (text_column desc) st (text_column prio)
                              (Db.CURRENT_TIMESTAMP now) None pos])
                   i,
              i)
  | _, _, _ => Throw "SqliteError"
  end.

(** [UPDATE tasks SET title = ?, description = ?, status = ?, priority = ?,
    completed_at = ? WHERE id = ?]; the constraints are checked on the row
    that is written, if there is one. *)
Definition update {sqlite : Engine} (ttl desc st prio : Bound) (done_at : option Z) (i : Z) (db : t)
    : outcome t :=
  match getById i db with
  | None => Return db
  | Some _ =>
      match text_column ttl, text_column st with
      | Some ttl, Some st =>
          Return (mkDb (map (fun x =>
                               if id x =? i
                               then mkRow (id x) ttl (text_column desc) st (text_column prio)
                                          (created_at x) done_at (position x)
                               else x)
                            (tasks db))
                       (seq db))
      | _, _ => Throw "SqliteError"
      end
  end.

(** [UPDATE tasks SET position = ? WHERE id = ?] *)
Definition updatePosition {sqlite : Engine} (pos i : Bound) (db : t) : outcome t :=
  match rowid_of i with
  | None => Return db
  | Some i =>
      match getById i db with
      | None => Return db
      | Some _ =>
          match integer_column pos with
          | Some pos =>
              Return (mkDb (map (fun x =>
                                   if id x =? i
                                   then mkRow (id x) (title x) (description x) (status x)
                                              (priority x) (created_at x) (completed_at x) pos
                                   else x)
                                (tasks db))
                           (seq db))
          | None => Throw "SqliteError"
          end
      end
  end.

(** [DELETE FROM tasks WHERE id = ?] *)
Definition delete (i : Z) (db : t) : t :=
  mkDb (filter (fun x => negb (id x =? i)) (tasks db)) (seq db).

End taskQueries.

Inductive Payload :=
| PTask (x : option Row)
| PError (error : string)
| PSuccess.

Record Response := mkResponse {
  code : Z;
  payload : Payload
}.

Definition json (p : Payload) : Response := mkResponse 200 p.

(** [x = d] in a destructuring pattern: the default stands in for
    [undefined] only. *)
Definition or_default (v d : value) : value :=
  match v with
  | VUndefined => d
  | _ => v
  end.

(** [v === s] for a string [s] *)
Definition is_string (s : string) (v : value) : bool :=
  match v with
  | VStr s' => (s' =? s)%string
  | _ => false
  end.

(** A nullable text column as JavaScript reads it. *)
Definition nullable (s : option string) : value :=
  match s with
  | Some s => VStr s
  | None => VNull
  end.

(** [app.post('/api/tasks')]; a handler answers with the store, what it
    wrote to the console and the response. *)
Definition post_task {sqlite : Engine} (now : Z) (body : value) (db : t) : t * list event * Response :=
  let failed :=
    (db, [ConsoleError "Create task error:"],
     mkResponse 500 (PError "Failed to create task")) in
  match get body "title", get body "description", get body "status",
        get body "priority", get body "position" with
  | Return title, Return description, Return status, Return priority, Return position =>
      let status := or_default status (VStr "todo") in
      let priority := or_default priority (VStr "medium") in
      let position := or_default position (VNum 0) in
      if negb (is_truthy title)
      then (db, [], mkResponse 400 (PError "Title is required"))
      else
        match bind_parameters 5 [ title; description; status; priority; position ] with
        | Return [ ttl; desc; st; prio; pos ] =>
            match taskQueries.create now ttl desc st prio pos db with
            | Return (db', lastInsertRowid) =>
                (db', [], mkResponse 201 (PTask (taskQueries.getById lastInsertRowid db')))
            | Throw _ => failed
            end
        | _ => failed
        end
  | _, _, _, _, _ => failed
  end.

(** [app.put('/api/tasks/:id')]; [i] is the integer the path names and
    [now] is [new Date()].  The last two arguments of [update.run], the
    completion time and the path's id, are single values, so the first
    four supply the first four parameters. *)
Definition put_task {sqlite : Engine} (now : Z) (i : Z) (body : value) (db : t) : t * list event * Response :=
  let failed :=
    (db, [ConsoleError "Update task error:"],
     mkResponse 500 (PError "Failed to update task")) in
  match get body "title", get body "description", get body "status",
        get body "priority" with
  | Return title, Return description, Return status, Return priority =>
      match taskQueries.getById i db with
      | None => (db, [], mkResponse 404 (PError "Task not found"))
      | Some existingTask =>
          let completed_at :=
            if is_string "done" status
               && negb (Wire.status existingTask =? "done")%string
            then Some now
            else Wire.completed_at existingTask in
          match bind_parameters 4
                  [ if is_truthy title then title else VStr (Wire.title existingTask);
                    match description with
                    | VUndefined => nullable (Wire.description existingTask)
                    | _ => description
                    end;
                    if is_truthy status then status else VStr (Wire.status existingTask);
                    if is_truthy priority then priority
                    else nullable (Wire.priority existingTask) ] with
          | Return [ ttl; desc; st; prio ] =>
              match taskQueries.update ttl desc st prio completed_at i db with
              | Return db' => (db', [], json (PTask (taskQueries.getById i db')))
              | Throw _ => failed
              end
          | _ => failed
          end
      end
  | _, _, _, _ => failed
  end.

(** [({ id, position }) => { taskQueries.updatePosition.run(position, id) }] *)
Definition write_position {sqlite : Engine} (element : value) (db : t) : outcome t :=
  match get element "id", get element "position" with
  | Return id, Return position =>
      match bind_parameters 2 [ position; id ] with
      | Return [ pos; i ] => taskQueries.updatePosition pos i db
      | Return _ => Throw "RangeError"
      | Throw e => Throw e
      end
  | _, _ => Throw "TypeError"
  end.

(** [tasks.forEach(...)]: the writes made before one that throws stay. *)
Fixpoint forEach {sqlite : Engine} (elements : list value) (db : t) : t * outcome unit :=
  match elements with
  | [] => (db, Return tt)
  | element :: rest =>
      match write_position element db with
      | Return db' => forEach rest db'
      | Throw e => (db, Throw e)
      end
  end.

(** [app.patch('/api/tasks/reorder')] *)
Definition patch_reorder {sqlite : Engine} (body : value) (db : t) : t * list event * Response :=
  match get body "tasks" with
  | Throw _ =>
      (db, [ConsoleError "Reorder tasks error:"],
       mkResponse 500 (PError "Failed to reorder tasks"))
  | Return (VArr elements) =>
      match forEach elements db with
      | (db', Return _) => (db', [], json PSuccess)
      | (db', Throw _) =>
          (db', [ConsoleError "Reorder tasks error:"],
           mkResponse 500 (PError "Failed to reorder tasks"))
      end
  | Return _ => (db, [], mkResponse 400 (PError "Tasks array is required"))
  end.

(** [app.delete('/api/tasks/:id')] *)
Definition delete_task (i : Z) (db : t) : t * list event * Response :=
  match taskQueries.getById i db with
  | None => (db, [], mkResponse 404 (PError "Task not found"))
  | Some _ => (taskQueries.delete i db, [], json PSuccess)
  end.

(** The requests that write to the [tasks] table; every other request
    leaves it as it is. *)
Inductive Request :=
| POST_task (body : value)
| PUT_task (i : Z) (body : value)
| PATCH_reorder (body : value)
| DELETE_task (i : Z).

Definition handle {sqlite : Engine} (now : Z) (r : Request) (db : t) : t * list event * Response :=
  match r with
  | POST_task body => post_task now body db
  | PUT_task i body => put_task now i body db
  | PATCH_reorder body => patch_reorder body db
  | DELETE_task i => delete_task i db
  end.

(** The server: the store and the time of the last request served.  The
    table is created empty; the clock never runs backwards.  [allowed]
    says which requests the clients send. *)
Record Server := mkServer {
  store : t;
  clock : Z
}.

Inductive reachable {sqlite : Engine} (allowed : Request -> Prop) : Server -> Prop :=
| reach_start (t0 : Z) : reachable allowed (mkServer empty t0)
| reach_request (s : Server) (now : Z) (r : Request) :
    reachable allowed s -> clock s <= now -> allowed r ->
    reachable allowed (mkServer (fst (fst (handle now r (store s)))) now).

End Wire.

(** ** The client: App.tsx and the Analytics component *)

Module Client.

Import Db.

(** [handleUpdateTask]: the task list after the server's answer has
    replaced the task of that id. *)
Definition handleUpdateTask (tasks : list Task) (i : Z) (updatedTask : Task) : list Task :=
  map (fun x => if id x =? i then updatedTask else x) tasks.

(** [handleDeleteTask]: the task list without the task of that id. *)
Definition handleDeleteTask (tasks : list Task) (i : Z) : list Task :=
  filter (fun x => negb (id x =? i)) tasks.

(** [array.map((x, index) => f x index)] *)
Fixpoint map_index {A B : Type} (f : A -> Z -> B) (start : Z) (l : list A) : list B :=
  match l with
  | [] => []
  | x :: l' => f x start :: map_index f (start + 1) l'
  end.

(** [handleDragEnd]: the batch sent to the server for the moved list,
    [newTasks.map((task, index) => ({ id: task.id, position: index }))]. *)
Definition updates (newTasks : list Task) : list (Z * Z) :=
  map_index (fun task index => (id task, index)) 0 newTasks.

(** [Analytics]: the rows as charted, [data.reverse()], and the two sums
    over them. *)
Definition weeklyStats (data : list DailyAnalytics) : list DailyAnalytics := rev data.

Definition totalTasks (weeklyStats : list DailyAnalytics) : Z :=
  fold_left (fun sum day => sum + total_tasks day) weeklyStats 0.

Definition totalCompleted (weeklyStats : list DailyAnalytics) : Z :=
  fold_left (fun sum day => sum + completed_tasks day) weeklyStats 0.

End Client.

(** * Vocabulary of the properties *)

Import Db Api Ai.

(** ** The task table *)

(** A row as [UPDATE tasks SET position = ?] leaves it. *)
Definition with_position (pos : Z) (x : Task) : Task :=
  mkTask (id x) (title x) (description x) (status x) (priority x)
         (created_at x) (completed_at x) pos.

(** The position the last pair for a row's id assigns, the row's own when
    no pair names it. *)
Definition final_position (l : list (Z * Z)) (x : Task) : Z :=
  fold_left (fun p '(i, pos) => if id x =? i then pos else p) l (position x).

(** The writes of a reorder batch, in order. *)
Definition apply_pairs (l : list (Z * Z)) (db : Db.t) : Db.t :=
  fold_left (fun db '(id, position) => taskQueries.updatePosition position id db) l db.

(** What every request keeps true of every row: the title is not empty, and
    the row was not created after the request was served. *)
Definition row_ok (now : Z) (x : Task) : Prop :=
  title x <> ""%string /\ created_at x <= now.

(** ** Numbers *)

(** The unit roundoff of a double. *)
Definition unit_roundoff : Q := (1 # 9007199254740992)%Q.

(** [completed / total * 100] as the code computes it. *)
Definition percentage (c n : Z) : Q := fmul (fdiv (inject_Z c) (inject_Z n)) 100.

(** The completion rate as a rational number, in percent. *)
Definition exact_rate (completed total : Z) : Q :=
  (inject_Z completed / inject_Z total * 100)%Q.

(** The whole number [toFixed(0)] prints for [x >= 0]. *)
Definition rounded (x : Q) : Z := Qfloor (x + (1 # 2))%Q.

(** The value of a run of decimal digits appended to [acc]. *)
Fixpoint horner (d : Decimal.uint) (acc : Z) : Z :=
  match d with
  | Decimal.Nil => acc
  | Decimal.D0 d => horner d (10 * acc)
  | Decimal.D1 d => horner d (10 * acc + 1)
  | Decimal.D2 d => horner d (10 * acc + 2)
  | Decimal.D3 d => horner d (10 * acc + 3)
  | Decimal.D4 d => horner d (10 * acc + 4)
  | Decimal.D5 d => horner d (10 * acc + 5)
  | Decimal.D6 d => horner d (10 * acc + 6)
  | Decimal.D7 d => horner d (10 * acc + 7)
  | Decimal.D8 d => horner d (10 * acc + 8)
  | Decimal.D9 d => horner d (10 * acc + 9)
  end.

(** ** The insight generator *)

(** [tasks.filter(t => t.status === 'done')] and its complement. *)
Definition completed_of (tasks : list Task) : list Task :=
  filter (fun t => (status t =? "done")%string) tasks.

Definition incomplete_of (tasks : list Task) : list Task :=
  filter (fun t => negb (status t =? "done")%string) tasks.

(** The heuristic result for a task list. *)
Definition fallback (tasks : list Task) : AnalysisResult :=
  basicAnalysis tasks (completed_of tasks) (incomplete_of tasks).

(** The four lines a recommendation list is made of. *)
Definition finish_line : string :=
  "Focus on completing existing tasks before adding new ones".
Definition prioritize_line : string :=
  "Prioritize high-priority tasks first for better productivity".
Definition archive_line : string :=
  "Consider archiving or deleting tasks that are no longer relevant".
Definition encouragement_line : string :=
  "Great job managing your task list! Keep up the momentum".

Section ExternalCall.

Variable fetch : string -> string -> string -> outcome HttpResponse.
Variable JSON_parse : string -> outcome value.

(** What the network answers to the one request the method sends. *)
Definition answer (this : AIService) (tasks : list Task) : outcome HttpResponse :=
  fetch groqEndpoint ("Bearer " ++ groqApiKey this)
        (prompt_of tasks (completed_of tasks) (incomplete_of tasks)).

(** The JSON object a reply carries: the body decodes, the first choice's
    message content is a text, the text has a brace-delimited part, and that
    part decodes. *)
Definition reply_object (response : HttpResponse) : option value :=
  match response_json JSON_parse response with
  | Return data =>
      match content_of data with
      | Return (VStr content) =>
          match match_braces content with
          | Some m => match JSON_parse m with
                      | Return v => Some v
                      | Throw _ => None
                      end
          | None => None
          end
      | _ => None
      end
  | Throw _ => None
  end.

(** The ways the external call fails. *)
Inductive call_fails (this : AIService) (tasks : list Task) : Prop :=
| missing_credential :
    groqApiKey this = ""%string -> call_fails this tasks
| network_error (e : string) :
    answer this tasks = Throw e -> call_fails this tasks
| non_success_response (response : HttpResponse) :
    answer this tasks = Return response -> ok response = false -> call_fails this tasks
| no_parseable_object (response : HttpResponse) :
    answer this tasks = Return response -> reply_object response = None ->
    call_fails this tasks.

End ExternalCall.

(** ** Keys *)

(** The primary key of the [tasks] table: the ids are pairwise distinct and
    lie between 1 and the AUTOINCREMENT counter. *)
Definition ids_ok (db : Db.t) : Prop :=
  NoDup (map id (tasks db))
  /\ Forall (fun x => 1 <= id x <= Db.seq db) (tasks db)
  /\ 0 <= Db.seq db.

(** The position a batch assigns to an id: that of the last pair naming it,
    [default] when no pair does. *)
Definition position_in (pairs : list (Z * Z)) (i : Z) (default : Z) : Z :=
  fold_left (fun p '(j, pos) => if i =? j then pos else p) pairs default.

(** ** Sums *)

Definition zsum (l : list Z) : Z := fold_right Z.add 0 l.

(** ** Effects and texts *)

(** The outbound requests among the effects. *)
Definition is_fetch (e : event) : bool :=
  match e with
  | Fetch _ _ _ => true
  | ConsoleError _ => false
  end.

(** A character occurs in a string. *)
Fixpoint occurs (c : ascii) (s : string) : bool :=
  match s with
  | EmptyString => false
  | String d s' => (d =? c)%char || occurs c s'
  end.

(** What [analyzeTasks] returns for the empty list. *)
Definition placeholders : AnalysisResult :=
  mkAnalysis
    [ "No tasks to analyze yet"%string ]
    [ "Start adding tasks to get insights"%string ]
    []
    [ "Create your first task to begin tracking your productivity"%string ].

(** The two lines a list of failure reasons is made of. *)
Definition pending_line (n : Z) : string :=
  (show n ++ " high-priority tasks are still pending")%string.

Definition more_incomplete_line : string :=
  "More incomplete tasks than completed - consider breaking down large tasks".

(** The rows one loop of the analyze handler writes for a list of texts,
    the first of them numbered [first + 1]. *)
Fixpoint text_rows (now : Z) (ty : Insights.InsightType) (related : option string)
    (first : Z) (l : list string) : list Insights.AIInsight :=
  match l with
  | [] => []
  | s :: l' =>
      Insights.mkInsight (first + 1) (CURRENT_TIMESTAMP now) ty (Insights.Text s) related
                         (Some Insights.default_confidence)
      :: text_rows now ty related (first + 1) l'
  end.

(** Rows numbered consecutively after [first]. *)
Definition numbered (first : Z) (l : list Insights.AIInsight) : Prop :=
  forall i row, nth_error l i = Some row -> Insights.id row = first + 1 + Z.of_nat i.

(** The [related_tasks] the analyze handler passes for a type of insight. *)
Definition related_of (tasks : list Task) (ty : Insights.InsightType) : option string :=
  match ty with
  | Insights.pattern => Some (Insights.stringify_ids tasks)
  | _ => None
  end.

(** The log only grew: the rows of [db] are the first rows of [db'], and
    the counter advanced by the number of rows added. *)
Definition extends (db db' : Insights.t) : Prop :=
  exists added,
    Insights.rows db' = Insights.rows db ++ added
    /\ Insights.seq db' = Insights.seq db + len added.

(** A stand-in for SQLite's two conversions, for statements that need
    concrete ones: right on integers written in decimal. *)
Definition decimal_engine : Wire.Engine :=
  {| Wire.integer_of_text := fun s => option_map Z.of_int (NilZero.int_of_string s);
     Wire.real_text := fun x => (show (Qfloor x) ++ ".0")%string |}.

(** Every request. *)
Definition any_request (r : Wire.Request) : Prop := True.

(** A request whose [title] is no array and no object, the two kinds of
    value the driver does not bind as one value. *)
Definition title_is_one_value (r : Wire.Request) : Prop :=
  match r with
  | Wire.POST_task body | Wire.PUT_task _ body =>
      match get body "title" with
      | Return (VArr _) | Return (VObj _) => False
      | _ => True
      end
  | _ => True
  end.

(** A property as [interface Task] declares the four texts: a string, or
    absent. *)
Definition text_or_absent (v : value) : bool :=
  match v with
  | VUndefined | VStr _ => true
  | _ => false
  end.

(** [{ id, position }] with two integers. *)
Definition pair_value (p : Z * Z) : value :=
  VObj [ ("id"%string, VNum (inject_Z (fst p)));
         ("position"%string, VNum (inject_Z (snd p))) ].

Definition with_cell (c : Wire.Cell) (x : Wire.Row) : Wire.Row :=
  Wire.mkRow (Wire.id x) (Wire.title x) (Wire.description x) (Wire.status x)
             (Wire.priority x) (Wire.created_at x) (Wire.completed_at x) c.

(** The position a row ends at after a batch of integer pairs: that of the
    last pair naming its id, its own when no pair does. *)
Definition final_cell (l : list (Z * Z)) (x : Wire.Row) : Wire.Cell :=
  fold_left (fun c p => if Wire.id x =? fst p then Wire.CInt (snd p) else c)
            l (Wire.position x).

(** The completion time [PUT] binds. *)
Definition completion_of (now : Z) (status : value) (existing : Wire.Row) : option Z :=
  if Wire.is_string "done" status && negb (Wire.status existing =? "done")%string
  then Some now
  else Wire.completed_at existing.

(** Two stores with the same rows but for their positions. *)
Definition same_but_positions (db db' : Wire.t) : Prop :=
  Wire.seq db' = Wire.seq db
  /\ Forall2 (fun x y => exists c, y = with_cell c x) (Wire.tasks db) (Wire.tasks db').

(** A body whose four texts are as [interface Task] declares them. *)
Definition declared_texts (fields : list (string * value)) : Prop :=
  text_or_absent (lookup "title" fields) = true
  /\ text_or_absent (lookup "description" fields) = true
  /\ text_or_absent (lookup "status" fields) = true
  /\ text_or_absent (lookup "priority" fields) = true.

(** The store with the position of the row of an id replaced. *)
Definition set_cell (k : Z) (c : Wire.Cell) (db : Wire.t) : Wire.t :=
  Wire.mkDb (map (fun x => if Wire.id x =? k then with_cell c x else x) (Wire.tasks db))
            (Wire.seq db).

(** *** Bodies of the declared types, as JSON

    A row, a store, a body and a response of [Api] as the server of [Wire]
    has them.  A property that is absent reads as [undefined]. *)
Definition row_of (x : Task) : Wire.Row :=
  Wire.mkRow (id x) (title x) (description x) (status x) (priority x)
             (created_at x) (completed_at x) (Wire.CInt (position x)).

Definition store_of (db : Db.t) : Wire.t :=
  Wire.mkDb (map row_of (tasks db)) (Db.seq db).

Definition text_value (s : option string) : value :=
  match s with
  | Some s => VStr s
  | None => VUndefined
  end.

Definition integer_value (z : option Z) : value :=
  match z with
  | Some z => VNum (inject_Z z)
  | None => VUndefined
  end.

Definition body_value (b : TaskBody) : value :=
  VObj [ ("title"%string, text_value (b_title b));
         ("description"%string, text_value (b_description b));
         ("status"%string, text_value (b_status b));
         ("priority"%string, text_value (b_priority b));
         ("position"%string, integer_value (b_position b)) ].

Definition reorder_value (b : ReorderBody) : value :=
  match b with
  | NotAnArray => VObj []
  | TaskArray l => VObj [ ("tasks"%string, VArr (map pair_value l)) ]
  end.

Definition response_of (r : Response) : Wire.Response :=
  Wire.mkResponse (code r)
                  match payload r with
                  | PTask x => Wire.PTask (option_map row_of x)
                  | PError e => Wire.PError e
                  | _ => Wire.PSuccess
                  end.

(** An integer that a column of INTEGER affinity holds as it is. *)
Definition in_range (z : Z) : Prop := - 2 ^ 63 < z < 2 ^ 63 - 1.

(** * Properties *)

(** ** Sorting *)

Section SortingFacts.
Context {A : Type} (le : A -> A -> bool).

Lemma insert_by_perm (x : A) (l : list A) :
  Permutation (insert_by le x l) (x :: l).
Proof.
  induction l as [|y l IH]; simpl.
  - apply Permutation_refl.
  - destruct (le x y).
    + apply Permutation_refl.
    + apply Permutation_trans with (y :: x :: l).
      * apply perm_skip, IH.
      * apply perm_swap.
Qed.

Lemma sort_by_perm (l : list A) : Permutation (sort_by le l) l.
Proof.
  induction l as [|x l IH]; simpl.
  - apply perm_nil.
  - apply Permutation_trans with (x :: sort_by le l).
    + apply insert_by_perm.
    + apply perm_skip, IH.
Qed.

Lemma sort_by_In (x : A) (l : list A) : In x (sort_by le l) <-> In x l.
Proof.
  split; apply Permutation_in.
  - apply sort_by_perm.
  - apply Permutation_sym, sort_by_perm.
Qed.

Lemma sort_by_length (l : list A) : List.length (sort_by le l) = List.length l.
Proof. apply Permutation_length, sort_by_perm. Qed.

Hypothesis le_total : forall x y, le x y = false -> le y x = true.
Hypothesis le_trans : forall x y z, le x y = true -> le y z = true -> le x z = true.

Lemma insert_by_sorted (x : A) (l : list A) :
  StronglySorted (ordered_by le) l -> StronglySorted (ordered_by le) (insert_by le x l).
Proof.
  induction 1 as [|y l Hl IH Hy]; simpl.
  - constructor; constructor.
  - destruct (le x y) eqn:E.
    + constructor.
      * constructor; assumption.
      * constructor; [exact E|].
        rewrite Forall_forall in Hy |- *.
        intros z Hz. apply le_trans with y; auto. apply Hy, Hz.
    + constructor; [exact IH|].
      rewrite Forall_forall in Hy |- *.
      intros z Hz.
      apply (Permutation_in _ (insert_by_perm x l)) in Hz.
      destruct Hz as [<-|Hz].
      * apply le_total, E.
      * apply Hy, Hz.
Qed.

Lemma sort_by_sorted (l : list A) : StronglySorted (ordered_by le) (sort_by le l).
Proof.
  induction l as [|x l IH]; simpl.
  - constructor.
  - apply insert_by_sorted, IH.
Qed.

End SortingFacts.

(** In a sorted list the element at the smaller index is below the other. *)
Lemma StronglySorted_nth_error {A : Type} (R : A -> A -> Prop) (l : list A) :
  StronglySorted R l ->
  forall i j a b, (i < j)%nat ->
    nth_error l i = Some a -> nth_error l j = Some b -> R a b.
Proof.
  induction 1 as [|x l Hl IH Hx]; intros i j a b Hij Ha Hb.
  - destruct i; discriminate.
  - destruct j as [|j]; [lia|].
    destruct i as [|i]; simpl in *.
    + injection Ha as <-.
      rewrite Forall_forall in Hx. apply Hx.
      eapply nth_error_In; eauto.
    + apply (IH i j); auto. lia.
Qed.

(** ** The task table *)

Lemma getAll_le_total (x y : Task) :
  taskQueries.getAll_le x y = false -> taskQueries.getAll_le y x = true.
Proof. unfold taskQueries.getAll_le. lia. Qed.

Lemma getAll_le_trans (x y z : Task) :
  taskQueries.getAll_le x y = true -> taskQueries.getAll_le y z = true ->
  taskQueries.getAll_le x z = true.
Proof. unfold taskQueries.getAll_le. lia. Qed.

Lemma getAll_sorted (db : Db.t) :
  StronglySorted (ordered_by taskQueries.getAll_le) (taskQueries.getAll db).
Proof.
  apply sort_by_sorted.
  - exact getAll_le_total.
  - exact getAll_le_trans.
Qed.

Lemma getAll_In (x : Task) (db : Db.t) :
  In x (taskQueries.getAll db) <-> In x (tasks db).
Proof. apply sort_by_In. Qed.

Lemma getById_Some (i : Z) (db : Db.t) (x : Task) :
  taskQueries.getById i db = Some x -> In x (tasks db) /\ id x = i.
Proof.
  unfold taskQueries.getById. intros H.
  apply find_some in H. destruct H as [H1 H2]. split; [assumption|lia].
Qed.

Lemma getById_None (i : Z) (db : Db.t) :
  taskQueries.getById i db = None <-> (forall x, In x (tasks db) -> id x <> i).
Proof.
  unfold taskQueries.getById. split.
  - intros H x Hx. apply (find_none _ _ H) in Hx. lia.
  - intros H. destruct (find _ _) eqn:E; [|reflexivity].
    apply find_some in E. destruct E as [E1 E2].
    apply H in E1. lia.
Qed.

Lemma with_position_same (x : Task) : with_position (position x) x = x.
Proof. destruct x; reflexivity. Qed.

Lemma updatePosition_missing (pos i : Z) (db : Db.t) :
  taskQueries.getById i db = None -> taskQueries.updatePosition pos i db = db.
Proof.
  intros H. rewrite getById_None in H.
  unfold taskQueries.updatePosition. destruct db as [rows s]; simpl in *. f_equal.
  induction rows as [|x rows IH]; simpl; [reflexivity|].
  rewrite IH by (intros y Hy; apply H; right; exact Hy).
  destruct (Z.eqb_spec (id x) i) as [E|E]; [|reflexivity].
  exfalso. apply (H x); [left; reflexivity|exact E].
Qed.

Lemma updatePosition_getById (pos i j : Z) (db : Db.t) :
  taskQueries.getById j db = None ->
  taskQueries.getById j (taskQueries.updatePosition pos i db) = None.
Proof.
  rewrite !getById_None. intros H y Hy.
  unfold taskQueries.updatePosition in Hy. simpl in Hy.
  apply in_map_iff in Hy. destruct Hy as [x [<- Hx]].
  specialize (H x Hx). destruct (id x =? i); simpl; exact H.
Qed.

Lemma apply_pairs_getById (l : list (Z * Z)) (j : Z) (db : Db.t) :
  taskQueries.getById j db = None -> taskQueries.getById j (apply_pairs l db) = None.
Proof.
  revert db. induction l as [|[i pos] l IH]; intros db H; [exact H|].
  change (apply_pairs ((i, pos) :: l) db)
    with (apply_pairs l (taskQueries.updatePosition pos i db)).
  apply IH, updatePosition_getById, H.
Qed.

Lemma reorder_rows (l : list (Z * Z)) (db : Db.t) :
  tasks (apply_pairs l db) = map (fun x => with_position (final_position l x) x) (tasks db)
  /\ seq (apply_pairs l db) = seq db.
Proof.
  revert db. induction l as [|[i pos] l IH]; intros db; simpl.
  - split; [|reflexivity].
    rewrite <- (map_id (tasks db)) at 1. apply map_ext.
    intros x. unfold final_position; simpl. symmetry. apply with_position_same.
  - change (apply_pairs ((i, pos) :: l) db)
      with (apply_pairs l (taskQueries.updatePosition pos i db)).
    destruct (IH (taskQueries.updatePosition pos i db)) as [IH1 IH2].
    rewrite IH1, IH2. split; [|reflexivity].
    unfold taskQueries.updatePosition; simpl. rewrite map_map.
    apply map_ext. intros x. unfold final_position; simpl.
    destruct (id x =? i); reflexivity.
Qed.

Lemma patch_reorder_store (l : list (Z * Z)) (db : Db.t) :
  fst (patch_reorder (TaskArray l) db) = apply_pairs l db.
Proof. reflexivity. Qed.

Lemma final_position_last (l : list (Z * Z)) (i pos : Z) (x : Task) :
  id x = i -> final_position (l ++ [(i, pos)]) x = pos.
Proof.
  intros H. unfold final_position. rewrite fold_left_app. simpl.
  rewrite H, Z.eqb_refl. reflexivity.
Qed.

Lemma final_position_other (l : list (Z * Z)) (i pos : Z) (x : Task) :
  id x <> i -> final_position (l ++ [(i, pos)]) x = final_position l x.
Proof.
  intros H. unfold final_position. rewrite fold_left_app. simpl.
  destruct (Z.eqb_spec (id x) i); [contradiction|reflexivity].
Qed.

(** C7: in a store that holds tasks [A] and [B], after
    [reorder([{id: A, position: 2}, {id: B, position: 0}])] the list that
    [listAll] returns holds both, and [B] at a smaller index than [A]:
    position ascending is the first sort key, so no tie-break is consulted. *)
Theorem reorder_then_listAll (db : Db.t) (A B : Z) (ta tb : Task) :
  A <> B ->
  taskQueries.getById A db = Some ta ->
  taskQueries.getById B db = Some tb ->
  let db' := fst (patch_reorder (TaskArray [(A, 2); (B, 0)]) db) in
  let listed := taskQueries.getAll db' in
  (exists i j a b,
      nth_error listed i = Some a /\ id a = A
      /\ nth_error listed j = Some b /\ id b = B /\ (j < i)%nat)
  /\ (forall i j a b,
        nth_error listed i = Some a -> id a = A ->
        nth_error listed j = Some b -> id b = B -> (j < i)%nat).
Proof.
  intros HAB Ha Hb db' listed.
  assert (Hrows : forall x, In x listed ->
                    (id x = A -> position x = 2) /\ (id x = B -> position x = 0)).
  { intros x Hx. apply getAll_In in Hx.
    unfold db' in Hx. rewrite patch_reorder_store in Hx.
    destruct (reorder_rows [(A, 2); (B, 0)] db) as [Hrows _].
    rewrite Hrows in Hx. apply in_map_iff in Hx. destruct Hx as [y [<- Hy]].
    simpl. split; intros E.
    - change [(A, 2); (B, 0)] with ([(A, 2)] ++ [(B, 0)]).
      rewrite final_position_other by congruence.
      apply (final_position_last [] A 2 y E).
    - apply (final_position_last [(A, 2)] B 0 y E). }
  assert (Hall : forall i j a b,
             nth_error listed i = Some a -> id a = A ->
             nth_error listed j = Some b -> id b = B -> (j < i)%nat).
  { intros i j a b Hi Ea Hj Eb.
    destruct (Nat.lt_trichotomy j i) as [H|[H|H]]; [exact H| |].
    - subst j. rewrite Hi in Hj. injection Hj as <-. congruence.
    - exfalso.
      pose proof (StronglySorted_nth_error _ _ (getAll_sorted db') i j a b H Hi Hj) as Hle.
      apply nth_error_In in Hi, Hj.
      destruct (Hrows a Hi) as [Pa _]. destruct (Hrows b Hj) as [_ Pb].
      specialize (Pa Ea). specialize (Pb Eb).
      unfold ordered_by, taskQueries.getAll_le in Hle. lia. }
  split; [|exact Hall].
  assert (Hin : forall k x, taskQueries.getById k db = Some x ->
                  exists n y, nth_error listed n = Some y /\ id y = k).
  { intros k x Hk. apply getById_Some in Hk. destruct Hk as [Hk Ek].
    assert (In (with_position (final_position [(A, 2); (B, 0)] x) x) listed) as Hy.
    { apply getAll_In. unfold db'. rewrite patch_reorder_store.
      destruct (reorder_rows [(A, 2); (B, 0)] db) as [-> _].
      apply in_map_iff. exists x. split; [reflexivity|exact Hk]. }
    apply In_nth_error in Hy. destruct Hy as [n Hn].
    exists n, (with_position (final_position [(A, 2); (B, 0)] x) x).
    split; [exact Hn|exact Ek]. }
  destruct (Hin A ta Ha) as [i [a [Hi Ea]]].
  destruct (Hin B tb Hb) as [j [b [Hj Eb]]].
  exists i, j, a, b. repeat split; try assumption.
  apply (Hall i j a b); assumption.
Qed.

(** A two-row store where the second row starts in front of the first. *)
Lemma reorder_then_listAll_witness :
  let db := mkDb [ mkTask 1 "A" None "todo" (Some "medium"%string) 0 None 0;
                   mkTask 2 "B" None "todo" (Some "medium"%string) 1000 None 5 ] 2 in
  map id (taskQueries.getAll db) = [1; 2]
  /\ map id (taskQueries.getAll (fst (patch_reorder (TaskArray [(1, 2); (2, 0)]) db)))
     = [2; 1]
  /\ exists i j a b,
      nth_error (taskQueries.getAll (fst (patch_reorder (TaskArray [(1, 2); (2, 0)]) db))) i
      = Some a /\ id a = 1
      /\ nth_error (taskQueries.getAll (fst (patch_reorder (TaskArray [(1, 2); (2, 0)]) db))) j
         = Some b /\ id b = 2 /\ (j < i)%nat.
Proof.
  intros db. split; [reflexivity|split; [reflexivity|]].
  refine (proj1 (reorder_then_listAll db 1 2 _ _ _ eq_refl eq_refl)).
  discriminate.
Defined.

(** ** Reachable stores *)

Lemma getById_update (ttl : string) (desc : option string) (st : string)
    (prio : option string) (done_at : option Z) (i : Z) (db : Db.t) (x : Task) :
  taskQueries.getById i db = Some x ->
  taskQueries.getById i (taskQueries.update ttl desc st prio done_at i db)
  = Some (mkTask (id x) ttl desc st prio (created_at x) done_at (position x)).
Proof.
  unfold taskQueries.getById, taskQueries.update. simpl.
  induction (tasks db) as [|y rows IH]; simpl; [discriminate|].
  destruct (id y =? i) eqn:E; simpl.
  - rewrite E. intros H. injection H as <-. reflexivity.
  - rewrite E. exact IH.
Qed.

Lemma truthy_string_nonempty (s : string) : truthy_string s = true -> s <> ""%string.
Proof.
  unfold truthy_string. intros H ->. discriminate.
Qed.

Lemma or_else_nonempty (a : option string) (b : string) :
  b <> ""%string -> or_else a b <> ""%string.
Proof.
  intros Hb. destruct a as [s|]; simpl; [|exact Hb].
  destruct (truthy_string s) eqn:E; [|exact Hb].
  apply truthy_string_nonempty, E.
Qed.

Lemma CURRENT_TIMESTAMP_le (now : Z) : CURRENT_TIMESTAMP now <= now.
Proof. unfold CURRENT_TIMESTAMP. apply Z.mul_div_le. lia. Qed.

Lemma row_ok_later (t now : Z) (x : Task) : t <= now -> row_ok t x -> row_ok now x.
Proof. unfold row_ok. intros H [H1 H2]. split; [exact H1|lia]. Qed.

Lemma handle_row_ok (now : Z) (r : Request) (db : Db.t) :
  Forall (row_ok now) (tasks db) ->
  Forall (row_ok now) (tasks (fst (handle now r db))).
Proof.
  intros H. destruct r as [|i|body|i body|body|i|d|]; simpl; try exact H.
  - unfold get_task. destruct (taskQueries.getById i db); exact H.
  - unfold post_task. destruct (b_title body) as [ttl|]; [|exact H].
    destruct (truthy_string ttl) eqn:E; simpl; [|exact H].
    apply Forall_app. split; [exact H|].
    constructor; [|constructor]. split; simpl.
    + apply truthy_string_nonempty, E.
    + apply CURRENT_TIMESTAMP_le.
  - unfold put_task. destruct (taskQueries.getById i db) as [x|] eqn:E; [|exact H].
    simpl. apply getById_Some in E. destruct E as [E _].
    rewrite Forall_forall in H. destruct (H x E) as [Hx _].
    apply Forall_forall. intros y Hy. apply in_map_iff in Hy.
    destruct Hy as [z [<- Hz]]. destruct (H z Hz) as [Hz1 Hz2].
    destruct (id z =? i); split; simpl; auto.
    apply or_else_nonempty, Hx.
  - destruct body as [|l]; [exact H|].
    rewrite patch_reorder_store. destruct (reorder_rows l db) as [-> _].
    rewrite Forall_forall in H. apply Forall_forall. intros y Hy.
    apply in_map_iff in Hy. destruct Hy as [z [<- Hz]]. apply (H z Hz).
  - unfold delete_task. destruct (taskQueries.getById i db); [|exact H].
    simpl. rewrite Forall_forall in H. apply Forall_forall. intros y Hy.
    apply filter_In in Hy. apply H, Hy.
Qed.

Lemma reachable_row_ok (s : Server) :
  reachable s -> Forall (row_ok (clock s)) (tasks (store s)).
Proof.
  induction 1 as [t0|s now r Hs IH Hnow]; simpl.
  - constructor.
  - apply handle_row_ok.
    rewrite Forall_forall in IH. apply Forall_forall. intros x Hx.
    apply (row_ok_later (clock s)); [exact Hnow|apply IH, Hx].
Qed.

(** ** Statistics *)

Lemma filter_nil_iff {A : Type} (f : A -> bool) (l : list A) :
  filter f l = [] <-> (forall x, In x l -> f x = false).
Proof.
  induction l as [|y l IH]; simpl.
  - split; [intros _ x []|reflexivity].
  - destruct (f y) eqn:E.
    + split; [discriminate|]. intros H. specialize (H y (or_introl eq_refl)). congruence.
    + rewrite IH. split.
      * intros H x [<-|Hx]; [exact E|apply H, Hx].
      * intros H x Hx. apply H. right. exact Hx.
Qed.

Lemma filter_narrow {A : Type} (f g : A -> bool) (l : list A) :
  (forall x, f x = true -> g x = true) -> filter f (filter g l) = filter f l.
Proof.
  intros H. induction l as [|y l IH]; simpl; [reflexivity|].
  destruct (g y) eqn:G; simpl.
  - rewrite IH. reflexivity.
  - destruct (f y) eqn:F; [|exact IH].
    apply H in F. congruence.
Qed.

Lemma group_by_date_dates (rows : list Task) :
  map date (group_by_date rows) = nodup Z.eq_dec (map (fun x => date_of (created_at x)) rows).
Proof.
  unfold group_by_date. rewrite map_map. simpl. apply map_id.
Qed.

Lemma group_by_date_In (rows : list Task) (r : DailyAnalytics) :
  In r (group_by_date rows) <->
  (exists x, In x rows /\ date_of (created_at x) = date r)
  /\ r = stats_row (date r) (filter (on_date (date r)) rows).
Proof.
  unfold group_by_date. rewrite in_map_iff. split.
  - intros [d [<- Hd]]. simpl. split; [|reflexivity].
    apply nodup_In, in_map_iff in Hd. destruct Hd as [x [Hx1 Hx2]].
    exists x. split; assumption.
  - intros [[x [Hx1 Hx2]] Hr]. exists (date r). split; [symmetry; exact Hr|].
    apply nodup_In, in_map_iff. exists x. split; assumption.
Qed.

(** C8: for a date on which no task was created, [GET /api/analytics/daily]
    answers 200 with the record of that date whose three numbers are 0: the
    query has no result row and the handler substitutes the record. *)
Theorem dailyStats_zero_record (now : Z) (query_date : option Z) (db : Db.t) :
  let date := match query_date with Some d => d | None => date_of now end in
  (forall x, In x (tasks db) -> date_of (created_at x) <> date) ->
  analyticsQueries.getDailyStats date db = None
  /\ get_daily now query_date db = (db, mkResponse 200 (PStats (mkDaily date 0 0 0))).
Proof.
  intros d H.
  assert (E : analyticsQueries.getDailyStats d db = None).
  { unfold analyticsQueries.getDailyStats.
    replace (filter (on_date d) (tasks db)) with (@nil Task); [reflexivity|].
    symmetry. apply filter_nil_iff. intros x Hx. unfold on_date.
    apply Z.eqb_neq, H, Hx. }
  split; [exact E|].
  unfold get_daily. fold d. rewrite E. reflexivity.
Qed.

(** One task created on day 0, statistics asked for day 3. *)
Lemma dailyStats_zero_record_witness :
  let db := mkDb [ mkTask 1 "Buy milk" None "done" (Some "medium"%string) 1000 None 0 ] 1 in
  analyticsQueries.getDailyStats 3 db = None
  /\ get_daily 0 (Some 3) db = (db, mkResponse 200 (PStats (mkDaily 3 0 0 0))).
Proof.
  intros db. apply (dailyStats_zero_record 0 (Some 3) db).
  intros x [<-|[]]. discriminate.
Defined.

Lemma StronglySorted_weaken {A : Type} (R R' : A -> A -> Prop) (l : list A) :
  (forall a b, R a b -> R' a b) -> StronglySorted R l -> StronglySorted R' l.
Proof.
  intros H. induction 1 as [|x l Hl IH Hx]; constructor; [exact IH|].
  rewrite Forall_forall in Hx |- *. intros y Hy. apply H, Hx, Hy.
Qed.

Lemma StronglySorted_strict {A : Type} (key : A -> Z) (l : list A) :
  StronglySorted (fun a b => key b <= key a) l ->
  NoDup (map key l) ->
  StronglySorted (fun a b => key b < key a) l.
Proof.
  induction 1 as [|x l Hl IH Hx]; intros Hnd; simpl in *.
  - constructor.
  - inversion Hnd as [|k ks Hk Hks]; subst.
    constructor; [apply IH, Hks|].
    rewrite Forall_forall in Hx |- *. intros y Hy.
    specialize (Hx y Hy).
    assert (key y <> key x).
    { intros E. apply Hk. rewrite <- E. apply in_map, Hy. }
    lia.
Qed.

Lemma getWeeklyStats_In (now : Z) (db : Db.t) (r : DailyAnalytics) :
  In r (analyticsQueries.getWeeklyStats now db) <->
  date_of now - 7 <= date r
  /\ (exists x, In x (tasks db) /\ date_of (created_at x) = date r)
  /\ r = stats_row (date r) (filter (on_date (date r)) (tasks db)).
Proof.
  unfold analyticsQueries.getWeeklyStats.
  rewrite sort_by_In, group_by_date_In.
  set (window := fun x : Task => date_of now - 7 <=? date_of (created_at x)).
  split.
  - intros [[x [Hx E]] Hr]. apply filter_In in Hx. destruct Hx as [Hx Hw].
    unfold window in Hw.
    assert (Hd : date_of now - 7 <= date r) by lia.
    split; [exact Hd|]. split; [exists x; split; assumption|].
    rewrite Hr at 1. f_equal. apply filter_narrow.
    intros y Hy. unfold on_date in Hy. unfold window. lia.
  - intros [Hd [[x [Hx E]] Hr]]. split.
    + exists x. split; [|exact E]. apply filter_In. split; [exact Hx|].
      unfold window. lia.
    + rewrite Hr at 1. f_equal. symmetry. apply filter_narrow.
      intros y Hy. unfold on_date in Hy. unfold window. lia.
Qed.

Lemma getWeeklyStats_sorted (now : Z) (db : Db.t) :
  StronglySorted (fun a b => date b < date a) (analyticsQueries.getWeeklyStats now db).
Proof.
  apply StronglySorted_strict.
  - unfold analyticsQueries.getWeeklyStats.
    apply (StronglySorted_weaken (ordered_by (fun a b => date b <=? date a))).
    + unfold ordered_by. intros a b. lia.
    + apply sort_by_sorted.
      * intros x y. lia.
      * intros x y z. lia.
  - unfold analyticsQueries.getWeeklyStats.
    eapply Permutation_NoDup.
    + apply Permutation_sym, Permutation_map, sort_by_perm.
    + rewrite group_by_date_dates. apply NoDup_nodup.
Qed.

(** C9: [GET /api/analytics/weekly], served at time [now] by a reachable
    server, answers 200 with the rows of [weeklyStats]: exactly one row for
    each date from seven days before today up to today on which a task was
    created, newest date first; a row counts the tasks created on its date
    (at least one) and those of them that are done; a date without tasks
    has no row. *)
Theorem weeklyStats_rows (s : Server) (now : Z) :
  reachable s ->
  clock s <= now ->
  let rows := analyticsQueries.getWeeklyStats now (store s) in
  get_weekly now (store s) = (store s, mkResponse 200 (PStatsList rows))
  /\ StronglySorted (fun a b => date b < date a) rows
  /\ (forall d,
        In d (map date rows) <->
        date_of now - 7 <= d <= date_of now
        /\ exists x, In x (tasks (store s)) /\ date_of (created_at x) = d)
  /\ Forall (fun r =>
               total_tasks r = len (filter (on_date (date r)) (tasks (store s)))
               /\ completed_tasks r
                  = len (filter is_done (filter (on_date (date r)) (tasks (store s))))
               /\ 1 <= total_tasks r) rows.
Proof.
  intros Hs Hnow rows. split; [reflexivity|]. split; [apply getWeeklyStats_sorted|].
  apply reachable_row_ok in Hs. rewrite Forall_forall in Hs.
  split.
  - intros d. rewrite in_map_iff. split.
    + intros [r [<- Hr]]. apply getWeeklyStats_In in Hr.
      destruct Hr as [Hd [[x [Hx E]] _]].
      split; [|exists x; split; assumption].
      split; [exact Hd|]. rewrite <- E.
      destruct (Hs x Hx) as [_ Hc].
      apply Z.div_le_mono; lia.
    + intros [[Hd _] Hx].
      exists (stats_row d (filter (on_date d) (tasks (store s)))).
      split; [reflexivity|]. apply getWeeklyStats_In. simpl. auto.
  - apply Forall_forall. intros r Hr. apply getWeeklyStats_In in Hr.
    destruct Hr as [_ [[x [Hx E]] Hr]].
    pose proof (f_equal total_tasks Hr) as Ht.
    pose proof (f_equal completed_tasks Hr) as Hc.
    simpl in Ht, Hc. split; [exact Ht|]. split; [exact Hc|].
    assert (In x (filter (on_date (date r)) (tasks (store s)))) as Hin.
    { apply filter_In. split; [exact Hx|]. unfold on_date. lia. }
    rewrite Ht. unfold len.
    destruct (filter (on_date (date r)) (tasks (store s))); [destruct Hin|].
    simpl List.length. lia.
Qed.

(** Tasks created on day 0 and on day 2, statistics asked for on day 9. *)
Lemma weeklyStats_rows_witness :
  let s := mkServer
             (fst (handle 172800005 (POST_task (mkBody (Some "Call Ann"%string) None None None None))
                     (fst (handle 1500 (POST_task (mkBody (Some "Buy milk"%string) None None None None))
                             Db.empty))))
             172800005 in
  map date (analyticsQueries.getWeeklyStats 777600000 (store s)) = [2]
  /\ StronglySorted (fun a b => date b < date a)
       (analyticsQueries.getWeeklyStats 777600000 (store s)).
Proof.
  intros s. split; [reflexivity|].
  refine (proj1 (proj2 (weeklyStats_rows s 777600000 _ _))).
  - apply (reach_request
             (mkServer
                (fst (handle 1500
                        (POST_task (mkBody (Some "Buy milk"%string) None None None None))
                        Db.empty))
                1500)
             172800005
             (POST_task (mkBody (Some "Call Ann"%string) None None None None)));
      [|simpl; lia].
    apply (reach_request (mkServer Db.empty 0) 1500); [apply reach_start|simpl; lia].
  - unfold s. simpl. lia.
Defined.

(** ** The insight generator *)

Lemma len_nonempty {A : Type} (l : list A) : l <> [] -> (len l =? 0) = false.
Proof.
  intros H. destruct l as [|x l]; [contradiction|].
  apply Z.eqb_neq. unfold len. rewrite length_cons, Nat2Z.inj_succ. lia.
Qed.

Section AnalyzeTasksFacts.

Variable fetch : string -> string -> string -> outcome HttpResponse.
Variable JSON_parse : string -> outcome value.

Lemma analyzeTasks_returns (this : AIService) (tasks : list Task) :
  tasks <> [] ->
  exists log,
    analyzeTasks fetch JSON_parse this tasks
    = (Return match (if truthy_string (groqApiKey this)
                     then match answer fetch this tasks with
                          | Return response =>
                              if ok response then reply_object JSON_parse response else None
                          | Throw _ => None
                          end
                     else None) with
              | Some v => Parsed v
              | None => Built (fallback tasks)
              end, log).
Proof.
  intros Hne. unfold analyzeTasks, reply_object, answer, fallback.
  rewrite (len_nonempty tasks Hne).
  fold (completed_of tasks). fold (incomplete_of tasks).
  generalize (basicAnalysis tasks (completed_of tasks) (incomplete_of tasks)) as basic.
  generalize (prompt_of tasks (completed_of tasks) (incomplete_of tasks)) as prompt.
  intros prompt basic.
  destruct (truthy_string (groqApiKey this)); simpl; [|eexists; reflexivity].
  unfold do_fetch.
  destruct (fetch groqEndpoint _ prompt) as [response|e]; simpl; [|eexists; reflexivity].
  destruct (ok response); simpl.
  - destruct (response_json JSON_parse response) as [data|e]; simpl; [|eexists; reflexivity].
    destruct (content_of data) as [content|e]; simpl; [|eexists; reflexivity].
    destruct content; simpl; try (eexists; reflexivity).
    destruct (match_braces s) as [m|]; simpl; [|eexists; reflexivity].
    destruct (JSON_parse m); simpl; eexists; reflexivity.
  - destruct (text response); simpl; eexists; reflexivity.
Qed.

Lemma call_fails_no_object (this : AIService) (tasks : list Task) :
  call_fails fetch JSON_parse this tasks ->
  (if truthy_string (groqApiKey this)
   then match answer fetch this tasks with
        | Return response => if ok response then reply_object JSON_parse response else None
        | Throw _ => None
        end
   else None) = None.
Proof.
  intros [Hkey|e He|response Hr Hok|response Hr Hobj].
  - rewrite Hkey. reflexivity.
  - rewrite He. destruct (truthy_string _); reflexivity.
  - rewrite Hr, Hok. destruct (truthy_string _); reflexivity.
  - rewrite Hr, Hobj. destruct (truthy_string _), (ok response); reflexivity.
Qed.

(** C2: on a non-empty task list [analyzeTasks] returns, it never throws;
    and when the external call fails (no credential, a rejected [fetch], a
    response that is not [ok], a reply with no parseable JSON object) what it
    returns is the result of [basicAnalysis]. *)
Theorem analyze_degrades_to_basicAnalysis (this : AIService) (tasks : list Task) :
  tasks <> [] ->
  (exists result log, analyzeTasks fetch JSON_parse this tasks = (Return result, log))
  /\ (call_fails fetch JSON_parse this tasks ->
      exists log,
        analyzeTasks fetch JSON_parse this tasks
        = (Return (Built (basicAnalysis tasks (completed_of tasks) (incomplete_of tasks))),
           log)).
Proof.
  intros Hne. destruct (analyzeTasks_returns this tasks Hne) as [log Hlog]. split.
  - eexists. exists log. exact Hlog.
  - intros Hfail. exists log. rewrite Hlog.
    rewrite (call_fails_no_object this tasks Hfail). reflexivity.
Qed.

(** The reply's object is handed back when every step of the call succeeds. *)
Lemma analyze_returns_reply (this : AIService) (tasks : list Task)
    (response : HttpResponse) (v : value) :
  tasks <> [] ->
  groqApiKey this <> ""%string ->
  answer fetch this tasks = Return response ->
  ok response = true ->
  reply_object JSON_parse response = Some v ->
  exists log, analyzeTasks fetch JSON_parse this tasks = (Return (Parsed v), log).
Proof.
  intros Hne Hkey Hr Hok Hobj.
  destruct (analyzeTasks_returns this tasks Hne) as [log Hlog].
  exists log. rewrite Hlog, Hr, Hok, Hobj.
  unfold truthy_string. apply String.eqb_neq in Hkey. rewrite Hkey. reflexivity.
Qed.

(** C3: on the empty task list [analyzeTasks] returns the four fixed lists
    and its log is empty: no request was sent. *)
Theorem analyze_empty_list (this : AIService) :
  analyzeTasks fetch JSON_parse this []
  = (Return (Built (mkAnalysis
                      [ "No tasks to analyze yet"%string ]
                      [ "Start adding tasks to get insights"%string ]
                      []
                      [ "Create your first task to begin tracking your productivity"%string ])),
     []).
Proof. reflexivity. Qed.

End AnalyzeTasksFacts.

(** The network is down: the request is rejected and the heuristic answers. *)
Lemma analyze_degrades_to_basicAnalysis_witness :
  let tasks := [ mkTask 1 "Buy milk" None "todo" (Some "high"%string) 1000 None 0 ] in
  exists log,
    analyzeTasks (fun _ _ _ => Throw "ECONNREFUSED"%string)
                 (fun _ => Throw "SyntaxError"%string) (mkService "gsk") tasks
    = (Return (Built (basicAnalysis tasks (completed_of tasks) (incomplete_of tasks))), log).
Proof.
  intros tasks.
  refine (proj2 (analyze_degrades_to_basicAnalysis
                   (fun _ _ _ => Throw "ECONNREFUSED"%string)
                   (fun _ => Throw "SyntaxError"%string) (mkService "gsk") tasks _) _).
  - discriminate.
  - apply (network_error _ _ _ _ "ECONNREFUSED"%string). reflexivity.
Defined.

(** ** Doubles *)

Section Doubles.
Local Open Scope Q_scope.

Lemma round_half_even_error (q : Q) :
  q - (1 # 2) <= inject_Z (round_half_even q) <= q + (1 # 2).
Proof.
  unfold round_half_even.
  pose proof (Qfloor_le q) as Hlo.
  pose proof (Qlt_floor q) as Hhi.
  rewrite inject_Z_plus in Hhi. change (inject_Z 1) with 1 in Hhi.
  destruct (Qcompare_spec (q - inject_Z (Qfloor q)) (1 # 2)) as [E|E|E].
  - destruct (Z.even (Qfloor q)).
    + lra.
    + rewrite inject_Z_plus. change (inject_Z 1) with 1. lra.
  - lra.
  - rewrite inject_Z_plus. change (inject_Z 1) with 1. lra.
Qed.

Lemma two_pow_pos (e : Z) : 0 < 2 ^ e.
Proof. apply Qpower_0_lt. reflexivity. Qed.

Lemma binade_le (q : Q) : 0 < q -> 2 ^ binade q <= q.
Proof.
  intros Hq. unfold binade.
  destruct (Qle_bool _ q) eqn:E.
  - apply Qle_bool_iff, E.
  - clear E. destruct q as [a b]. simpl Qnum. simpl Qden.
    assert (Ha : (0 < a)%Z).
    { unfold Qlt in Hq. simpl in Hq. lia. }
    set (la := Z.log2 a). set (lb := Z.log2 (Z.pos b)).
    assert (Hla : (2 ^ la <= a)%Z) by (apply Z.log2_spec; exact Ha).
    assert (Hlb : (Z.pos b < 2 ^ (lb + 1))%Z).
    { apply (Z.log2_spec (Z.pos b)). lia. }
    assert (Hla0 : (0 <= la)%Z) by apply Z.log2_nonneg.
    assert (Hlb0 : (0 <= lb)%Z) by apply Z.log2_nonneg.
    replace (la - lb - 1)%Z with (la - (lb + 1))%Z by lia.
    rewrite Qpower_minus by discriminate.
    change 2 with (inject_Z 2).
    rewrite <- !Zpower_Qpower by lia.
    apply Qle_shift_div_r.
    + rewrite <- (Zlt_Qlt 0). lia.
    + rewrite Qmult_inject_Z_r. unfold Qle. simpl.
      nia.
Qed.

Lemma fl_pos_error (q : Q) :
  0 < q -> q * (1 - unit_roundoff) <= fl_pos q <= q * (1 + unit_roundoff).
Proof.
  intros Hq. unfold fl_pos.
  set (e := binade q).
  set (s := 2 ^ (52 - e)). set (t := 2 ^ (e - 52)).
  pose proof (round_half_even_error (q * s)) as [Hlo Hhi].
  set (m := inject_Z (round_half_even (q * s))) in *.
  assert (Ht : 0 < t) by apply two_pow_pos.
  assert (Hst : s * t == 1).
  { unfold s, t. rewrite <- Qpower_plus by discriminate.
    replace (52 - e + (e - 52))%Z with 0%Z by lia. reflexivity. }
  assert (HtE : t == 2 ^ e * (1 # 4503599627370496)).
  { unfold t. replace (e - 52)%Z with (e + -52)%Z by lia.
    rewrite Qpower_plus by discriminate. reflexivity. }
  pose proof (binade_le q Hq) as HE. fold e in HE.
  assert (H1 : (q * s - (1 # 2)) * t <= m * t).
  { apply Qmult_le_compat_r; [exact Hlo|apply Qlt_le_weak, Ht]. }
  assert (H2 : m * t <= (q * s + (1 # 2)) * t).
  { apply Qmult_le_compat_r; [exact Hhi|apply Qlt_le_weak, Ht]. }
  assert (E1 : (q * s - (1 # 2)) * t == q - (1 # 2) * t).
  { transitivity (q * (s * t) - (1 # 2) * t); [ring|]. rewrite Hst. ring. }
  assert (E2 : (q * s + (1 # 2)) * t == q + (1 # 2) * t).
  { transitivity (q * (s * t) + (1 # 2) * t); [ring|]. rewrite Hst. ring. }
  rewrite E1 in H1. rewrite E2 in H2.
  unfold unit_roundoff.
  generalize dependent (m * t). intros x H1 H2.
  generalize dependent (2 ^ e). intros E HtE HE.
  lra.
Qed.

Lemma fl_comp (q q' : Q) : q == q' -> fl q = fl q'.
Proof.
  intros H. unfold fl. rewrite (Qred_complete q q' H). reflexivity.
Qed.

Lemma fl_error (q : Q) :
  0 < q -> q * (1 - unit_roundoff) <= fl q <= q * (1 + unit_roundoff).
Proof.
  intros Hq. unfold fl.
  assert (Hr : 0 < Qred q) by (rewrite Qred_correct; exact Hq).
  destruct (Qcompare_spec (Qred q) 0) as [E|E|E]; try lra.
  rewrite Qred_correct.
  pose proof (fl_pos_error (Qred q) Hr) as H.
  pose proof (Qred_correct q) as Hc. unfold unit_roundoff in *.
  generalize dependent (fl_pos (Qred q)). intros x H.
  generalize dependent (Qred q). intros r Hr E Hc H.
  assert (r * (1 # 9007199254740992) == q * (1 # 9007199254740992)) by (rewrite Hc; reflexivity).
  lra.
Qed.

Lemma fl_zero (q : Q) : q == 0 -> fl q = 0.
Proof. intros H. rewrite (fl_comp q 0 H). reflexivity. Qed.

Lemma fl_pos_lt (q : Q) : 0 < q -> 0 < fl q.
Proof.
  intros Hq. pose proof (fl_error q Hq) as [H _]. unfold unit_roundoff in H. lra.
Qed.

Lemma Z_to_Q_le (a b : Z) : (a <= b)%Z -> inject_Z a <= inject_Z b.
Proof. rewrite <- Zle_Qle. trivial. Qed.

Lemma Z_to_Q_lt (a b : Z) : (a < b)%Z -> inject_Z a < inject_Z b.
Proof. rewrite <- Zlt_Qlt. trivial. Qed.

Lemma percentage_below (c n : Z) :
  (0 <= c)%Z -> (0 < n < 2 ^ 32)%Z -> (200 * c < 99 * n)%Z ->
  percentage c n < 99 # 2.
Proof.
  intros Hc Hn H. unfold percentage, fmul, fdiv.
  destruct (Z.eq_dec c 0) as [->|Hc0].
  - rewrite (fl_zero (inject_Z 0 / inject_Z n)) by reflexivity.
    rewrite fl_zero by reflexivity. reflexivity.
  - set (r := inject_Z c / inject_Z n).
    assert (HN : 0 < inject_Z n) by (apply (Z_to_Q_lt 0); lia).
    assert (HC : 0 < inject_Z c) by (apply (Z_to_Q_lt 0); lia).
    assert (Hr0 : 0 < r).
    { unfold r. apply Qlt_shift_div_l; [exact HN|]. lra. }
    assert (Hr : r <= (99 # 200) - (1 # 858993459200)).
    { unfold r. apply Qle_shift_div_r; [exact HN|].
      pose proof (Z_to_Q_le (200 * c + 1) (99 * n) ltac:(lia)) as H1.
      pose proof (Z_to_Q_le n 4294967296 ltac:(lia)) as H2.
      rewrite inject_Z_plus, !inject_Z_mult in H1.
      change (inject_Z 200) with (200 # 1) in H1.
      change (inject_Z 99) with (99 # 1) in H1.
      change (inject_Z 1) with 1 in H1.
      change (inject_Z 4294967296) with (4294967296 # 1) in H2.
      lra. }
    pose proof (fl_error r Hr0) as [_ H1].
    pose proof (fl_pos_lt r Hr0) as H0.
    assert (Hx : 0 < fl r * 100) by lra.
    pose proof (fl_error (fl r * 100) Hx) as [_ H2].
    unfold unit_roundoff in *.
    generalize dependent (fl (fl r * 100)). intros y H2.
    generalize dependent (fl r). intros x H1 H0 Hx H2.
    nra.
Qed.

Lemma percentage_above (c n : Z) :
  (0 < n < 2 ^ 32)%Z -> (99 * n <= 200 * c)%Z ->
  99 # 2 <= percentage c n.
Proof.
  intros Hn H. unfold percentage, fmul, fdiv.
  assert (HN : 0 < inject_Z n) by (apply (Z_to_Q_lt 0); lia).
  destruct (Z.eq_dec (200 * c) (99 * n)) as [E|E].
  - assert (Hr : inject_Z c / inject_Z n == 99 # 200).
    { pose proof (Z_to_Q_le (200 * c) (99 * n) ltac:(lia)) as E1.
      pose proof (Z_to_Q_le (99 * n) (200 * c) ltac:(lia)) as E2.
      rewrite !inject_Z_mult in E1, E2.
      change (inject_Z 200) with (200 # 1) in E1, E2.
      change (inject_Z 99) with (99 # 1) in E1, E2.
      assert (Hc : inject_Z c == (99 # 200) * inject_Z n) by lra.
      rewrite Hc. field. lra. }
    rewrite (fl_comp _ _ Hr). vm_compute. discriminate.
  - set (r := inject_Z c / inject_Z n).
    assert (Hr : (99 # 200) + (1 # 858993459200) <= r).
    { unfold r. apply Qle_shift_div_l; [exact HN|].
      pose proof (Z_to_Q_le (99 * n + 1) (200 * c) ltac:(lia)) as H1.
      pose proof (Z_to_Q_le n 4294967296 ltac:(lia)) as H2.
      rewrite inject_Z_plus, !inject_Z_mult in H1.
      change (inject_Z 200) with (200 # 1) in H1.
      change (inject_Z 99) with (99 # 1) in H1.
      change (inject_Z 1) with 1 in H1.
      change (inject_Z 4294967296) with (4294967296 # 1) in H2.
      lra. }
    assert (Hr0 : 0 < r) by lra.
    pose proof (fl_error r Hr0) as [H1 _].
    pose proof (fl_pos_lt r Hr0) as H0.
    assert (Hx : 0 < fl r * 100) by lra.
    pose proof (fl_error (fl r * 100) Hx) as [H2 _].
    unfold unit_roundoff in *.
    generalize dependent (fl (fl r * 100)). intros y H2.
    generalize dependent (fl r). intros x H1 H0 Hx H2.
    nra.
Qed.

Lemma rounded_lt_50 (x : Q) : (rounded x < 50)%Z <-> x < 99 # 2.
Proof.
  unfold rounded. split.
  - intros H. pose proof (Qlt_floor (x + (1 # 2))) as H1.
    assert (H2 : inject_Z (Qfloor (x + (1 # 2)) + 1) <= inject_Z 50) by (apply Z_to_Q_le; lia).
    change (inject_Z 50) with (50 # 1) in H2. lra.
  - intros H. destruct (Z_lt_le_dec (Qfloor (x + (1 # 2))) 50) as [L|L]; [exact L|].
    exfalso. pose proof (Qfloor_le (x + (1 # 2))) as H1.
    apply Z_to_Q_le in L. change (inject_Z 50) with (50 # 1) in L. lra.
Qed.

Lemma percentage_rounds_below_50 (c n : Z) :
  (0 <= c)%Z -> (0 < n < 2 ^ 32)%Z ->
  ((rounded (percentage c n) < 50)%Z <-> (200 * c < 99 * n)%Z).
Proof.
  intros Hc Hn. rewrite rounded_lt_50. split.
  - intros H. destruct (Z_lt_le_dec (200 * c) (99 * n)) as [L|L]; [exact L|].
    pose proof (percentage_above c n Hn L). lra.
  - apply percentage_below; assumption.
Qed.

End Doubles.

(** ** Decimal numerals *)

Lemma parse_digits_uint (d : Decimal.uint) (acc : Z) :
  parse_digits (NilEmpty.string_of_uint d) (Some acc) = Some (horner d acc).
Proof.
  revert acc. induction d; intros acc; cbn [NilEmpty.string_of_uint]; try reflexivity;
    cbn [parse_digits]; cbv [digit_value];
    match goal with
    | |- context [nat_of_ascii ?c] =>
        let v := eval vm_compute in (Z.of_nat (nat_of_ascii c)) in
        change (Z.of_nat (nat_of_ascii c)) with v
    end;
    cbn [Z.leb Z.compare Pos.compare Pos.compare_cont andb];
    rewrite IHd; cbn [horner]; f_equal; f_equal; lia.
Qed.

Lemma horner_of_uint_acc (d : Decimal.uint) (acc : positive) :
  horner d (Z.pos acc) = Z.pos (Pos.of_uint_acc d acc).
Proof.
  revert acc. induction d; intros acc; cbn [horner Pos.of_uint_acc]; try reflexivity;
    rewrite <- IHd; f_equal; lia.
Qed.

Lemma horner_of_uint (d : Decimal.uint) : horner d 0 = Z.of_N (Pos.of_uint d).
Proof.
  induction d; cbn [horner Pos.of_uint]; try reflexivity; try exact IHd;
    apply (horner_of_uint_acc d).
Qed.

Lemma parseInt_show (n : Z) : 0 <= n -> parseInt (show n) = Some n.
Proof.
  intros Hn. destruct n as [|p|p]; [reflexivity| |lia].
  unfold show. simpl Z.to_int. simpl NilZero.string_of_int.
  unfold NilZero.string_of_uint.
  pose proof (Unsigned.to_uint_nonnil p) as Hnil.
  pose proof (Unsigned.of_to p) as Hp.
  assert (Hh : horner (Pos.to_uint p) 0 = Z.pos p).
  { rewrite horner_of_uint, Hp. reflexivity. }
  destruct (Pos.to_uint p) as [|d|d|d|d|d|d|d|d|d|d]; [contradiction|..];
    unfold parseInt; simpl; rewrite parse_digits_uint; f_equal; exact Hh.
Qed.

(** ** The heuristic *)

Lemma len_positive {A : Type} (l : list A) : l <> [] -> (len l >? 0) = true.
Proof.
  intros H. apply len_nonempty, Z.eqb_neq in H.
  rewrite Z.gtb_ltb. apply Z.ltb_lt. unfold len in *. lia.
Qed.

Lemma len_nonneg {A : Type} (l : list A) : 0 <= len l.
Proof. unfold len. lia. Qed.

(** The head of the stable descending sort of three entries. *)
Lemma sort_three_head (a b c : string) (x y z : Z) :
  hd ("undefined"%string, 0)
     (sort_by (fun p q : string * Z => snd q - snd p <=? 0) [ (a, x); (b, y); (c, z) ])
  = if (y <=? x) && (z <=? x) then (a, x)
    else if z <=? y then (b, y) else (c, z).
Proof.
  simpl.
  destruct (z - y <=? 0) eqn:E1; simpl.
  - destruct (y - x <=? 0) eqn:E2; simpl.
    + replace (y <=? x) with true by lia. replace (z <=? x) with true by lia.
      reflexivity.
    + replace (y <=? x) with false by lia. replace (z <=? y) with true by lia.
      reflexivity.
  - destruct (z - x <=? 0) eqn:E2; simpl.
    + destruct (y - x <=? 0) eqn:E3; simpl.
      * replace (y <=? x) with true by lia. replace (z <=? x) with true by lia.
        reflexivity.
      * exfalso. lia.
    + replace (z <=? x) with false by lia. replace (z <=? y) with false by lia.
      rewrite andb_false_r. reflexivity.
Qed.

(** C4: on a non-empty task list the second pattern line of
    [basicAnalysis] names one of the three buckets high, medium, low, with
    its count; that count is the largest of the three, and every bucket
    listed before the named one has a strictly smaller count. *)
Theorem most_common_priority (tasks completedTasks incompleteTasks : list Task) :
  tasks <> [] ->
  let high := len (filter (has_priority "high") tasks) in
  let medium := len (filter (has_priority "medium") tasks) in
  let low := len (filter (has_priority "low") tasks) in
  exists name count,
    nth_error (patterns (basicAnalysis tasks completedTasks incompleteTasks)) 1
    = Some ("Most tasks are " ++ name ++ " priority (" ++ show count ++ " tasks)")%string
    /\ In (name, count) [ ("high"%string, high); ("medium"%string, medium); ("low"%string, low) ]
    /\ count = Z.max high (Z.max medium low)
    /\ (name = "medium"%string -> high < count)
    /\ (name = "low"%string -> high < count /\ medium < count).
Proof.
  intros Hne high medium low.
  unfold basicAnalysis. cbn [patterns].
  rewrite (len_positive tasks Hne).
  rewrite sort_three_head. fold high medium low.
  destruct ((medium <=? high) && (low <=? high)) eqn:E1.
  - exists "high"%string, high. split; [reflexivity|].
    split; [left; reflexivity|]. split; [lia|]. split; discriminate.
  - destruct (low <=? medium) eqn:E2.
    + exists "medium"%string, medium. split; [reflexivity|].
      split; [right; left; reflexivity|]. split; [lia|].
      split; [intros _; lia|discriminate].
    + exists "low"%string, low. split; [reflexivity|].
      split; [right; right; left; reflexivity|]. split; [lia|].
      split; [discriminate|intros _; lia].
Qed.

(** Two high and two low tasks: the tie goes to high, listed first. *)
Lemma most_common_priority_witness :
  let tasks := [ mkTask 1 "a" None "todo" (Some "low"%string) 0 None 0;
                 mkTask 2 "b" None "todo" (Some "high"%string) 0 None 0;
                 mkTask 3 "c" None "done" (Some "low"%string) 0 None 0;
                 mkTask 4 "d" None "todo" (Some "high"%string) 0 None 0 ] in
  nth_error (patterns (basicAnalysis tasks (completed_of tasks) (incomplete_of tasks))) 1
  = Some "Most tasks are high priority (2 tasks)"%string
  /\ exists name count,
      nth_error (patterns (basicAnalysis tasks (completed_of tasks) (incomplete_of tasks))) 1
      = Some ("Most tasks are " ++ name ++ " priority (" ++ show count ++ " tasks)")%string
      /\ count = 2.
Proof.
  intros tasks. split; [reflexivity|].
  destruct (most_common_priority tasks (completed_of tasks) (incomplete_of tasks))
    as [name [count [H1 [_ [H2 _]]]]].
  - discriminate.
  - exists name, count. split; [exact H1|exact H2].
Defined.

Lemma percentage_nonneg (c n : Z) : 0 <= c -> 0 < n -> (0 <= percentage c n)%Q.
Proof.
  intros Hc Hn. unfold percentage, fmul, fdiv.
  destruct (Z.eq_dec c 0) as [->|Hc0].
  - rewrite (fl_zero (inject_Z 0 / inject_Z n)) by reflexivity.
    rewrite fl_zero by reflexivity. apply Qle_refl.
  - assert (0 < inject_Z c / inject_Z n)%Q as Hr.
    { apply Qlt_shift_div_l.
      - apply (Z_to_Q_lt 0). lia.
      - rewrite Qmult_0_l. apply (Z_to_Q_lt 0). lia. }
    apply Qlt_le_weak, fl_pos_lt.
    apply Qmult_lt_0_compat; [apply fl_pos_lt, Hr|reflexivity].
Qed.

Lemma toFixed_0 (x : Q) : toFixed 0 x = show (rounded x).
Proof.
  unfold toFixed, rounded. cbn [Z.of_nat Z.pow]. f_equal.
  apply Qfloor_comp. change (inject_Z (10 ^ 0)) with 1%Q. ring.
Qed.

Lemma rounded_nonneg (x : Q) : (0 <= x)%Q -> 0 <= rounded x.
Proof.
  intros H. unfold rounded. change 0 with (Qfloor 0).
  apply Qfloor_resp_le. lra.
Qed.

(** The recommendations, with [completionRate] read back as the whole
    number it prints. *)
Lemma recommendations_unfold (tasks completedTasks incompleteTasks : list Task) :
  tasks <> [] ->
  recommendations (basicAnalysis tasks completedTasks incompleteTasks)
  = (if (rounded (percentage (len completedTasks) (len tasks)) <? 50) && (len tasks >? 3)
     then [ finish_line ] else [])
    ++ (if len (filter (has_priority "high") incompleteTasks) >? 0
        then [ prioritize_line ] else [])
    ++ (if len incompleteTasks >? 10 then [ archive_line ] else [ encouragement_line ]).
Proof.
  intros Hne. unfold basicAnalysis. cbn [recommendations].
  rewrite (len_positive tasks Hne).
  fold (percentage (len completedTasks) (len tasks)).
  rewrite toFixed_0, parseInt_show; [reflexivity|].
  apply rounded_nonneg, percentage_nonneg; [apply len_nonneg|].
  apply len_positive in Hne. rewrite Z.gtb_ltb in Hne. apply Z.ltb_lt, Hne.
Qed.

(** C5, as the code has it: on a non-empty task list (a JavaScript array,
    so shorter than 2^32) the recommendations of [basicAnalysis] hold
    - the finish-first line exactly when the completion rate rounded to a
      whole percent, the number the completion-rate line shows, is below 50
      and there are more than 3 tasks; the rounded rate is below 50 exactly
      when the rate is below 49.5 percent;
    - the prioritize line exactly when a high-priority task is pending;
    - the archive line exactly when more than 10 tasks are incomplete, and
      the encouragement line exactly when not;
    so between 1 and 3 lines. *)
Theorem recommendations_rules (tasks completedTasks incompleteTasks : list Task) :
  tasks <> [] ->
  len tasks < 2 ^ 32 ->
  let lines := recommendations (basicAnalysis tasks completedTasks incompleteTasks) in
  let shown_rate := rounded (percentage (len completedTasks) (len tasks)) in
  (In finish_line lines <-> shown_rate < 50 /\ 3 < len tasks)
  /\ (shown_rate < 50 <-> 200 * len completedTasks < 99 * len tasks)
  /\ (In prioritize_line lines <-> 0 < len (filter (has_priority "high") incompleteTasks))
  /\ (In archive_line lines <-> 10 < len incompleteTasks)
  /\ (In encouragement_line lines <-> len incompleteTasks <= 10)
  /\ (1 <= List.length lines <= 3)%nat.
Proof.
  intros Hne Hlen lines shown_rate.
  assert (Hn : 0 < len tasks).
  { apply len_positive in Hne. rewrite Z.gtb_ltb in Hne. apply Z.ltb_lt, Hne. }
  unfold lines. rewrite (recommendations_unfold _ _ _ Hne). fold shown_rate.
  rewrite !Z.gtb_ltb.
  split; [|split; [apply percentage_rounds_below_50; [apply len_nonneg|lia]|]].
  - destruct (shown_rate <? 50) eqn:E1; destruct (3 <? len tasks) eqn:E2;
      destruct (0 <? len (filter (has_priority "high") incompleteTasks));
      destruct (10 <? len incompleteTasks);
      cbn [andb app In]; unfold finish_line, prioritize_line, archive_line, encouragement_line;
      (split; [intros H; repeat (destruct H as [H|H]; try discriminate H); try lia
              |intros [H1 H2]; try lia; auto]).
  - destruct ((shown_rate <? 50) && (3 <? len tasks));
      destruct (0 <? len (filter (has_priority "high") incompleteTasks)) eqn:E3;
      destruct (10 <? len incompleteTasks) eqn:E4;
      cbn [app In List.length];
      unfold finish_line, prioritize_line, archive_line, encouragement_line;
      repeat split; try lia;
      try (intros H; repeat (destruct H as [H|H]; try discriminate H); try lia; tauto);
      try (intros H; try lia; auto 6).
Qed.

(** The ten tasks of the specification's example: two done, eight open,
    three of the open ones high-priority. *)
Lemma recommendations_rules_witness :
  let task := fun (i : Z) (st prio : string) => mkTask i "task" None st (Some prio) 0 None 0 in
  let tasks :=
    [ task 1 "done" "high"; task 2 "done" "low"; task 3 "todo" "high"; task 4 "todo" "high";
      task 5 "in-progress" "high"; task 6 "todo" "low"; task 7 "todo" "low";
      task 8 "todo" "medium"; task 9 "todo" "medium"; task 10 "todo" "medium" ]%string in
  rounded (percentage (len (completed_of tasks)) (len tasks)) = 20
  /\ In finish_line
        (recommendations (basicAnalysis tasks (completed_of tasks) (incomplete_of tasks)))
  /\ In prioritize_line
        (recommendations (basicAnalysis tasks (completed_of tasks) (incomplete_of tasks))).
Proof.
  intros task tasks.
  destruct (recommendations_rules tasks (completed_of tasks) (incomplete_of tasks))
    as [H1 [_ [H2 _]]].
  - discriminate.
  - reflexivity.
  - split; [reflexivity|]. split.
    + apply H1. split; reflexivity.
    + apply H2. reflexivity.
Defined.

(** C5, as the claim states it, fails on 101 tasks of which 50 are done:
    the completion rate is 49.5 percent and a bit, below 50, and there are
    more than 3 tasks, yet the finish-first line is not recommended, because
    the rate is rounded to 50 before it is compared. *)
Lemma recommendations_rate_counterexample :
  let tasks :=
    map (fun i => mkTask (Z.of_nat i) "task" None
                         (if (i <=? 50)%nat then "done" else "todo")%string
                         (Some "medium"%string) 0 None 0)
        (List.seq 1 101) in
  let lines :=
    recommendations (basicAnalysis tasks (completed_of tasks) (incomplete_of tasks)) in
  len tasks = 101
  /\ len (completed_of tasks) = 50
  /\ (exact_rate (len (completed_of tasks)) (len tasks) < 50)%Q
  /\ 3 < len tasks
  /\ lines = [ archive_line ]
  /\ ~ (In finish_line lines <->
        (exact_rate (len (completed_of tasks)) (len tasks) < 50)%Q /\ 3 < len tasks).
Proof.
  intros tasks lines.
  assert (E : lines = [ archive_line ]) by (vm_compute; reflexivity).
  split; [reflexivity|]. split; [reflexivity|].
  split; [vm_compute; reflexivity|]. split; [reflexivity|]. split; [exact E|].
  rewrite E. intros [_ H].
  destruct H as [H|[]].
  - split; [vm_compute; reflexivity|reflexivity].
  - discriminate H.
Qed.

(** * Further properties *)

(** ** The primary key *)

Lemma filter_keeps_distinct_keys {K V : Type} (key : V -> K) (keep : V -> bool)
    (rows : list V) (Hkeys : NoDup (map key rows)) :
  NoDup (map key (filter keep rows)).
Proof.
  induction rows as [|x rows IH]; simpl; [constructor|].
  inversion Hkeys as [|y ys Hy Hys]; subst.
  destruct (keep x); simpl; [|apply IH, Hys].
  constructor; [|apply IH, Hys].
  intros Hin. apply Hy. apply in_map_iff in Hin. destruct Hin as [z [Ez Hz]].
  apply in_map_iff. exists z. split; [exact Ez|]. apply filter_In in Hz. apply Hz.
Qed.

Lemma NoDup_map_eq {A B : Type} (f : A -> B) (l : list A) (x y : A) :
  NoDup (map f l) -> In x l -> In y l -> f x = f y -> x = y.
Proof.
  induction l as [|z l IH]; simpl; intros H Hx Hy E; [contradiction|].
  inversion H as [|k ks Hk Hks]; subst.
  destruct Hx as [->|Hx], Hy as [->|Hy].
  - reflexivity.
  - exfalso. apply Hk. rewrite E. apply in_map, Hy.
  - exfalso. apply Hk. rewrite <- E. apply in_map, Hx.
  - apply IH; assumption.
Qed.

Lemma update_ids (ttl : string) (desc : option string) (st : string)
    (prio : option string) (done_at : option Z) (i : Z) (db : Db.t) :
  map id (tasks (taskQueries.update ttl desc st prio done_at i db)) = map id (tasks db).
Proof.
  unfold taskQueries.update. simpl. rewrite map_map. apply map_ext.
  intros x. destruct (id x =? i); reflexivity.
Qed.

Lemma reorder_ids (l : list (Z * Z)) (db : Db.t) :
  map id (tasks (apply_pairs l db)) = map id (tasks db).
Proof.
  destruct (reorder_rows l db) as [-> _]. rewrite map_map. apply map_ext.
  intros x. reflexivity.
Qed.

Lemma ids_ok_forall (db : Db.t) (f : Task -> Task) (rows : list Task) :
  (forall x, id (f x) = id x) ->
  Forall (fun x => 1 <= id x <= Db.seq db) rows ->
  Forall (fun x => 1 <= id x <= Db.seq db) (map f rows).
Proof.
  intros Hf H. rewrite Forall_forall in H. apply Forall_forall. intros y Hy.
  apply in_map_iff in Hy. destruct Hy as [x [<- Hx]]. rewrite Hf. apply H, Hx.
Qed.

(** What a request can do to the keys: the counter never decreases, and a
    row of the new table either carries the id of a row of the old one or
    the id just above the old counter. *)
Lemma handle_keys (now : Z) (r : Request) (db : Db.t) :
  Db.seq db <= Db.seq (fst (handle now r db))
  /\ (forall y, In y (tasks (fst (handle now r db))) ->
        In (id y) (map id (tasks db)) \/ id y = Db.seq db + 1).
Proof.
  destruct r as [|i|body|i body|body|i|d|]; simpl.
  - split; [lia|]. intros y Hy. left. apply in_map, Hy.
  - unfold get_task. destruct (taskQueries.getById i db); simpl;
      (split; [lia|]; intros y Hy; left; apply in_map, Hy).
  - unfold post_task. destruct (b_title body) as [ttl|];
      [destruct (truthy_string ttl)|]; simpl;
      try (split; [lia|]; intros y Hy; left; apply in_map, Hy).
    split; [lia|]. intros y Hy. apply in_app_or in Hy.
    destruct Hy as [Hy|[<-|[]]]; [left; apply in_map, Hy|right; reflexivity].
  - unfold put_task. destruct (taskQueries.getById i db); simpl;
      [|split; [lia|]; intros y Hy; left; apply in_map, Hy].
    split; [lia|]. intros y Hy. left.
    apply in_map_iff in Hy. destruct Hy as [x [<- Hx]].
    destruct (id x =? i); simpl; apply (in_map id), Hx.
  - destruct body as [|l]; simpl; [split; [lia|]; intros y Hy; left; apply in_map, Hy|].
    fold (apply_pairs l db). destruct (reorder_rows l db) as [_ ->].
    split; [lia|]. intros y Hy. left. rewrite <- (reorder_ids l db). apply in_map, Hy.
  - unfold delete_task. destruct (taskQueries.getById i db); simpl;
      (split; [lia|]; intros y Hy; left; apply in_map).
    + apply filter_In in Hy. apply Hy.
    + exact Hy.
  - split; [lia|]. intros y Hy. left. apply in_map, Hy.
  - split; [lia|]. intros y Hy. left. apply in_map, Hy.
Qed.

Lemma handle_ids_ok (now : Z) (r : Request) (db : Db.t) :
  ids_ok db -> ids_ok (fst (handle now r db)).
Proof.
  intros [Hnd [Hall Hseq]]. destruct r as [|i|body|i body|body|i|d|]; simpl;
    try (split; [|split]; assumption).
  - unfold get_task. destruct (taskQueries.getById i db); split; [|split| |split]; assumption.
  - unfold post_task. destruct (b_title body) as [ttl|];
      [destruct (truthy_string ttl)|]; simpl; try (split; [|split]; assumption).
    unfold ids_ok. simpl. rewrite map_app. simpl. split; [|split; [|lia]].
    + apply NoDup_app; [exact Hnd|constructor; [intros []|constructor]|].
      intros k Hk [<-|[]]. apply in_map_iff in Hk. destruct Hk as [x [E Hx]].
      rewrite Forall_forall in Hall. specialize (Hall x Hx). lia.
    + apply Forall_app. split.
      * rewrite Forall_forall in Hall. apply Forall_forall. intros x Hx.
        specialize (Hall x Hx). lia.
      * constructor; [simpl; lia|constructor].
  - unfold put_task. destruct (taskQueries.getById i db); simpl;
      [|split; [|split]; assumption].
    unfold ids_ok. rewrite update_ids. split; [exact Hnd|split; [|exact Hseq]].
    simpl. apply ids_ok_forall; [|exact Hall].
    intros x. destruct (id x =? i); reflexivity.
  - destruct body as [|l]; simpl; [split; [|split]; assumption|].
    fold (apply_pairs l db). unfold ids_ok. rewrite reorder_ids.
    destruct (reorder_rows l db) as [E ->]. rewrite E.
    split; [exact Hnd|split; [|exact Hseq]].
    apply ids_ok_forall; [|exact Hall]. intros x. reflexivity.
  - unfold delete_task. destruct (taskQueries.getById i db); simpl;
      [|split; [|split]; assumption].
    unfold ids_ok. simpl. split; [apply filter_keeps_distinct_keys, Hnd|split; [|exact Hseq]].
    rewrite Forall_forall in Hall. apply Forall_forall. intros x Hx.
    apply filter_In in Hx. apply Hall, Hx.
Qed.

Lemma reachable_ids_ok (s : Server) : reachable s -> ids_ok (store s).
Proof.
  induction 1 as [t0|s now r Hs IH Hnow]; simpl.
  - split; [constructor|split; [constructor|simpl; lia]].
  - apply handle_ids_ok, IH.
Qed.

(** X1: in every reachable store the task ids are pairwise distinct and lie
    between 1 and the AUTOINCREMENT counter; serving a request never lowers
    the counter, and a row it leaves carries the id of a row that was there
    or the id just above the old counter.  So an id is never handed out
    twice, not even after its row was deleted. *)
Theorem ids_unique_never_reused (s : Server) (now : Z) (r : Request) :
  reachable s ->
  NoDup (map id (tasks (store s)))
  /\ Forall (fun x => 1 <= id x <= Db.seq (store s)) (tasks (store s))
  /\ Db.seq (store s) <= Db.seq (fst (handle now r (store s)))
  /\ Forall (fun y => In (id y) (map id (tasks (store s))) \/ id y = Db.seq (store s) + 1)
            (tasks (fst (handle now r (store s)))).
Proof.
  intros Hs. destruct (reachable_ids_ok s Hs) as [H1 [H2 _]].
  destruct (handle_keys now r (store s)) as [H3 H4].
  split; [exact H1|]. split; [exact H2|]. split; [exact H3|].
  apply Forall_forall. exact H4.
Qed.

(** Two tasks created, the first deleted, a third created: it gets id 3. *)
Lemma ids_unique_never_reused_witness :
  let post := fun ttl => POST_task (mkBody (Some ttl) None None None None) in
  let s :=
    mkServer
      (fst (handle 3000 (DELETE_task 1)
              (fst (handle 2000 (post "Call Ann"%string)
                      (fst (handle 1000 (post "Buy milk"%string) Db.empty))))))
      3000 in
  map id (tasks (fst (handle 4000 (post "Pay rent"%string) (store s)))) = [2; 3]
  /\ NoDup (map id (tasks (store s)))
  /\ Db.seq (store s) <= Db.seq (fst (handle 4000 (post "Pay rent"%string) (store s))).
Proof.
  intros post s. split; [reflexivity|].
  destruct (ids_unique_never_reused s 4000 (post "Pay rent"%string)) as [H1 [_ [H3 _]]].
  - apply (reach_request
             (mkServer (fst (handle 2000 (post "Call Ann"%string)
                               (fst (handle 1000 (post "Buy milk"%string) Db.empty)))) 2000)
             3000 (DELETE_task 1)); [|simpl; lia].
    apply (reach_request
             (mkServer (fst (handle 1000 (post "Buy milk"%string) Db.empty)) 1000)
             2000 (post "Call Ann"%string)); [|simpl; lia].
    apply (reach_request (mkServer Db.empty 0) 1000 (post "Buy milk"%string));
      [apply reach_start|simpl; lia].
  - split; [exact H1|exact H3].
Defined.

(** ** Create, read, update, delete *)





Lemma getById_delete_other (i j : Z) (db : Db.t) :
  j <> i -> taskQueries.getById j (taskQueries.delete i db) = taskQueries.getById j db.
Proof.
  intros H. unfold taskQueries.getById, taskQueries.delete. simpl.
  induction (tasks db) as [|x rows IH]; simpl; [reflexivity|].
  destruct (Z.eqb_spec (id x) i) as [E|E]; simpl.
  - destruct (Z.eqb_spec (id x) j) as [E'|_]; [congruence|exact IH].
  - destruct (id x =? j); [reflexivity|exact IH].
Qed.

Lemma getById_delete_same (i : Z) (db : Db.t) :
  taskQueries.getById i (taskQueries.delete i db) = None.
Proof.
  apply getById_None. intros x Hx. unfold taskQueries.delete in Hx. simpl in Hx.
  apply filter_In in Hx. destruct Hx as [_ Hx]. lia.
Qed.

Lemma filter_all {A : Type} (p : A -> bool) (l : list A) :
  (forall z, In z l -> p z = true) -> filter p l = l.
Proof.
  induction l as [|y l IH]; simpl; intros H; [reflexivity|].
  rewrite (H y (or_introl eq_refl)). f_equal. apply IH.
  intros z Hz. apply H. right. exact Hz.
Qed.

Lemma filter_unique_length {A : Type} (key : A -> Z) (i : Z) (l : list A) (x : A) :
  NoDup (map key l) -> In x l -> key x = i ->
  S (List.length (filter (fun y => negb (key y =? i)) l)) = List.length l.
Proof.
  induction l as [|y l IH]; simpl; intros Hnd Hin E; [contradiction|].
  inversion Hnd as [|k ks Hk Hks]; subst.
  destruct Hin as [->|Hin].
  - rewrite Z.eqb_refl. simpl. f_equal. f_equal. apply filter_all.
    intros z Hz. destruct (Z.eqb_spec (key z) (key x)) as [E|E]; [|reflexivity].
    exfalso. apply Hk. rewrite <- E. apply in_map, Hz.
  - destruct (Z.eqb_spec (key y) (key x)) as [E|E]; simpl.
    + exfalso. apply Hk. rewrite E. apply in_map, Hin.
    + f_equal. apply IH; auto.
Qed.

(** X3: [DELETE /api/tasks/:id] on a reachable store.  For an id without a
    row it answers 404 and leaves the store as it is.  Otherwise it answers
    [{ success: true }]; the id then has no row, exactly one row is gone,
    every other id reads as before and the AUTOINCREMENT counter stays. *)
Theorem delete_removes_one (s : Server) (i : Z) :
  reachable s ->
  (taskQueries.getById i (store s) = None ->
   delete_task i (store s) = (store s, mkResponse 404 (PError "Task not found")))
  /\ (forall x, taskQueries.getById i (store s) = Some x ->
        snd (delete_task i (store s)) = mkResponse 200 PSuccess
        /\ taskQueries.getById i (fst (delete_task i (store s))) = None
        /\ S (List.length (tasks (fst (delete_task i (store s)))))
           = List.length (tasks (store s))
        /\ (forall j, j <> i ->
              taskQueries.getById j (fst (delete_task i (store s)))
              = taskQueries.getById j (store s))
        /\ Db.seq (fst (delete_task i (store s))) = Db.seq (store s)).
Proof.
  intros Hs. destruct (reachable_ids_ok s Hs) as [Hnd _]. split.
  - intros H. unfold delete_task. rewrite H. reflexivity.
  - intros x Hx. unfold delete_task. rewrite Hx. simpl.
    split; [reflexivity|]. split; [apply getById_delete_same|].
    split; [|split; [intros j Hj; apply getById_delete_other, Hj|reflexivity]].
    apply getById_Some in Hx. destruct Hx as [Hin E].
    apply (filter_unique_length id i _ x Hnd Hin E).
Qed.

(** Two tasks, the first deleted. *)
Lemma delete_removes_one_witness :
  let post := fun ttl => POST_task (mkBody (Some ttl) None None None None) in
  let s :=
    mkServer (fst (handle 2000 (post "Call Ann"%string)
                     (fst (handle 1000 (post "Buy milk"%string) Db.empty)))) 2000 in
  snd (delete_task 1 (store s)) = mkResponse 200 PSuccess
  /\ taskQueries.getById 1 (fst (delete_task 1 (store s))) = None
  /\ delete_task 7 (store s) = (store s, mkResponse 404 (PError "Task not found")).
Proof.
  intros post s.
  destruct (delete_removes_one s 1) as [_ H1].
  - apply (reach_request
             (mkServer (fst (handle 1000 (post "Buy milk"%string) Db.empty)) 1000)
             2000 (post "Call Ann"%string)); [|simpl; lia].
    apply (reach_request (mkServer Db.empty 0) 1000 (post "Buy milk"%string));
      [apply reach_start|simpl; lia].
  - destruct (H1 (mkTask 1 "Buy milk" None "todo" (Some "medium"%string) 1000 None 0) eq_refl)
      as [H2 [H3 _]].
    split; [exact H2|]. split; [exact H3|reflexivity].
Defined.


Lemma or_else_given (s b : string) : s <> ""%string -> or_else (Some s) b = s.
Proof.
  intros H. simpl. unfold truthy_string. apply String.eqb_neq in H. rewrite H. reflexivity.
Qed.




(** X5: no request clears a completion time.  If a row of a reachable store
    has one, then after any request the row of that id, if it is still
    there, has one too: the one it had, or the time of the request when the
    request is a [PUT] that moves the task to 'done' again. *)
Theorem completed_at_never_cleared (s : Server) (now : Z) (r : Request) (x y : Task) (t : Z) :
  reachable s ->
  In x (tasks (store s)) ->
  completed_at x = Some t ->
  In y (tasks (fst (handle now r (store s)))) ->
  id y = id x ->
  completed_at y = Some t \/ completed_at y = Some now.
Proof.
  intros Hs Hx Ht Hy E.
  destruct (reachable_ids_ok s Hs) as [Hnd [Hall _]].
  assert (Huniq : forall z, In z (tasks (store s)) -> id z = id x -> z = x).
  { intros z Hz Ez. apply (NoDup_map_eq id (tasks (store s))); assumption. }
  destruct r as [|i|body|i body|body|i|d|]; simpl in Hy.
  - left. rewrite (Huniq y Hy E). exact Ht.
  - unfold get_task in Hy. destruct (taskQueries.getById i (store s)); simpl in Hy;
      left; rewrite (Huniq y Hy E); exact Ht.
  - unfold post_task in Hy. destruct (b_title body) as [ttl|];
      [destruct (truthy_string ttl)|]; simpl in Hy;
      try (left; rewrite (Huniq y Hy E); exact Ht).
    apply in_app_or in Hy. destruct Hy as [Hy|[<-|[]]].
    + left. rewrite (Huniq y Hy E). exact Ht.
    + exfalso. simpl in E. rewrite Forall_forall in Hall. specialize (Hall x Hx). lia.
  - unfold put_task in Hy.
    destruct (taskQueries.getById i (store s)) as [e|] eqn:He; simpl in Hy.
    + apply in_map_iff in Hy. destruct Hy as [z [<- Hz]].
      destruct (Z.eqb_spec (id z) i) as [Ei|Ei].
      * simpl in E. apply getById_Some in He. destruct He as [He1 He2].
        assert (e = x) as -> by (apply Huniq; [exact He1|congruence]).
        simpl. rewrite Ht.
        destruct (match b_status body with Some s0 => _ | None => _ end && _);
          [right|left]; reflexivity.
      * left. rewrite (Huniq z Hz E). exact Ht.
    + left. rewrite (Huniq y Hy E). exact Ht.
  - destruct body as [|l]; simpl in Hy; [left; rewrite (Huniq y Hy E); exact Ht|].
    fold (apply_pairs l (store s)) in Hy. destruct (reorder_rows l (store s)) as [El _].
    rewrite El in Hy. apply in_map_iff in Hy. destruct Hy as [z [<- Hz]].
    simpl in E. left. simpl. rewrite (Huniq z Hz E). exact Ht.
  - unfold delete_task in Hy. destruct (taskQueries.getById i (store s)); simpl in Hy.
    + apply filter_In in Hy. destruct Hy as [Hy _]. left. rewrite (Huniq y Hy E). exact Ht.
    + left. rewrite (Huniq y Hy E). exact Ht.
  - left. rewrite (Huniq y Hy E). exact Ht.
  - left. rewrite (Huniq y Hy E). exact Ht.
Qed.

(** A task completed at time 5000 and moved back to 'todo' at time 9000. *)
Lemma completed_at_never_cleared_witness :
  let s :=
    mkServer
      (fst (handle 5000 (PUT_task 1 (mkBody None None (Some "done"%string) None None))
              (fst (handle 1500 (POST_task (mkBody (Some "Buy milk"%string) None None None None))
                      Db.empty))))
      5000 in
  let y := mkTask 1 "Buy milk" None "todo" (Some "medium"%string) 1000 (Some 5000) 0 in
  tasks (fst (handle 9000 (PUT_task 1 (mkBody None None (Some "todo"%string) None None))
                (store s))) = [ y ]
  /\ (completed_at y = Some 5000 \/ completed_at y = Some 9000).
Proof.
  intros s y. split; [reflexivity|].
  apply (completed_at_never_cleared s 9000
           (PUT_task 1 (mkBody None None (Some "todo"%string) None None))
           (mkTask 1 "Buy milk" None "done" (Some "medium"%string) 1000 (Some 5000) 0) y 5000).
  - apply (reach_request
             (mkServer (fst (handle 1500 (POST_task (mkBody (Some "Buy milk"%string) None None None None))
                               Db.empty)) 1500)
             5000 (PUT_task 1 (mkBody None None (Some "done"%string) None None)));
      [|simpl; lia].
    apply (reach_request (mkServer Db.empty 0) 1500); [apply reach_start|simpl; lia].
  - left. reflexivity.
  - reflexivity.
  - left. reflexivity.
  - reflexivity.
Defined.

(** ** Listings *)

Lemma StronglySorted_app {A : Type} (R : A -> A -> Prop) (l1 l2 : list A) :
  StronglySorted R l1 -> StronglySorted R l2 ->
  (forall a b, In a l1 -> In b l2 -> R a b) ->
  StronglySorted R (l1 ++ l2).
Proof.
  induction 1 as [|x l Hl IH Hx]; intros H2 H; simpl; [exact H2|].
  constructor.
  - apply IH; [exact H2|]. intros a b Ha Hb. apply H; [right; exact Ha|exact Hb].
  - apply Forall_app. split; [exact Hx|].
    apply Forall_forall. intros b Hb. apply H; [left; reflexivity|exact Hb].
Qed.

Lemma StronglySorted_rev {A : Type} (R : A -> A -> Prop) (l : list A) :
  StronglySorted R l -> StronglySorted (fun a b => R b a) (rev l).
Proof.
  induction 1 as [|x l Hl IH Hx]; simpl; [constructor|].
  apply StronglySorted_app; [exact IH|constructor; constructor|].
  intros a b Ha [<-|[]]. apply in_rev in Ha. rewrite Forall_forall in Hx. apply Hx, Ha.
Qed.

Lemma created_desc_total (A : Type) (key : A -> Z) (x y : A) :
  (key y <=? key x) = false -> (key x <=? key y) = true.
Proof. lia. Qed.

Lemma created_desc_trans (A : Type) (key : A -> Z) (x y z : A) :
  (key y <=? key x) = true -> (key z <=? key y) = true -> (key z <=? key x) = true.
Proof. lia. Qed.

(** Sorting by a key, largest first. *)
Lemma sort_desc_sorted {A : Type} (key : A -> Z) (l : list A) :
  StronglySorted (fun a b => key b <= key a) (sort_by (fun a b => key b <=? key a) l).
Proof.
  apply (StronglySorted_weaken (ordered_by (fun a b => key b <=? key a))).
  - unfold ordered_by. intros a b. lia.
  - apply sort_by_sorted.
    + intros x y. apply created_desc_total.
    + intros x y z. apply created_desc_trans.
Qed.

Lemma index_desc_perm {A : Type} (key : A -> Z) (l : list A) :
  Permutation (index_desc key l) l.
Proof.
  unfold index_desc. eapply Permutation_trans; [apply Permutation_sym, Permutation_rev|].
  apply sort_by_perm.
Qed.

Lemma index_desc_In {A : Type} (key : A -> Z) (x : A) (l : list A) :
  In x (index_desc key l) <-> In x l.
Proof.
  split; apply Permutation_in; [|apply Permutation_sym]; apply index_desc_perm.
Qed.

Lemma index_desc_sorted {A : Type} (key : A -> Z) (l : list A) :
  StronglySorted (fun a b => key b <= key a) (index_desc key l).
Proof.
  unfold index_desc.
  apply (StronglySorted_rev (fun a b => key a <= key b)).
  apply (StronglySorted_weaken (ordered_by (fun a b => key a <=? key b))).
  - unfold ordered_by. intros a b. lia.
  - apply sort_by_sorted.
    + intros x y. lia.
    + intros x y z. lia.
Qed.

(** X6: [GET /api/tasks] leaves the store alone and answers 200 with every
    row exactly once, ordered by position, smallest first, and among equal
    positions by creation time, newest first. *)
Theorem get_tasks_lists_every_row_in_order (db : Db.t) :
  get_tasks db = (db, mkResponse 200 (PTasks (taskQueries.getAll db)))
  /\ Permutation (taskQueries.getAll db) (tasks db)
  /\ StronglySorted
       (fun a b => position a < position b
                   \/ (position a = position b /\ created_at b <= created_at a))
       (taskQueries.getAll db).
Proof.
  split; [reflexivity|]. split; [apply sort_by_perm|].
  apply (StronglySorted_weaken (ordered_by taskQueries.getAll_le)).
  - unfold ordered_by, taskQueries.getAll_le. intros a b. lia.
  - apply getAll_sorted.
Qed.

(** X7: the two other listings of the task table.  [getAllTasks], which
    feeds the analysis, returns every row exactly once, newest first.
    [getByDateRange] returns, newest first, exactly the rows created on a
    date from the first bound to the second, each once; it returns nothing
    when the second bound lies before the first. *)
Theorem listings_by_creation_time (from to : Z) (db : Db.t) :
  Permutation (analyticsQueries.getAllTasks db) (tasks db)
  /\ StronglySorted (fun a b => created_at b <= created_at a) (analyticsQueries.getAllTasks db)
  /\ Permutation (taskQueries.getByDateRange from to db)
       (filter (fun x => (from <=? date_of (created_at x)) && (date_of (created_at x) <=? to))
               (tasks db))
  /\ (forall x, In x (taskQueries.getByDateRange from to db) <->
                In x (tasks db) /\ from <= date_of (created_at x) <= to)
  /\ StronglySorted (fun a b => created_at b <= created_at a)
       (taskQueries.getByDateRange from to db)
  /\ (to < from -> taskQueries.getByDateRange from to db = []).
Proof.
  split; [apply index_desc_perm|]. split; [apply (index_desc_sorted created_at)|].
  split; [apply index_desc_perm|]. split; [|split; [apply (index_desc_sorted created_at)|]].
  - intros x. unfold taskQueries.getByDateRange. rewrite index_desc_In, filter_In.
    split; intros [H1 H2]; (split; [exact H1|lia]).
  - intros H. unfold taskQueries.getByDateRange.
    replace (filter _ (tasks db)) with (@nil Task); [reflexivity|].
    symmetry. apply filter_nil_iff. intros x _. lia.
Qed.

Lemma final_position_again (l : list (Z * Z)) (x : Task) :
  final_position l (with_position (final_position l x) x) = final_position l x.
Proof.
  unfold final_position. simpl.
  generalize (position x) as p.
  induction l as [|[i pos] l IH] using rev_ind; intros p; [reflexivity|].
  rewrite !fold_left_app. simpl.
  destruct (id x =? i); [reflexivity|apply IH].
Qed.

(** X8: sending the same reorder batch twice is the same as sending it
    once, and whatever the batch, the ids, the number of rows and every
    column but the position stay as they were. *)
Theorem reorder_twice_is_once (body : ReorderBody) (db : Db.t) :
  patch_reorder body (fst (patch_reorder body db)) = patch_reorder body db
  /\ map (with_position 0) (tasks (fst (patch_reorder body db)))
     = map (with_position 0) (tasks db)
  /\ Db.seq (fst (patch_reorder body db)) = Db.seq db.
Proof.
  destruct body as [|l]; [repeat split|].
  rewrite patch_reorder_store.
  destruct (reorder_rows l db) as [E1 E2].
  destruct (reorder_rows l (apply_pairs l db)) as [E3 E4].
  split; [|split; [|exact E2]].
  - unfold patch_reorder. f_equal. fold (apply_pairs l db).
    fold (apply_pairs l (apply_pairs l db)).
    destruct (apply_pairs l (apply_pairs l db)) as [rows2 s2].
    destruct (apply_pairs l db) as [rows1 s1]. simpl in *. subst.
    f_equal. rewrite map_map. apply map_ext. intros x.
    rewrite final_position_again. reflexivity.
  - rewrite E1, map_map. apply map_ext. intros x. reflexivity.
Qed.

(** ** The client and the server *)

Section SortedUnique.
Context {A : Type} (key : A -> Z).

(** Two lists sorted by a key without repetition that hold the same
    elements are the same list. *)
Lemma sorted_perm_unique (l1 l2 : list A) :
  Permutation l1 l2 ->
  StronglySorted (fun a b => key a <= key b) l1 ->
  StronglySorted (fun a b => key a <= key b) l2 ->
  NoDup (map key l1) ->
  l1 = l2.
Proof.
  revert l2. induction l1 as [|a l1 IH]; intros l2 Hp H1 H2 Hnd.
  - apply Permutation_nil in Hp. subst. reflexivity.
  - destruct l2 as [|b l2]; [apply Permutation_sym, Permutation_nil in Hp; discriminate|].
    inversion H1 as [|? ? S1 F1]; subst. inversion H2 as [|? ? S2 F2]; subst.
    inversion Hnd as [|? ? Hk Hks]; subst.
    rewrite Forall_forall in F1, F2.
    assert (a = b) as ->.
    { assert (In a (b :: l2)) as Ha by (apply (Permutation_in _ Hp); left; reflexivity).
      assert (In b (a :: l1)) as Hb
          by (apply (Permutation_in _ (Permutation_sym Hp)); left; reflexivity).
      destruct Ha as [->|Ha]; [reflexivity|]. destruct Hb as [->|Hb]; [reflexivity|].
      exfalso. apply Hk. specialize (F1 b Hb). specialize (F2 a Ha).
      replace (key a) with (key b) by lia. apply in_map, Hb. }
    f_equal. apply IH; auto. apply (Permutation_cons_inv Hp).
Qed.

End SortedUnique.

Lemma StronglySorted_map {A B : Type} (f : A -> B) (R : B -> B -> Prop) (l : list A) :
  StronglySorted (fun a b => R (f a) (f b)) l -> StronglySorted R (map f l).
Proof.
  induction 1 as [|x l Hl IH Hx]; simpl; constructor; [exact IH|].
  rewrite Forall_forall in Hx |- *. intros y Hy.
  apply in_map_iff in Hy. destruct Hy as [z [<- Hz]]. apply Hx, Hz.
Qed.

Lemma position_in_absent (pairs : list (Z * Z)) (i d : Z) :
  ~ In i (map fst pairs) -> position_in pairs i d = d.
Proof.
  unfold position_in. revert d. induction pairs as [|[j pos] l IH]; intros d H; [reflexivity|].
  simpl in *. destruct (Z.eqb_spec i j) as [E|E].
  - exfalso. apply H. left. symmetry. exact E.
  - apply IH. intros Hin. apply H. right. exact Hin.
Qed.

Lemma position_in_present (pairs : list (Z * Z)) (i d d' : Z) :
  In i (map fst pairs) -> position_in pairs i d = position_in pairs i d'.
Proof.
  unfold position_in. revert d d'. induction pairs as [|[j pos] l IH]; intros d d' H;
    [destruct H|].
  simpl in *. destruct (Z.eqb_spec i j) as [E|E]; [reflexivity|].
  apply IH. destruct H as [H|H]; [congruence|exact H].
Qed.

Lemma final_position_position_in (l : list (Z * Z)) (x : Task) :
  final_position l x = position_in l (id x) (position x).
Proof. reflexivity. Qed.

Lemma updates_ids (start : Z) (l : list Task) :
  map fst (Client.map_index (fun task index => (id task, index)) start l) = map id l.
Proof.
  revert start. induction l as [|x l IH]; intros start; simpl; [reflexivity|].
  f_equal. apply IH.
Qed.

(** The pairs of a batch built from a list without repeated ids, read as
    position and id, are the ids paired with the positions the batch gives
    them. *)
Lemma updates_positions (start : Z) (l : list Task) :
  NoDup (map id l) ->
  Client.map_index (fun task index => (index, id task)) start l
  = map (fun i => (position_in (Client.map_index (fun task index => (id task, index)) start l)
                               i 0, i))
        (map id l).
Proof.
  revert start. induction l as [|x l IH]; intros start Hnd; simpl; [reflexivity|].
  inversion Hnd as [|k ks Hk Hks]; subst. f_equal.
  - unfold position_in. simpl. rewrite Z.eqb_refl.
    f_equal. symmetry. apply position_in_absent. rewrite updates_ids. exact Hk.
  - rewrite (IH (start + 1) Hks). apply map_ext_in. intros i Hi.
    unfold position_in. simpl.
    destruct (Z.eqb_spec i (id x)) as [E|E]; [|reflexivity].
    exfalso. apply Hk. rewrite <- E. exact Hi.
Qed.

Lemma map_index_sorted (start : Z) (l : list Task) :
  StronglySorted (fun a b : Z * Z => fst a <= fst b)
                 (Client.map_index (fun task index => (index, id task)) start l)
  /\ Forall (fun a : Z * Z => start <= fst a)
            (Client.map_index (fun task index => (index, id task)) start l).
Proof.
  revert start. induction l as [|x l IH]; intros start; simpl.
  - split; constructor.
  - destruct (IH (start + 1)) as [H1 H2]. split.
    + constructor; [exact H1|]. rewrite Forall_forall in H2 |- *.
      intros a Ha. specialize (H2 a Ha). simpl. lia.
    + constructor; [simpl; lia|]. rewrite Forall_forall in H2 |- *.
      intros a Ha. specialize (H2 a Ha). lia.
Qed.

Lemma map_index_positions (start : Z) (l : list Task) :
  map fst (Client.map_index (fun task index => (index, id task)) start l)
  = map (fun k => start + Z.of_nat k) (List.seq 0 (List.length l)).
Proof.
  revert start. induction l as [|x l IH]; intros start; simpl; [reflexivity|].
  f_equal; [lia|]. rewrite IH, <- seq_shift, map_map. apply map_ext. intros k. lia.
Qed.

(** X9: the order of a drag survives a reload.  When the client's list
    holds the tasks of the store, each id once, and sends the batch
    [handleDragEnd] builds from its moved list, the rows that
    [GET /api/tasks] then returns carry the ids in the order of the moved
    list and the positions 0, 1, 2, ... *)
Theorem drag_order_persists (db : Db.t) (newTasks : list Task) :
  NoDup (map id (tasks db)) ->
  Permutation (map id newTasks) (map id (tasks db)) ->
  let db' := fst (patch_reorder (TaskArray (Client.updates newTasks)) db) in
  map id (taskQueries.getAll db') = map id newTasks
  /\ map position (taskQueries.getAll db')
     = map Z.of_nat (List.seq 0 (List.length newTasks)).
Proof.
  intros Hnd Hperm db'.
  set (U := Client.updates newTasks).
  set (kv := fun y : Task => (position y, id y)).
  assert (HndN : NoDup (map id newTasks)).
  { apply (Permutation_NoDup (Permutation_sym Hperm) Hnd). }
  assert (HP : Client.map_index (fun task index => (index, id task)) 0 newTasks
               = map (fun i => (position_in U i 0, i)) (map id newTasks)).
  { apply updates_positions, HndN. }
  assert (Hrows : map kv (tasks db') = map (fun i => (position_in U i 0, i)) (map id (tasks db))).
  { unfold db'. rewrite patch_reorder_store. fold U. destruct (reorder_rows U db) as [-> _].
    rewrite !map_map. apply map_ext_in. intros x Hx. unfold kv. simpl. f_equal.
    rewrite final_position_position_in. apply position_in_present.
    unfold U, Client.updates. rewrite updates_ids.
    apply (Permutation_in _ (Permutation_sym Hperm)), in_map, Hx. }
  assert (Hkv : map kv (taskQueries.getAll db')
                = Client.map_index (fun task index => (index, id task)) 0 newTasks).
  { apply (sorted_perm_unique fst).
    - rewrite HP. apply Permutation_trans with (map kv (tasks db')).
      + apply Permutation_map, sort_by_perm.
      + rewrite Hrows. apply Permutation_map, Permutation_sym, Hperm.
    - apply StronglySorted_map.
      apply (StronglySorted_weaken (ordered_by taskQueries.getAll_le)); [|apply getAll_sorted].
      unfold ordered_by, taskQueries.getAll_le, kv. simpl. intros a b. lia.
    - apply map_index_sorted.
    - apply (Permutation_NoDup
               (l := map fst (Client.map_index (fun task index => (index, id task)) 0 newTasks))).
      + apply Permutation_map. rewrite HP.
        apply Permutation_trans with (map kv (tasks db')).
        * rewrite Hrows. apply Permutation_map, Hperm.
        * apply Permutation_map, Permutation_sym, sort_by_perm.
      + rewrite map_index_positions. apply Finite.Injective_map_NoDup; [|apply seq_NoDup].
        intros a b. lia. }
  split.
  - transitivity (map snd (map kv (taskQueries.getAll db'))).
    + rewrite map_map. reflexivity.
    + rewrite Hkv, HP, map_map. simpl. apply map_id.
  - transitivity (map fst (map kv (taskQueries.getAll db'))).
    + rewrite map_map. reflexivity.
    + rewrite Hkv, map_index_positions. apply map_ext. intros k. lia.
Qed.

(** Three tasks, the last dragged to the front; the client's copies still
    carry the positions they were loaded with. *)
Lemma drag_order_persists_witness :
  let row := fun i ttl pos => mkTask i ttl None "todo" (Some "medium"%string) 1000 None pos in
  let db := mkDb [ row 1 "a"%string 0; row 2 "b"%string 1; row 3 "c"%string 2 ] 3 in
  let newTasks := [ row 3 "c"%string 2; row 1 "a"%string 0; row 2 "b"%string 1 ] in
  Client.updates newTasks = [ (3, 0); (1, 1); (2, 2) ]
  /\ map id (taskQueries.getAll (fst (patch_reorder (TaskArray (Client.updates newTasks)) db)))
     = [3; 1; 2].
Proof.
  intros row db newTasks. split; [reflexivity|].
  refine (proj1 (drag_order_persists db newTasks _ _)).
  - simpl. repeat constructor; simpl; intuition discriminate.
  - simpl. apply Permutation_cons_app with (l1 := [1; 2]) (l2 := []). simpl.
    apply Permutation_refl.
Defined.

Section SortCommutes.
Context {A : Type} (le : A -> A -> bool).
Hypothesis le_total : forall x y, le x y = false -> le y x = true.
Hypothesis le_trans : forall x y z, le x y = true -> le y z = true -> le x z = true.

Lemma insert_by_front (x : A) (l : list A) :
  (forall z, In z l -> le x z = true) -> insert_by le x l = x :: l.
Proof.
  destruct l as [|y l]; simpl; intros H; [reflexivity|].
  rewrite (H y (or_introl eq_refl)). reflexivity.
Qed.

Lemma filter_insert_by (p : A -> bool) (x : A) (l : list A) :
  StronglySorted (ordered_by le) l ->
  filter p (insert_by le x l)
  = if p x then insert_by le x (filter p l) else filter p l.
Proof.
  induction 1 as [|y l Hl IH Hy]; simpl.
  - destruct (p x); reflexivity.
  - destruct (le x y) eqn:E; simpl.
    + destruct (p x) eqn:Px; [|reflexivity].
      destruct (p y) eqn:Py; simpl; [rewrite E; reflexivity|].
      symmetry. apply insert_by_front. intros z Hz. apply filter_In in Hz.
      destruct Hz as [Hz _]. rewrite Forall_forall in Hy.
      apply le_trans with y; [exact E|apply Hy, Hz].
    + destruct (p y) eqn:Py; simpl; rewrite IH; destruct (p x); try reflexivity.
      rewrite E. reflexivity.
Qed.

(** Filtering commutes with the stable sort. *)
Lemma filter_sort_by (p : A -> bool) (l : list A) :
  filter p (sort_by le l) = sort_by le (filter p l).
Proof.
  induction l as [|x l IH]; simpl; [reflexivity|].
  rewrite filter_insert_by by (apply sort_by_sorted; assumption).
  rewrite IH. destruct (p x); reflexivity.
Qed.

End SortCommutes.

(** Sorting commutes with a map that leaves the order of any two elements
    as it is. *)
Lemma sort_by_map {A : Type} (le : A -> A -> bool) (f : A -> A) (l : list A) :
  (forall a b, le (f a) (f b) = le a b) ->
  sort_by le (map f l) = map f (sort_by le l).
Proof.
  intros H. induction l as [|x l IH]; simpl; [reflexivity|].
  rewrite IH. generalize (sort_by le l) as s. clear IH.
  induction s as [|y s IHs]; simpl; [reflexivity|].
  rewrite H. destruct (le x y); simpl; [reflexivity|]. f_equal. exact IHs.
Qed.

(** X10: the list the client keeps after a delete is the list the server
    would send.  If the client's list is what [GET /api/tasks] returns,
    then dropping the task of an id from it, as [handleDeleteTask] does,
    gives what [GET /api/tasks] returns after [DELETE /api/tasks/:id],
    whether the id has a row or not. *)
Theorem client_delete_matches_server (db : Db.t) (i : Z) :
  Client.handleDeleteTask (taskQueries.getAll db) i
  = taskQueries.getAll (fst (delete_task i db)).
Proof.
  unfold Client.handleDeleteTask, taskQueries.getAll.
  rewrite (filter_sort_by _ getAll_le_total getAll_le_trans).
  f_equal. unfold delete_task.
  destruct (taskQueries.getById i db) eqn:E; [reflexivity|].
  simpl. apply filter_all. intros z Hz.
  rewrite getById_None in E. specialize (E z Hz). lia.
Qed.

(** X11: the list the client keeps after an update is the list the server
    would send.  On a reachable store, if the client's list is what
    [GET /api/tasks] returns and [PUT /api/tasks/:id] answers with the
    updated row, then putting that row in the place of the task of that id,
    as [handleUpdateTask] does, gives what [GET /api/tasks] returns
    afterwards: an update never moves a task in the list. *)
Theorem client_update_matches_server (s : Server) (now i : Z) (body : TaskBody)
    (updatedTask : Task) :
  reachable s ->
  snd (put_task now i body (store s)) = mkResponse 200 (PTask (Some updatedTask)) ->
  Client.handleUpdateTask (taskQueries.getAll (store s)) i updatedTask
  = taskQueries.getAll (fst (put_task now i body (store s))).
Proof.
  intros Hs Hresp. destruct (reachable_ids_ok s Hs) as [Hnd _].
  unfold put_task in *.
  destruct (taskQueries.getById i (store s)) as [x|] eqn:Hx; [|discriminate].
  simpl in *. rewrite (getById_update _ _ _ _ _ _ _ _ Hx) in Hresp.
  injection Hresp as Hu.
  unfold taskQueries.getAll at 2. unfold taskQueries.update. simpl.
  rewrite sort_by_map.
  - unfold Client.handleUpdateTask. apply map_ext_in. intros y Hy.
    destruct (Z.eqb_spec (id y) i) as [E|E]; [|reflexivity].
    apply getAll_In in Hy. apply getById_Some in Hx. destruct Hx as [Hin Ex].
    assert (y = x) as -> by (apply (NoDup_map_eq id (tasks (store s))); auto; congruence).
    symmetry. exact Hu.
  - intros a b. unfold taskQueries.getAll_le.
    destruct (id a =? i), (id b =? i); reflexivity.
Qed.

(** A rename, answered with the renamed row. *)
Lemma client_update_matches_server_witness :
  let s := mkServer (fst (handle 1500 (POST_task (mkBody (Some "Buy milk"%string) None None None None))
                              Db.empty)) 1500 in
  let body := mkBody (Some "Buy oat milk"%string) None None None None in
  let u := mkTask 1 "Buy oat milk" None "todo" (Some "medium"%string) 1000 None 0 in
  Client.handleUpdateTask (taskQueries.getAll (store s)) 1 u = [ u ]
  /\ Client.handleUpdateTask (taskQueries.getAll (store s)) 1 u
     = taskQueries.getAll (fst (put_task 2000 1 body (store s))).
Proof.
  intros s body u. split; [reflexivity|].
  apply (client_update_matches_server s 2000 1 body u).
  - apply (reach_request (mkServer Db.empty 0) 1500); [apply reach_start|simpl; lia].
  - reflexivity.
Defined.

(** ** Statistics, continued *)

Section PercentageBounds.
Local Open Scope Q_scope.

Lemma percentage_zero (n : Z) : percentage 0 n = 0.
Proof.
  unfold percentage, fmul, fdiv.
  rewrite (fl_zero (inject_Z 0 / inject_Z n)) by reflexivity.
  apply fl_zero. reflexivity.
Qed.

Lemma percentage_all (n : Z) : (0 < n)%Z -> percentage n n = 100.
Proof.
  intros Hn. unfold percentage, fmul, fdiv.
  assert (E : inject_Z n / inject_Z n == 1).
  { field. pose proof (Z_to_Q_lt 0 n Hn) as H. change (inject_Z 0) with 0 in H. lra. }
  rewrite (fl_comp _ _ E). vm_compute. reflexivity.
Qed.

Lemma percentage_inside (c n : Z) :
  (0 < c < n)%Z -> (n < 2 ^ 32)%Z -> 0 < percentage c n < 100.
Proof.
  intros Hc Hn. unfold percentage, fmul, fdiv.
  set (r := inject_Z c / inject_Z n).
  assert (HN : 0 < inject_Z n) by (apply (Z_to_Q_lt 0); lia).
  assert (HC : 0 < inject_Z c) by (apply (Z_to_Q_lt 0); lia).
  assert (Hr0 : 0 < r).
  { unfold r. apply Qlt_shift_div_l; [exact HN|]. lra. }
  assert (Hr : r <= 1 - (1 # 4294967296)).
  { unfold r. apply Qle_shift_div_r; [exact HN|].
    pose proof (Z_to_Q_le (c + 1) n ltac:(lia)) as H1.
    pose proof (Z_to_Q_le n 4294967296 ltac:(lia)) as H2.
    rewrite inject_Z_plus in H1.
    change (inject_Z 1) with 1 in H1.
    change (inject_Z 4294967296) with (4294967296 # 1) in H2.
    lra. }
  pose proof (fl_error r Hr0) as [H1 H1'].
  pose proof (fl_pos_lt r Hr0) as H0.
  assert (Hx : 0 < fl r * 100) by lra.
  pose proof (fl_error (fl r * 100) Hx) as [H2 H2'].
  pose proof (fl_pos_lt (fl r * 100) Hx) as H3.
  split; [exact H3|].
  unfold unit_roundoff in *.
  generalize dependent (fl (fl r * 100)). intros y H2 H2' H3.
  generalize dependent (fl r). intros x H1 H1' H0 Hx H2 H2'.
  nra.
Qed.

(** The percentage of [c] out of [n] lies between 0 and 100 and reaches the
    ends only for none and for all. *)
Lemma percentage_bounds (c n : Z) :
  (0 <= c <= n)%Z -> (0 < n < 2 ^ 32)%Z ->
  0 <= percentage c n <= 100
  /\ (percentage c n == 0 <-> c = 0%Z)
  /\ (percentage c n == 100 <-> c = n).
Proof.
  intros Hc Hn.
  destruct (Z.eq_dec c 0) as [->|Hc0].
  - rewrite percentage_zero. split; [split; [apply Qle_refl|discriminate]|].
    split; split; intros H; try reflexivity; try discriminate. lia.
  - destruct (Z.eq_dec c n) as [->|Hcn].
    + rewrite percentage_all by lia. split; [split; [discriminate|apply Qle_refl]|].
      split; split; intros H; try reflexivity; try discriminate. lia.
    + pose proof (percentage_inside c n ltac:(lia) ltac:(lia)) as [H1 H2].
      split; [split; apply Qlt_le_weak; assumption|].
      split; split; intros H; try lia; exfalso; rewrite H in *;
        [apply (Qlt_irrefl 0)|apply (Qlt_irrefl 100)]; assumption.
Qed.

End PercentageBounds.

Lemma nodup_constant (d : Z) (l : list Z) :
  l <> [] -> (forall x, In x l -> x = d) -> nodup Z.eq_dec l = [d].
Proof.
  induction l as [|x l IH]; intros Hne H; [contradiction|].
  assert (x = d) as -> by (apply H; left; reflexivity).
  simpl. destruct (in_dec Z.eq_dec d l) as [Hin|Hout].
  - apply IH; [intros ->; destruct Hin|]. intros y Hy. apply H. right. exact Hy.
  - destruct l as [|y l]; [reflexivity|].
    exfalso. apply Hout. left. apply H. right. left. reflexivity.
Qed.

(** What the daily query returns: nothing for a date without tasks, else
    the one row of that date. *)
Lemma getDailyStats_eq (d : Z) (db : Db.t) :
  analyticsQueries.getDailyStats d db
  = match filter (on_date d) (tasks db) with
    | [] => None
    | _ => Some (stats_row d (filter (on_date d) (tasks db)))
    end.
Proof.
  unfold analyticsQueries.getDailyStats, group_by_date.
  set (rows := filter (on_date d) (tasks db)).
  destruct rows as [|x rows'] eqn:E; [reflexivity|]. rewrite <- E.
  rewrite (nodup_constant d).
  - simpl. f_equal. f_equal. unfold rows. apply filter_narrow. trivial.
  - rewrite E. discriminate.
  - intros k Hk. apply in_map_iff in Hk. destruct Hk as [y [<- Hy]].
    unfold rows in Hy. apply filter_In in Hy. destruct Hy as [_ Hy].
    unfold on_date in Hy. lia.
Qed.

Lemma len_filter_le {A : Type} (p : A -> bool) (l : list A) : len (filter p l) <= len l.
Proof. unfold len. pose proof (filter_length_le p l). lia. Qed.

(** X12: [GET /api/analytics/daily] for a date on which tasks were created
    (fewer than 2^32) answers 200 with the row of that date: the number of
    tasks created on it, at least 1; the number of those that are done; and
    a completion rate between 0 and 100 that is 0 exactly when none is done
    and 100 exactly when all are. *)
Theorem dailyStats_counts (now : Z) (query_date : option Z) (db : Db.t) :
  let date := match query_date with Some d => d | None => date_of now end in
  let created := filter (on_date date) (tasks db) in
  created <> [] ->
  len created < 2 ^ 32 ->
  exists r,
    get_daily now query_date db = (db, mkResponse 200 (PStats r))
    /\ Db.date r = date
    /\ total_tasks r = len created /\ 1 <= total_tasks r
    /\ completed_tasks r = len (filter is_done created)
    /\ 0 <= completed_tasks r <= total_tasks r
    /\ (0 <= completion_rate r <= 100)%Q
    /\ ((completion_rate r == 0)%Q <-> completed_tasks r = 0)
    /\ ((completion_rate r == 100)%Q <-> completed_tasks r = total_tasks r).
Proof.
  intros d created Hne Hlen.
  exists (stats_row d created).
  assert (Hpos : 1 <= len created).
  { apply len_positive in Hne. rewrite Z.gtb_ltb in Hne. apply Z.ltb_lt in Hne. lia. }
  assert (Hdone : 0 <= len (filter is_done created) <= len created).
  { split; [apply len_nonneg|apply len_filter_le]. }
  split.
  - unfold get_daily. fold d. rewrite getDailyStats_eq. fold created.
    destruct created; [contradiction|reflexivity].
  - simpl. split; [reflexivity|]. split; [reflexivity|]. split; [exact Hpos|].
    split; [reflexivity|]. split; [exact Hdone|].
    apply (percentage_bounds (len (filter is_done created)) (len created)); lia.
Qed.

(** Two tasks created on day 0, one of them done. *)
Lemma dailyStats_counts_witness :
  let db := mkDb [ mkTask 1 "a" None "done" (Some "medium"%string) 1000 None 0;
                   mkTask 2 "b" None "todo" (Some "medium"%string) 2000 None 0 ] 2 in
  exists r,
    get_daily 5000 None db = (db, mkResponse 200 (PStats r))
    /\ total_tasks r = 2 /\ completed_tasks r = 1.
Proof.
  intros db.
  destruct (dailyStats_counts 5000 None db) as [r [H1 [_ [H2 [_ [H3 _]]]]]].
  - discriminate.
  - reflexivity.
  - exists r. split; [exact H1|]. split; [exact H2|exact H3].
Defined.

(** X13: the daily and the weekly statistics agree.  For a date in the
    weekly window, from seven days before today on, the daily query has a
    row exactly when the weekly rows hold one with that date, and it is the
    same row; for an earlier date the weekly rows hold none. *)
Theorem daily_row_is_weekly_row (now d : Z) (db : Db.t) (r : DailyAnalytics) :
  (date_of now - 7 <= d ->
   (analyticsQueries.getDailyStats d db = Some r <->
    In r (analyticsQueries.getWeeklyStats now db) /\ Db.date r = d))
  /\ (d < date_of now - 7 ->
      ~ (In r (analyticsQueries.getWeeklyStats now db) /\ Db.date r = d)).
Proof.
  split.
  - intros Hd. rewrite getDailyStats_eq, getWeeklyStats_In. split.
    + destruct (filter (on_date d) (tasks db)) as [|x rows] eqn:E; [discriminate|].
      intros H. injection H as <-. simpl. rewrite E.
      assert (In x (filter (on_date d) (tasks db))) as Hx by (rewrite E; left; reflexivity).
      apply filter_In in Hx. destruct Hx as [Hx Hd']. unfold on_date in Hd'.
      repeat split; try lia. exists x. split; [exact Hx|lia].
    + intros [[_ [[x [Hx Ex]] Hr]] <-].
      assert (In x (filter (on_date (Db.date r)) (tasks db))) as Hin.
      { apply filter_In. split; [exact Hx|]. unfold on_date. lia. }
      destruct (filter (on_date (Db.date r)) (tasks db)) as [|y rows]; [destruct Hin|].
      f_equal. symmetry. exact Hr.
  - intros Hd [Hin <-]. apply getWeeklyStats_In in Hin. lia.
Qed.

(** Day 9: the task of day 2 has the same row in both, the task of day 0
    has a daily row only. *)
Lemma daily_row_is_weekly_row_witness :
  let db := mkDb [ mkTask 1 "a" None "done" (Some "medium"%string) 1000 None 0;
                   mkTask 2 "b" None "todo" (Some "medium"%string) 172800000 None 0 ] 2 in
  analyticsQueries.getDailyStats 2 db = Some (mkDaily 2 1 0 0)
  /\ In (mkDaily 2 1 0 0) (analyticsQueries.getWeeklyStats 777600000 db)
  /\ ~ (In (mkDaily 0 1 1 100) (analyticsQueries.getWeeklyStats 777600000 db)
        /\ Db.date (mkDaily 0 1 1 100) = 0).
Proof.
  intros db.
  destruct (daily_row_is_weekly_row 777600000 2 db (mkDaily 2 1 0 0)) as [H1 _].
  destruct (daily_row_is_weekly_row 777600000 0 db (mkDaily 0 1 1 100)) as [_ H2].
  split; [reflexivity|]. split.
  - apply H1; [vm_compute; discriminate|reflexivity].
  - apply H2. reflexivity.
Defined.

Lemma fold_left_add_zsum {A : Type} (f : A -> Z) (l : list A) (acc : Z) :
  fold_left (fun sum x => sum + f x) l acc = acc + zsum (map f l).
Proof.
  revert acc. induction l as [|x l IH]; intros acc; simpl; [lia|].
  rewrite IH. lia.
Qed.

Lemma zsum_perm (l1 l2 : list Z) : Permutation l1 l2 -> zsum l1 = zsum l2.
Proof. induction 1; simpl; lia. Qed.

Lemma zsum_indicator (k c : Z) (ds : list Z) :
  NoDup ds -> In k ds -> zsum (map (fun d => if k =? d then c else 0) ds) = c.
Proof.
  induction ds as [|d ds IH]; intros Hnd Hin; [destruct Hin|].
  inversion Hnd as [|? ? Hd Hds]; subst. simpl.
  destruct (Z.eqb_spec k d) as [E|E].
  - subst. assert (zsum (map (fun d0 => if d =? d0 then c else 0) ds) = 0) as ->; [|lia].
    clear IH Hnd Hds Hin. induction ds as [|e ds IHd]; simpl; [reflexivity|].
    destruct (Z.eqb_spec d e) as [E|E]; [exfalso; apply Hd; left; congruence|].
    rewrite IHd; [reflexivity|]. intros H. apply Hd. right. exact H.
  - destruct Hin as [Hin|Hin]; [congruence|]. rewrite (IH Hds Hin). lia.
Qed.

Lemma zsum_map_add {A : Type} (f g : A -> Z) (l : list A) :
  zsum (map (fun d => f d + g d) l) = zsum (map f l) + zsum (map g l).
Proof. induction l as [|x l IH]; simpl; lia. Qed.

Lemma zsum_zero {A : Type} (l : list A) : zsum (map (fun _ => 0) l) = 0.
Proof. induction l as [|x l IH]; simpl; lia. Qed.

(** Summing a weight over the groups of a list by key gives its sum over
    the list. *)
Lemma zsum_groups {A : Type} (key : A -> Z) (w : A -> Z) (ds : list Z) (l : list A) :
  NoDup ds -> (forall x, In x l -> In (key x) ds) ->
  zsum (map (fun d => zsum (map w (filter (fun x => key x =? d) l))) ds) = zsum (map w l).
Proof.
  intros Hnd. induction l as [|x l IH]; intros Hin.
  - simpl. apply zsum_zero.
  - rewrite (map_ext _ (fun d => (if key x =? d then w x else 0)
                                 + zsum (map w (filter (fun y => key y =? d) l)))).
    + rewrite zsum_map_add, IH by (intros y Hy; apply Hin; right; exact Hy).
      rewrite (zsum_indicator (key x) (w x) ds Hnd (Hin x (or_introl eq_refl))).
      reflexivity.
    + intros d. simpl. destruct (key x =? d); simpl; lia.
Qed.

Lemma len_zsum {A : Type} (l : list A) : len l = zsum (map (fun _ => 1) l).
Proof.
  unfold len. induction l as [|x l IH]; [reflexivity|].
  rewrite length_cons, Nat2Z.inj_succ.
  change (zsum (map (fun _ => 1) (x :: l))) with (1 + zsum (map (fun _ : A => 1) l)). lia.
Qed.

Lemma len_filter_zsum {A : Type} (p : A -> bool) (l : list A) :
  len (filter p l) = zsum (map (fun x => if p x then 1 else 0) l).
Proof.
  induction l as [|x l IH]; [reflexivity|].
  change (zsum (map (fun x => if p x then 1 else 0) (x :: l)))
    with ((if p x then 1 else 0) + zsum (map (fun x => if p x then 1 else 0) l)).
  simpl filter. destruct (p x); [|lia].
  unfold len in *. rewrite length_cons, Nat2Z.inj_succ. lia.
Qed.

Lemma group_totals (w : Task -> Z) (f : DailyAnalytics -> Z) (rows : list Task) :
  (forall d l, f (stats_row d l) = zsum (map w l)) ->
  zsum (map f (group_by_date rows)) = zsum (map w rows).
Proof.
  intros Hf. unfold group_by_date. rewrite map_map.
  rewrite (map_ext _ (fun d => zsum (map w (filter (fun x => date_of (created_at x) =? d) rows))))
    by (intros d; apply Hf).
  apply (zsum_groups (fun x => date_of (created_at x))).
  - apply NoDup_nodup.
  - intros x Hx. apply nodup_In.
    apply (in_map (fun y => date_of (created_at y))), Hx.
Qed.

(** X14: the Analytics view.  The rows it charts, the weekly rows reversed,
    run from the oldest date to the newest.  Its total is the number of
    tasks created from seven days before today on, its completed total the
    number of those that are done, which is never more than the total. *)
Theorem analytics_totals (now : Z) (db : Db.t) :
  let charted := Client.weeklyStats (analyticsQueries.getWeeklyStats now db) in
  let recent := filter (fun x => date_of now - 7 <=? date_of (created_at x)) (tasks db) in
  StronglySorted (fun a b => Db.date a < Db.date b) charted
  /\ Client.totalTasks charted = len recent
  /\ Client.totalCompleted charted = len (filter is_done recent)
  /\ 0 <= Client.totalCompleted charted <= Client.totalTasks charted.
Proof.
  intros charted recent.
  assert (Hperm : forall f : DailyAnalytics -> Z,
             zsum (map f charted) = zsum (map f (group_by_date recent))).
  { intros f. apply zsum_perm, Permutation_map. unfold charted, Client.weeklyStats.
    apply Permutation_trans with (analyticsQueries.getWeeklyStats now db).
    - apply Permutation_sym, Permutation_rev.
    - apply sort_by_perm. }
  assert (Ht : Client.totalTasks charted = len recent).
  { unfold Client.totalTasks. rewrite fold_left_add_zsum, Hperm, len_zsum. simpl.
    apply group_totals. intros d l. simpl. apply len_zsum. }
  assert (Hc : Client.totalCompleted charted = len (filter is_done recent)).
  { unfold Client.totalCompleted. rewrite fold_left_add_zsum, Hperm, len_filter_zsum. simpl.
    apply group_totals. intros d l. simpl. apply len_filter_zsum. }
  split; [|split; [exact Ht|split; [exact Hc|]]].
  - unfold charted, Client.weeklyStats.
    apply (StronglySorted_rev (fun a b => Db.date b < Db.date a)), getWeeklyStats_sorted.
  - rewrite Ht, Hc. split; [apply len_nonneg|apply len_filter_le].
Qed.

(** ** The insight generator, continued *)

Section MatchBraces.
Local Open Scope string_scope.

Lemma after_first_open_app (p r : string) :
  occurs "{" p = false -> after_first_open (p ++ String "{" r) = Some r.
Proof.
  induction p as [|c p IH]; simpl; intros H; [reflexivity|].
  apply orb_false_elim in H. destruct H as [H1 H2]. rewrite H1. apply IH, H2.
Qed.

Lemma after_first_open_inv (s r : string) :
  after_first_open s = Some r ->
  exists p, s = p ++ String "{" r /\ occurs "{" p = false.
Proof.
  revert r. induction s as [|c s IH]; simpl; intros r H; [discriminate|].
  destruct (Ascii.eqb_spec c "{") as [->|E].
  - injection H as <-. exists "". split; reflexivity.
  - destruct (IH r H) as [p [-> Hp]]. exists (String c p). split; [reflexivity|].
    simpl. rewrite Hp. apply Ascii.eqb_neq in E. rewrite E. reflexivity.
Qed.

Lemma upto_last_close_none (q : string) :
  occurs "}" q = false -> upto_last_close q = None.
Proof.
  induction q as [|c q IH]; simpl; intros H; [reflexivity|].
  apply orb_false_elim in H. destruct H as [H1 H2]. rewrite (IH H2), H1. reflexivity.
Qed.

Lemma upto_last_close_app (b q : string) :
  occurs "}" q = false -> upto_last_close (b ++ String "}" q) = Some (b ++ "}").
Proof.
  intros H. induction b as [|c b IH]; simpl.
  - rewrite (upto_last_close_none q H). reflexivity.
  - rewrite IH. reflexivity.
Qed.

Lemma upto_last_close_inv (r m : string) :
  upto_last_close r = Some m ->
  exists b q, r = b ++ String "}" q /\ m = b ++ "}" /\ occurs "}" q = false.
Proof.
  revert m. induction r as [|c r IH]; simpl; intros m H; [discriminate|].
  destruct (upto_last_close r) as [m'|] eqn:E.
  - injection H as <-. destruct (IH m' eq_refl) as [b [q [-> [-> Hq]]]].
    exists (String c b), q. repeat split. exact Hq.
  - destruct (Ascii.eqb_spec c "}") as [->|Hc]; [|discriminate].
    injection H as <-. exists "", r. repeat split.
    clear IH. induction r as [|d r IHr]; [reflexivity|]. simpl in *.
    destruct (upto_last_close r); [discriminate|].
    destruct (Ascii.eqb_spec d "}"); [discriminate|]. simpl. apply IHr. reflexivity.
Qed.

(** X15: what the regular expression [/\{[\s\S]*\}/] finds in a reply.  It
    matches exactly the texts that have an opening brace with a closing
    brace somewhere after it, and the match runs from the first opening
    brace of the text to its last closing brace, whatever lies between,
    further braces and line breaks included. *)
Theorem match_braces_first_to_last (content m : string) :
  match_braces content = Some m <->
  exists before inside after,
    content = before ++ String "{" (inside ++ String "}" after)
    /\ occurs "{" before = false
    /\ occurs "}" after = false
    /\ m = String "{" (inside ++ "}").
Proof.
  unfold match_braces. split.
  - destruct (after_first_open content) as [r|] eqn:E; [|discriminate].
    destruct (upto_last_close r) as [m'|] eqn:E'; [|discriminate].
    simpl. intros H. injection H as <-.
    destruct (after_first_open_inv _ _ E) as [p [-> Hp]].
    destruct (upto_last_close_inv _ _ E') as [b [q [-> [-> Hq]]]].
    exists p, b, q. repeat split; assumption.
  - intros [p [b [q [-> [Hp [Hq ->]]]]]].
    rewrite (after_first_open_app p _ Hp), (upto_last_close_app b q Hq). reflexivity.
Qed.

End MatchBraces.

Section AnalyzeTasksEffects.

Variable fetch : string -> string -> string -> outcome HttpResponse.
Variable JSON_parse : string -> outcome value.

(** X16: without a credential nothing leaves the machine.  When the
    constructor gets no key, or an empty one, and the environment variable
    is unset or empty, the service's key is empty, and [analyzeTasks] then
    returns the heuristic result (the placeholders for the empty list) with
    an empty log: no request, no [console.error].  A non-empty key given to
    the constructor wins over the environment variable. *)
Theorem no_credential_no_request (apiKey env_GROQ_API_KEY : option string)
    (tasks : list Task) :
  (forall k, apiKey = Some k -> k <> ""%string ->
             groqApiKey (new_AIService apiKey env_GROQ_API_KEY) = k)
  /\ (truthy apiKey = false -> truthy env_GROQ_API_KEY = false ->
      groqApiKey (new_AIService apiKey env_GROQ_API_KEY) = ""%string
      /\ analyzeTasks fetch JSON_parse (new_AIService apiKey env_GROQ_API_KEY) tasks
         = (Return (Built (match tasks with
                           | [] => placeholders
                           | _ => fallback tasks
                           end)), [])).
Proof.
  split.
  - intros k -> Hk. simpl. apply or_else_given, Hk.
  - intros Ha He.
    assert (E : groqApiKey (new_AIService apiKey env_GROQ_API_KEY) = ""%string).
    { simpl. destruct apiKey as [a|]; destruct env_GROQ_API_KEY as [e|]; simpl in *;
        try rewrite Ha; try rewrite He; reflexivity. }
    split; [exact E|].
    destruct tasks as [|x l]; [reflexivity|].
    unfold analyzeTasks. rewrite len_nonempty by discriminate. rewrite E. reflexivity.
Qed.

(** X17: [analyzeTasks] sends at most one request.  It sends none for the
    empty list or with an empty key; otherwise it sends exactly one, to the
    Groq endpoint, with the key as bearer token and the prompt built from
    the task list, whatever comes back. *)
Theorem analyze_sends_one_request (this : AIService) (tasks : list Task) :
  filter is_fetch (snd (analyzeTasks fetch JSON_parse this tasks))
  = if truthy_string (groqApiKey this) && negb (len tasks =? 0)
    then [ Fetch groqEndpoint ("Bearer " ++ groqApiKey this)
                 (prompt_of tasks (completed_of tasks) (incomplete_of tasks)) ]
    else [].
Proof.
  unfold analyzeTasks.
  destruct (len tasks =? 0); [rewrite andb_false_r; reflexivity|].
  fold (completed_of tasks). fold (incomplete_of tasks).
  generalize (basicAnalysis tasks (completed_of tasks) (incomplete_of tasks)) as basic.
  generalize (prompt_of tasks (completed_of tasks) (incomplete_of tasks)) as prompt.
  intros prompt basic.
  destruct (truthy_string (groqApiKey this)); simpl; [|reflexivity].
  unfold do_fetch.
  destruct (fetch groqEndpoint _ prompt) as [response|e]; simpl; [|reflexivity].
  destruct (ok response); simpl.
  - destruct (response_json JSON_parse response) as [data|e]; simpl; [|reflexivity].
    destruct (content_of data) as [content|e]; simpl; [|reflexivity].
    destruct content; simpl; try reflexivity.
    destruct (match_braces s) as [m|]; simpl; [|reflexivity].
    destruct (JSON_parse m); reflexivity.
  - destruct (text response); reflexivity.
Qed.

(** X18: the way through.  With a key and a non-empty list, when the
    request is answered [ok] with a body that decodes to an object whose
    first choice has a message with a text content, and that text wraps a
    brace-delimited part that decodes, in prose without braces of the wrong
    kind, then [analyzeTasks] returns what that part decodes to; it has sent
    one request and written no error. *)
Theorem analyze_returns_wrapped_object (this : AIService) (tasks : list Task)
    (response : HttpResponse) (body : string) (fields choice message : list (string * value))
    (others : list value) (before inside after : string) (v : value) :
  tasks <> [] ->
  groqApiKey this <> ""%string ->
  answer fetch this tasks = Return response ->
  ok response = true ->
  text response = Return body ->
  JSON_parse body = Return (VObj fields) ->
  lookup "choices" fields = VArr (VObj choice :: others) ->
  lookup "message" choice = VObj message ->
  lookup "content" message = VStr (before ++ String "{" (inside ++ String "}" after)) ->
  occurs "{" before = false ->
  occurs "}" after = false ->
  JSON_parse (String "{" (inside ++ "}")) = Return v ->
  analyzeTasks fetch JSON_parse this tasks
  = (Return (Parsed v),
     [ Fetch groqEndpoint ("Bearer " ++ groqApiKey this)
             (prompt_of tasks (completed_of tasks) (incomplete_of tasks)) ]).
Proof.
  intros Hne Hkey Hans Hok Htext Hbody Hch Hmsg Hcont Hb Ha Hv.
  assert (Hm : match_braces (before ++ String "{" (inside ++ String "}" after))
               = Some (String "{" (inside ++ "}"))).
  { apply match_braces_first_to_last. exists before, inside, after. repeat split; assumption. }
  assert (Ht : is_truthy (VStr (before ++ String "{" (inside ++ String "}" after))) = true).
  { simpl. unfold truthy_string. destruct before; reflexivity. }
  assert (Hc : content_of (VObj fields)
               = Return (VStr (before ++ String "{" (inside ++ String "}" after)))).
  { unfold content_of. cbn [get]. rewrite Hch.
    change (get (VArr (VObj choice :: others)) "0") with (Return (VObj choice)).
    cbn [get_opt is_nullish get]. rewrite Hmsg. cbn [get_opt is_nullish get]. rewrite Hcont, Ht.
    reflexivity. }
  unfold analyzeTasks. rewrite (len_nonempty tasks Hne).
  fold (completed_of tasks). fold (incomplete_of tasks).
  unfold answer in Hans.
  assert (Hk : truthy_string (groqApiKey this) = true).
  { unfold truthy_string. apply String.eqb_neq in Hkey. rewrite Hkey. reflexivity. }
  rewrite Hk. unfold do_fetch. rewrite Hans.
  cbn [negb bind try_catch lift ret app]. rewrite Hok.
  unfold response_json. rewrite Htext, Hbody.
  cbn [negb bind try_catch lift ret app]. rewrite Hc.
  cbn [negb bind try_catch lift ret app String_match]. rewrite Hm.
  cbn [negb bind try_catch lift ret app]. rewrite Hv.
  reflexivity.
Qed.

End AnalyzeTasksEffects.

(** A reply that wraps an empty object in prose. *)
Lemma analyze_returns_wrapped_object_witness :
  let reply :=
    VObj [ ("choices"%string,
            VArr [ VObj [ ("message"%string,
                           VObj [ ("content"%string, VStr "Sure: {} done") ]) ] ]) ] in
  let fetch := fun _ _ _ : string => Return (mkHttp true (Return "body"%string)) in
  let JSON_parse := fun s : string =>
    if (s =? "body")%string then Return reply
    else if (s =? "{}")%string then Return (VObj [])
    else Throw "SyntaxError"%string in
  let tasks := [ mkTask 1 "Buy milk" None "todo" (Some "high"%string) 1000 None 0 ] in
  fst (analyzeTasks fetch JSON_parse (mkService "gsk") tasks) = Return (Parsed (VObj [])).
Proof.
  intros reply fetch JSON_parse tasks.
  rewrite (analyze_returns_wrapped_object fetch JSON_parse (mkService "gsk") tasks
             (mkHttp true (Return "body"%string)) "body"%string
             [ ("choices"%string,
                VArr [ VObj [ ("message"%string,
                               VObj [ ("content"%string, VStr "Sure: {} done") ]) ] ]) ]
             [ ("message"%string, VObj [ ("content"%string, VStr "Sure: {} done") ]) ]
             [ ("content"%string, VStr "Sure: {} done") ]
             [] "Sure: "%string ""%string " done"%string (VObj []));
    try reflexivity; discriminate.
Defined.

(** ** The heuristic, continued *)

(** X19: the failure reasons of [basicAnalysis] and how they line up with
    the rest.  The pending line is there exactly when an incomplete task
    has high priority, which is also exactly when the prioritize
    recommendation is there; the more-incomplete line is there exactly when
    the incomplete tasks outnumber the completed ones; so the list is empty
    exactly when neither holds, and the test for incomplete tasks around
    both adds nothing.  The completion insights hold one or two lines. *)
Theorem failure_reasons_rules (tasks completedTasks incompleteTasks : list Task) :
  let r := basicAnalysis tasks completedTasks incompleteTasks in
  let pending := len (filter (has_priority "high") incompleteTasks) in
  failureReasons r
  = (if 0 <? pending then [ pending_line pending ] else [])
    ++ (if len completedTasks <? len incompleteTasks then [ more_incomplete_line ] else [])
  /\ (In (pending_line pending) (failureReasons r) <-> 0 < pending)
  /\ (In more_incomplete_line (failureReasons r) <-> len completedTasks < len incompleteTasks)
  /\ (failureReasons r = [] <-> pending = 0 /\ len incompleteTasks <= len completedTasks)
  /\ (tasks <> [] ->
      (In (pending_line pending) (failureReasons r) <-> In prioritize_line (recommendations r)))
  /\ (1 <= List.length (completionInsights r) <= 2)%nat.
Proof.
  intros r pending.
  assert (Hp : 0 <= pending <= len incompleteTasks).
  { split; [apply len_nonneg|apply len_filter_le]. }
  pose proof (len_nonneg completedTasks) as Hc.
  assert (E : failureReasons r
              = (if 0 <? pending then [ pending_line pending ] else [])
                ++ (if len completedTasks <? len incompleteTasks
                    then [ more_incomplete_line ] else [])).
  { unfold r, basicAnalysis. cbn [failureReasons]. fold pending.
    rewrite !Z.gtb_ltb.
    destruct (0 <? len incompleteTasks) eqn:E1; [reflexivity|].
    replace (0 <? pending) with false by lia.
    replace (len completedTasks <? len incompleteTasks) with false by lia.
    reflexivity. }
  assert (Hlines : pending_line pending <> more_incomplete_line).
  { unfold pending_line, more_incomplete_line, show.
    destruct pending as [|p|p]; [discriminate| |lia].
    simpl. destruct (Pos.to_uint p); simpl; discriminate. }
  split; [exact E|]. rewrite E.
  split; [|split; [|split; [|split]]].
  - destruct (0 <? pending) eqn:E1;
      destruct (len completedTasks <? len incompleteTasks); cbn [app In];
      split; intros H; try lia; auto;
      repeat (destruct H as [H|H]; try lia); try contradiction.
    exfalso. apply Hlines. symmetry. exact H.
  - destruct (0 <? pending);
      destruct (len completedTasks <? len incompleteTasks) eqn:E2; cbn [app In];
      split; intros H; try lia; auto;
      repeat (destruct H as [H|H]; try lia); try contradiction.
  - destruct (0 <? pending) eqn:E1;
      destruct (len completedTasks <? len incompleteTasks) eqn:E2; cbn [app];
      split; intros H; try discriminate H; try lia; reflexivity.
  - intros Hne. unfold r. rewrite (recommendations_unfold _ _ _ Hne). fold pending.
    rewrite !Z.gtb_ltb.
    destruct (0 <? pending) eqn:E1.
    + split; intros _; [|left; reflexivity].
      apply in_or_app. right. simpl. left. reflexivity.
    + split; intros H.
      * destruct (len completedTasks <? len incompleteTasks); cbn [app In] in H.
        -- destruct H as [H|[]]. exfalso. apply Hlines. symmetry. exact H.
        -- destruct H.
      * exfalso. apply in_app_or in H. destruct H as [H|H].
        -- destruct (_ && _); [destruct H as [H|[]]; discriminate H|destruct H].
        -- cbn [app] in H. destruct (10 <? len incompleteTasks);
             destruct H as [H|[]]; discriminate H.
  - unfold r, basicAnalysis. cbn [completionInsights].
    destruct (len completedTasks >? 0); [|simpl; lia].
    destruct (len (filter (has_priority "high") completedTasks) >? 0); simpl; lia.
Qed.

(** ** The numbers the heuristic prints *)

Lemma Qfloor_unique (y : Q) (k : Z) :
  (inject_Z k <= y)%Q -> (y < inject_Z (k + 1))%Q -> Qfloor y = k.
Proof.
  intros H1 H2.
  pose proof (Qfloor_le y) as F1. pose proof (Qlt_floor y) as F2.
  assert (L1 : k < Qfloor y + 1).
  { rewrite Zlt_Qlt. eapply Qle_lt_trans; [exact H1|exact F2]. }
  assert (L2 : Qfloor y < k + 1).
  { rewrite Zlt_Qlt. eapply Qle_lt_trans; [exact F1|exact H2]. }
  lia.
Qed.

Lemma string_append_assoc (a b c : string) :
  ((a ++ b) ++ c = a ++ (b ++ c))%string.
Proof. induction a as [|x a IH]; simpl; [reflexivity|rewrite IH; reflexivity]. Qed.

Lemma show_digit (d : Z) : 0 <= d < 10 -> String.length (show d) = 1%nat.
Proof.
  intros H.
  assert (E : d = 0 \/ d = 1 \/ d = 2 \/ d = 3 \/ d = 4 \/ d = 5 \/ d = 6 \/ d = 7
              \/ d = 8 \/ d = 9) by lia.
  repeat (destruct E as [->|E]; [reflexivity|]). subst d. reflexivity.
Qed.

(** [toFixed(1)] of a number whose tenths digit is a single digit. *)
Lemma toFixed_1 (x : Q) :
  toFixed 1 x
  = (let k := Qfloor (x * 10 + (1 # 2))%Q in
     show (k / 10) ++ "." ++ show (k mod 10))%string.
Proof.
  unfold toFixed. change (10 ^ Z.of_nat 1) with 10.
  change (inject_Z 10) with (10 # 1)%Q.
  set (k := Qfloor (x * (10 # 1) + (1 # 2))%Q). cbv zeta.
  rewrite (show_digit (k mod 10)) by (apply Z.mod_pos_bound; lia).
  reflexivity.
Qed.

(** The tenths of [n / 7] as the code computes them. *)
Lemma tenths_of_sevenths (n : Z) :
  0 < n < 2 ^ 32 ->
  Qfloor (fdiv (inject_Z n) 7 * 10 + (1 # 2))%Q = (20 * n + 7) / 14.
Proof.
  intros Hn. unfold fdiv.
  set (k := (20 * n + 7) / 14).
  pose proof (Z.div_mod (20 * n + 7) 14 ltac:(lia)) as Hdm. fold k in Hdm.
  pose proof (Z.mod_pos_bound (20 * n + 7) 14 ltac:(lia)) as Hm.
  set (m := (20 * n + 7) mod 14) in *.
  assert (Hodd : 1 <= m <= 13) by lia.
  assert (HN : (0 < inject_Z n)%Q) by (apply (Z_to_Q_lt 0); lia).
  assert (HN2 : (inject_Z n <= 4294967296 # 1)%Q).
  { apply (Z_to_Q_le n 4294967296). lia. }
  assert (Hq : (0 < inject_Z n / 7)%Q).
  { apply Qlt_shift_div_l; [reflexivity|]. lra. }
  pose proof (fl_error _ Hq) as [E1 E2]. unfold unit_roundoff in E1, E2.
  assert (Hz : (inject_Z (20 * n + 7) == inject_Z (14 * k + m))%Q) by (rewrite Hdm; reflexivity).
  rewrite !inject_Z_plus, !inject_Z_mult in Hz.
  change (inject_Z 20) with (20 # 1)%Q in Hz. change (inject_Z 7) with (7 # 1)%Q in Hz.
  change (inject_Z 14) with (14 # 1)%Q in Hz.
  assert (HM1 : (1 # 1 <= inject_Z m)%Q) by (apply (Z_to_Q_le 1 m); lia).
  assert (HM2 : (inject_Z m <= 13 # 1)%Q) by (apply (Z_to_Q_le m 13); lia).
  assert (Hdiv : (inject_Z n / 7 == inject_Z n * (1 # 7))%Q) by (field).
  apply Qfloor_unique.
  - generalize dependent (fl (inject_Z n / 7)). intros a E1 E2. lra.
  - rewrite inject_Z_plus. change (inject_Z 1) with (1 # 1)%Q.
    generalize dependent (fl (inject_Z n / 7)). intros a E1 E2. lra.
Qed.

(** X20: the first pattern line of [basicAnalysis].  For a non-empty list
    (a JavaScript array, so shorter than 2^32) it shows the number of tasks
    divided by seven, to one decimal: with [k = (20 n + 7) / 14] the line
    reads [k / 10], a point and the digit [k mod 10], and [k / 10] is the
    tenth nearest to [n / 7]; rounding [n / 7] to a double first never
    moves it to another tenth.  The text calls this number the tasks per
    week. *)
Theorem average_line (tasks completedTasks incompleteTasks : list Task) :
  tasks <> [] -> len tasks < 2 ^ 32 ->
  let k := (20 * len tasks + 7) / 14 in
  nth_error (patterns (basicAnalysis tasks completedTasks incompleteTasks)) 0
  = Some ("You create an average of " ++ show (k / 10) ++ "." ++ show (k mod 10)
          ++ " tasks per week")%string
  /\ Z.abs (7 * k - 10 * len tasks) <= 3.
Proof.
  intros Hne Hlt k.
  assert (Hpos : 0 < len tasks).
  { apply len_positive in Hne. rewrite Z.gtb_ltb in Hne. apply Z.ltb_lt, Hne. }
  split.
  - unfold basicAnalysis. cbn [patterns]. rewrite (len_positive tasks Hne).
    cbn [nth_error]. rewrite toFixed_1. cbv zeta.
    rewrite tenths_of_sevenths by lia. fold k.
    rewrite !string_append_assoc. reflexivity.
  - unfold k.
    pose proof (Z.div_mod (20 * len tasks + 7) 14 ltac:(lia)) as Hdm.
    pose proof (Z.mod_pos_bound (20 * len tasks + 7) 14 ltac:(lia)) as Hm.
    lia.
Qed.

Lemma average_line_witness :
  let tasks := [ mkTask 1 "Buy milk" None "todo" (Some "high"%string) 1000 None 0;
                 mkTask 2 "Walk" None "done" None 2000 (Some 3000) 1;
                 mkTask 3 "Read" None "todo" None 2000 None 2 ] in
  nth_error (patterns (fallback tasks)) 0
  = Some "You create an average of 0.4 tasks per week"%string.
Proof.
  intros tasks.
  exact (proj1 (average_line tasks (completed_of tasks) (incomplete_of tasks)
                  ltac:(discriminate) ltac:(reflexivity))).
Defined.

(** The whole percent [toFixed(0)] prints for [c] out of [n]: the exact
    rate rounded to the nearest whole number, except that a rate exactly
    halfway between two whole numbers may come out as the lower one. *)
Lemma rounded_percentage (c n : Z) :
  0 < c <= n -> n < 2 ^ 32 ->
  (200 * c + n) / (2 * n) - 1 <= rounded (percentage c n) <= (200 * c + n) / (2 * n)
  /\ ((200 * c + n) mod (2 * n) <> 0 -> rounded (percentage c n) = (200 * c + n) / (2 * n)).
Proof.
  intros Hc Hn. unfold rounded, percentage, fmul, fdiv.
  set (k := (200 * c + n) / (2 * n)).
  pose proof (Z.div_mod (200 * c + n) (2 * n) ltac:(lia)) as Hdm. fold k in Hdm.
  pose proof (Z.mod_pos_bound (200 * c + n) (2 * n) ltac:(lia)) as Hm.
  set (m := (200 * c + n) mod (2 * n)) in *.
  set (N := inject_Z n). set (C := inject_Z c). set (K := inject_Z k). set (M := inject_Z m).
  assert (HN : (0 < N)%Q) by (apply (Z_to_Q_lt 0); lia).
  assert (HN2 : (N <= 4294967295 # 1)%Q) by (apply (Z_to_Q_le n 4294967295); lia).
  assert (HC : (0 < C)%Q) by (apply (Z_to_Q_lt 0); lia).
  assert (HCN : (C <= N)%Q) by (apply Z_to_Q_le; lia).
  assert (HM0 : (0 <= M)%Q) by (apply (Z_to_Q_le 0); lia).
  assert (HM2 : (M + 1 <= 2 * N)%Q).
  { pose proof (Z_to_Q_le (m + 1) (2 * n) ltac:(lia)) as H.
    rewrite inject_Z_plus, inject_Z_mult in H. exact H. }
  assert (Hz : (200 * C + N == 2 * N * K + M)%Q).
  { assert (H : (inject_Z (200 * c + n) == inject_Z (2 * n * k + m))%Q)
      by (rewrite Hdm; reflexivity).
    rewrite !inject_Z_plus, !inject_Z_mult in H. exact H. }
  set (r := (C / N)%Q). set (s := (M / (2 * N))%Q).
  assert (Hr0 : (0 < r)%Q).
  { unfold r. apply Qlt_shift_div_l; [exact HN|]. lra. }
  assert (Hr1 : (r <= 1)%Q).
  { unfold r. apply Qle_shift_div_r; [exact HN|]. lra. }
  assert (Hs0 : (0 <= s)%Q).
  { unfold s. apply Qle_shift_div_l; [lra|]. lra. }
  assert (Hs1 : (s <= 1 - (1 # 8589934590))%Q).
  { unfold s. apply Qle_shift_div_r; [lra|]. lra. }
  assert (Hs2 : (1 <= M -> 1 # 8589934590 <= s)%Q).
  { intros H. unfold s. apply Qle_shift_div_l; [lra|]. lra. }
  assert (Hrs : (100 * r + (1 # 2) == K + s)%Q).
  { unfold r, s.
    assert (E : (C == (2 * N * K + M - N) * (1 # 200))%Q) by (rewrite <- Hz; ring).
    rewrite E. field. lra. }
  pose proof (fl_error r Hr0) as [A1 A2].
  assert (Ha : (0 < fl r * 100)%Q).
  { apply Qmult_lt_0_compat; [apply fl_pos_lt, Hr0|reflexivity]. }
  pose proof (fl_error _ Ha) as [B1 B2]. unfold unit_roundoff in *.
  fold N C r.
  generalize dependent (fl (fl r * 100)). intros b B1 B2.
  generalize dependent (fl r). intros a A1 A2 Ha B1 B2.
  assert (Hlow : (K - (1 # 17179869184) <= b + (1 # 2))%Q) by lra.
  assert (Hhigh : (b + (1 # 2) < K + 1)%Q) by lra.
  split; [split|].
  - change (k - 1) with (k + -1). rewrite <- (Qfloor_Z (k + -1)).
    apply Qfloor_resp_le. rewrite inject_Z_plus. fold K.
    change (inject_Z (-1)) with (-1 # 1)%Q. lra.
  - apply Z.lt_succ_r. rewrite Zlt_Qlt.
    eapply Qle_lt_trans; [apply Qfloor_le|].
    unfold Z.succ. rewrite inject_Z_plus. fold K. change (inject_Z 1) with (1 # 1)%Q. lra.
  - intros Hm0. apply Qfloor_unique.
    + fold K. assert (H1 : (1 <= M)%Q) by (apply (Z_to_Q_le 1 m); lia).
      specialize (Hs2 H1). lra.
    + rewrite inject_Z_plus. fold K. change (inject_Z 1) with (1 # 1)%Q. lra.
Qed.

(** X21: the completion-rate line of the heuristic.  When some task is
    done (and the list is a JavaScript array, so shorter than 2^32) the
    first completion insight shows a whole percent between 0 and 100: the
    exact rate [100 c / n] rounded to the nearest whole number, which is
    [(200 c + n) / (2 n)]; only a rate exactly halfway between two whole
    numbers can be shown as the lower of the two. *)
Theorem completion_rate_line (tasks : list Task) :
  completed_of tasks <> [] -> len tasks < 2 ^ 32 ->
  let c := len (completed_of tasks) in
  let n := len tasks in
  let shown := rounded (percentage c n) in
  nth_error (completionInsights (fallback tasks)) 0
  = Some ("You have a " ++ show shown ++ "% completion rate")%string
  /\ 0 <= shown <= 100
  /\ (200 * c + n) / (2 * n) - 1 <= shown <= (200 * c + n) / (2 * n)
  /\ ((200 * c + n) mod (2 * n) <> 0 -> shown = (200 * c + n) / (2 * n)).
Proof.
  intros Hne Hlt c n shown.
  assert (Hc : 0 < c).
  { apply len_positive in Hne. rewrite Z.gtb_ltb in Hne. apply Z.ltb_lt, Hne. }
  assert (Hcn : c <= n) by apply len_filter_le.
  assert (Htasks : tasks <> []).
  { intros ->. unfold c, completed_of in Hc. simpl in Hc. unfold len in Hc. simpl in Hc. lia. }
  pose proof (rounded_percentage c n ltac:(lia) Hlt) as [[R1 R2] R3]. fold shown in R1, R2, R3.
  split; [|split; [|split; [split; assumption|exact R3]]].
  - unfold fallback, basicAnalysis. cbn [completionInsights].
    rewrite (len_positive _ Hne), (len_positive _ Htasks).
    fold c n. fold (percentage c n). rewrite toFixed_0. reflexivity.
  - split.
    + apply rounded_nonneg, percentage_nonneg; lia.
    + assert ((200 * c + n) / (2 * n) <= 100); [|lia].
      apply Z.lt_succ_r, Z.div_lt_upper_bound; lia.
Qed.

Lemma completion_rate_line_witness :
  let tasks := [ mkTask 1 "Buy milk" None "todo" (Some "high"%string) 1000 None 0;
                 mkTask 2 "Walk" None "done" None 2000 (Some 3000) 1;
                 mkTask 3 "Read" None "todo" None 2000 None 2 ] in
  nth_error (completionInsights (fallback tasks)) 0
  = Some "You have a 33% completion rate"%string.
Proof.
  intros tasks.
  pose proof (completion_rate_line tasks ltac:(discriminate) ltac:(reflexivity))
    as [H [_ [_ H3]]].
  cbv zeta in H, H3. rewrite H. rewrite H3; [reflexivity|discriminate].
Defined.

(** ** The insight log *)

Lemma default_confidence_positive : (0 < Insights.default_confidence)%Q.
Proof. apply fl_pos_lt. reflexivity. Qed.

Lemma confidence_or_default_nonzero (c : option Q) :
  ~ (Insights.confidence_or_default c == 0)%Q.
Proof.
  pose proof default_confidence_positive as Hd.
  unfold Insights.confidence_or_default.
  destruct c as [x|]; [|lra].
  destruct (Qeq_bool x 0) eqn:E; [lra|].
  apply Qeq_bool_neq, E.
Qed.

(** X22: what [saveInsight] stores.  When the content binds, as every
    string and every number does, exactly one row is added after the
    existing ones: numbered one past the counter, of the given type, with
    the content that was bound, a confidence that is never null and never
    zero (the given score, and 0.8 when none or zero was given) and the
    related tasks that were given, null when none or the empty text was
    given.  When the content does not bind, as [null], [undefined], a
    boolean and an object do not, the call throws and the log is as
    before. *)
Theorem saveInsight_stores_defaults (now : Z) (insight : Insights.NewInsight)
    (db : Insights.t) :
  (forall text,
     Insights.bind_content (Insights.n_content insight) = Return text ->
     exists row confidence,
       Insights.saveInsight now insight db
       = (Insights.mkLog (Insights.rows db ++ [row]) (Insights.seq db + 1), Return tt)
       /\ Insights.id row = Insights.seq db + 1
       /\ Insights.insight_type row = Insights.n_insight_type insight
       /\ Insights.content row = text
       /\ Insights.confidence_score row = Some confidence
       /\ ~ (confidence == 0)%Q
       /\ (forall c, Insights.n_confidence_score insight = Some c -> ~ (c == 0)%Q ->
                     confidence = c)
       /\ ((Insights.n_confidence_score insight = None
            \/ exists c, Insights.n_confidence_score insight = Some c /\ (c == 0)%Q) ->
           confidence = Insights.default_confidence)
       /\ Insights.related_tasks row <> Some ""%string
       /\ (forall s, Insights.n_related_tasks insight = Some s -> s <> ""%string ->
                     Insights.related_tasks row = Some s)
       /\ ((Insights.n_related_tasks insight = None
            \/ Insights.n_related_tasks insight = Some ""%string) ->
           Insights.related_tasks row = None))
  /\ (forall e,
        Insights.bind_content (Insights.n_content insight) = Throw e ->
        Insights.saveInsight now insight db = (db, Throw e))
  /\ (forall s, Insights.bind_content (VStr s) = Return (Insights.Text s))
  /\ (forall x, Insights.bind_content (VNum x) = Return (Insights.NumberText x))
  /\ (forall v,
        v = VNull \/ v = VUndefined \/ (exists b, v = VBool b) \/ (exists f, v = VObj f) ->
        exists e, Insights.bind_content v = Throw e).
Proof.
  split; [|split; [|split; [|split]]].
  - intros text Hb. unfold Insights.saveInsight. rewrite Hb.
    eexists. exists (Insights.confidence_or_default (Insights.n_confidence_score insight)).
    split; [reflexivity|]. cbn [Insights.id Insights.insight_type Insights.content
                                 Insights.confidence_score Insights.related_tasks].
    repeat split.
    + apply confidence_or_default_nonzero.
    + intros c -> Hc. unfold Insights.confidence_or_default.
      destruct (Qeq_bool c 0) eqn:E; [|reflexivity].
      apply Qeq_bool_eq in E. contradiction.
    + intros [->|[c [-> Hc]]]; [reflexivity|].
      unfold Insights.confidence_or_default.
      destruct (Qeq_bool c 0) eqn:E; [reflexivity|].
      apply Qeq_bool_neq in E. contradiction.
    + unfold or_else_null, truthy, truthy_string.
      destruct (Insights.n_related_tasks insight) as [s|]; [|discriminate].
      destruct (s =? "")%string eqn:E; simpl; [discriminate|].
      intros H. injection H as ->. discriminate E.
    + intros s -> Hs. unfold or_else_null, truthy, truthy_string.
      apply String.eqb_neq in Hs. rewrite Hs. reflexivity.
    + intros [->| ->]; reflexivity.
  - intros e Hb. unfold Insights.saveInsight. rewrite Hb. reflexivity.
  - reflexivity.
  - reflexivity.
  - intros v [->|[->|[[b ->]|[f ->]]]]; eexists; reflexivity.
Qed.

Lemma StronglySorted_app_inv {A : Type} (R : A -> A -> Prop) (l1 l2 : list A) :
  StronglySorted R (l1 ++ l2) ->
  StronglySorted R l1 /\ forall a b, In a l1 -> In b l2 -> R a b.
Proof.
  induction l1 as [|x l1 IH]; simpl; intros H.
  - split; [constructor|]. intros a b [].
  - inversion H as [|? ? Hs Hx]; subst. destruct (IH Hs) as [S1 S2].
    apply Forall_app in Hx. destruct Hx as [Hx1 Hx2]. split.
    + constructor; assumption.
    + intros a b [<-|Ha] Hb.
      * rewrite Forall_forall in Hx2. apply Hx2, Hb.
      * apply S2; assumption.
Qed.

(** [ORDER BY key DESC LIMIT k]: the first [k] rows, largest key first,
    and no row left out has a larger key than a row returned. *)
Lemma newest_first_limit {A : Type} (key : A -> Z) (k : nat) (l : list A) :
  let s := firstn k (index_desc key l) in
  List.length s = Nat.min k (List.length l)
  /\ StronglySorted (fun a b => key b <= key a) s
  /\ exists rest,
       Permutation (s ++ rest) l
       /\ forall a b, In a s -> In b rest -> key b <= key a.
Proof.
  intros s. unfold s.
  set (sorted := index_desc key l).
  pose proof (index_desc_sorted key l) as Hs. fold sorted in Hs.
  rewrite <- (firstn_skipn k sorted) in Hs.
  apply StronglySorted_app_inv in Hs. destruct Hs as [S1 S2].
  split; [|split; [exact S1|]].
  - rewrite length_firstn. unfold sorted.
    rewrite (Permutation_length (index_desc_perm key l)). reflexivity.
  - exists (skipn k sorted). split; [|exact S2].
    rewrite firstn_skipn. apply index_desc_perm.
Qed.

(** X23: [GET /api/ai/insights] and [getRecentInsights].  The request
    leaves the log alone and answers 200 with the ten newest insights, or
    all of them when there are fewer: newest first, each a row of the log,
    and no row left out is newer than a row returned. *)
Theorem recent_insights_newest_ten (db : Insights.t) :
  let l := Insights.getRecentInsights db in
  Insights.get_insights db = (db, Insights.mkResponse 200 (Insights.PInsights l))
  /\ List.length l = Nat.min 10 (List.length (Insights.rows db))
  /\ StronglySorted (fun a b => Insights.created_at b <= Insights.created_at a) l
  /\ exists rest,
       Permutation (l ++ rest) (Insights.rows db)
       /\ forall a b, In a l -> In b rest -> Insights.created_at b <= Insights.created_at a.
Proof.
  intros l. split; [reflexivity|].
  apply (newest_first_limit Insights.created_at 10 (Insights.rows db)).
Qed.

(** X24: [insightsQueries.getByType].  The five newest insights of the
    type asked for, or all of them when there are fewer: every row returned
    has that type, they come newest first, and no row of that type left
    out is newer than a row returned. *)
Theorem insights_by_type_newest_five (ty : Insights.InsightType) (db : Insights.t) :
  let l := Insights.insightsQueries.getByType ty db in
  let of_type :=
    filter (fun r => Insights.InsightType_eqb (Insights.insight_type r) ty) (Insights.rows db) in
  List.length l = Nat.min 5 (List.length of_type)
  /\ Forall (fun r => Insights.insight_type r = ty /\ In r (Insights.rows db)) l
  /\ StronglySorted (fun a b => Insights.created_at b <= Insights.created_at a) l
  /\ exists rest,
       Permutation (l ++ rest) of_type
       /\ forall a b, In a l -> In b rest -> Insights.created_at b <= Insights.created_at a.
Proof.
  intros l of_type.
  pose proof (newest_first_limit Insights.created_at 5 of_type) as [H1 [H2 [rest [H3 H4]]]].
  fold l in H1, H2, H3, H4.
  split; [exact H1|]. split; [|split; [exact H2|exists rest; split; assumption]].
  apply Forall_forall. intros r Hr.
  assert (Hin : In r of_type).
  { apply (Permutation_in r H3), in_or_app. left. exact Hr. }
  apply filter_In in Hin. destruct Hin as [Hin Hty]. split; [|exact Hin].
  destruct (Insights.insight_type r), ty; try discriminate Hty; reflexivity.
Qed.

(** ** The analyze handler *)

Lemma len_cons {A : Type} (x : A) (l : list A) : len (x :: l) = 1 + len l.
Proof. unfold len. simpl List.length. lia. Qed.

Lemma len_app {A : Type} (l1 l2 : list A) : len (l1 ++ l2) = len l1 + len l2.
Proof. unfold len. rewrite length_app. lia. Qed.

Lemma text_rows_length now ty related first l :
  List.length (text_rows now ty related first l) = List.length l.
Proof.
  revert first. induction l as [|s l IH]; intros first; simpl; [reflexivity|].
  rewrite IH. reflexivity.
Qed.

Lemma text_rows_content now ty related first l :
  map (fun row => (Insights.insight_type row, Insights.content row))
      (text_rows now ty related first l)
  = map (fun s => (ty, Insights.Text s)) l.
Proof.
  revert first. induction l as [|s l IH]; intros first; simpl; [reflexivity|].
  rewrite IH. reflexivity.
Qed.

Lemma text_rows_numbered now ty related first l :
  numbered first (text_rows now ty related first l).
Proof.
  revert first. induction l as [|s l IH]; intros first i row H.
  - destruct i; discriminate H.
  - destruct i as [|i]; simpl in H.
    + injection H as <-. simpl. lia.
    + apply IH in H. rewrite H. lia.
Qed.

Lemma text_rows_columns now ty related first l :
  Forall (fun row => Insights.insight_type row = ty
                     /\ Insights.related_tasks row = related
                     /\ Insights.confidence_score row = Some Insights.default_confidence)
         (text_rows now ty related first l).
Proof.
  revert first. induction l as [|s l IH]; intros first; simpl; constructor.
  - simpl. repeat split.
  - apply IH.
Qed.

Lemma numbered_app (first : Z) (l1 l2 : list Insights.AIInsight) :
  numbered first l1 -> numbered (first + len l1) l2 -> numbered first (l1 ++ l2).
Proof.
  intros H1 H2 i row H.
  destruct (Nat.lt_ge_cases i (List.length l1)) as [L|L].
  - rewrite nth_error_app1 in H by exact L. apply H1, H.
  - rewrite nth_error_app2 in H by exact L. apply H2 in H. rewrite H.
    unfold len. lia.
Qed.

(** Saving a list of texts: one row each, in order. *)
Lemma save_each_texts now ty related l db :
  or_else_null related None = related ->
  Insights.save_each now ty related (map VStr l) db
  = (Insights.mkLog (Insights.rows db ++ text_rows now ty related (Insights.seq db) l)
                    (Insights.seq db + len l), Return tt).
Proof.
  intros Hrel. revert db. induction l as [|s l IH]; intros [rows seq].
  - simpl. rewrite app_nil_r. unfold len. simpl. rewrite Z.add_0_r. reflexivity.
  - cbn [map Insights.save_each Insights.saveInsight Insights.n_content Insights.bind_content
         Insights.bind_scalar Insights.n_insight_type Insights.n_related_tasks
         Insights.n_confidence_score Insights.confidence_or_default].
    rewrite Hrel. unfold Insights.insightsQueries.create.
    cbn [Insights.rows Insights.seq]. rewrite IH.
    cbn [Insights.rows Insights.seq text_rows].
    rewrite <- app_assoc, len_cons. cbn [app]. f_equal. f_equal. lia.
Qed.

Lemma save_field_texts now analysis field ty related l db :
  get analysis field = Return (VArr (map VStr l)) ->
  or_else_null related None = related ->
  Insights.save_field now analysis field ty related db
  = (Insights.mkLog (Insights.rows db ++ text_rows now ty related (Insights.seq db) l)
                    (Insights.seq db + len l), Return tt).
Proof.
  intros Hget Hrel. unfold Insights.save_field. rewrite Hget.
  cbn [Insights.iterate]. apply save_each_texts, Hrel.
Qed.

Lemma stringify_ids_truthy (tasks : list Task) :
  or_else_null (Some (Insights.stringify_ids tasks)) None
  = Some (Insights.stringify_ids tasks).
Proof. reflexivity. Qed.

(** Every write of the handler adds rows after the existing ones. *)
Lemma extends_refl db : extends db db.
Proof.
  exists []. rewrite app_nil_r. unfold len. simpl. rewrite Z.add_0_r. split; reflexivity.
Qed.

Lemma extends_trans db1 db2 db3 : extends db1 db2 -> extends db2 db3 -> extends db1 db3.
Proof.
  intros [a [Ha1 Ha2]] [b [Hb1 Hb2]]. exists (a ++ b). split.
  - rewrite Hb1, Ha1, app_assoc. reflexivity.
  - rewrite Hb2, Ha2, len_app. lia.
Qed.

Lemma saveInsight_extends now insight db :
  extends db (fst (Insights.saveInsight now insight db)).
Proof.
  unfold Insights.saveInsight.
  destruct (Insights.bind_content (Insights.n_content insight)); [|apply extends_refl].
  eexists. split; [reflexivity|]. reflexivity.
Qed.

Lemma save_each_extends now ty related items db :
  extends db (fst (Insights.save_each now ty related items db)).
Proof.
  revert db. induction items as [|item rest IH]; intros db; simpl.
  - apply extends_refl.
  - pose proof (saveInsight_extends now (Insights.mkNew ty item related None) db) as H.
    destruct (Insights.saveInsight now (Insights.mkNew ty item related None) db) as [db' [[]|e]].
    + eapply extends_trans; [exact H|apply IH].
    + exact H.
Qed.

Lemma save_field_extends now analysis field ty related db :
  extends db (fst (Insights.save_field now analysis field ty related db)).
Proof.
  unfold Insights.save_field.
  destruct (get analysis field) as [items|e]; [|apply extends_refl].
  destruct (Insights.iterate items) as [l|e]; [|apply extends_refl].
  apply save_each_extends.
Qed.

Section AnalyzeHandler.

Variable fetch : string -> string -> string -> outcome HttpResponse.
Variable JSON_parse : string -> outcome value.

(** X25: [GET /api/ai/analyze] when the service answers with a result it
    built itself (the heuristic or the placeholders).  The response is 200
    with that result, nothing more is logged, and the insight log gains one
    row per line after the rows it had: the patterns, then the completion
    insights, the failure reasons and the recommendations, each in order
    and with its type, numbered consecutively from the counter, all with
    confidence 0.8, the pattern rows with the ids of all tasks as related
    tasks and the others with none. *)
Theorem analyze_saves_every_line (this : AIService) (now : Z) (store : Db.t)
    (db : Insights.t) (r : AnalysisResult) (log : list event) :
  analyzeTasks fetch JSON_parse this (analyticsQueries.getAllTasks store)
  = (Return (Built r), log) ->
  exists added,
    Insights.get_analyze fetch JSON_parse this now store db
    = (Insights.mkLog (Insights.rows db ++ added) (Insights.seq db + len added), log,
       Insights.mkResponse 200 (Insights.PAnalysis (Built r)))
    /\ map (fun row => (Insights.insight_type row, Insights.content row)) added
       = map (fun s => (Insights.pattern, Insights.Text s)) (patterns r)
         ++ map (fun s => (Insights.completion, Insights.Text s)) (completionInsights r)
         ++ map (fun s => (Insights.failure, Insights.Text s)) (failureReasons r)
         ++ map (fun s => (Insights.recommendation, Insights.Text s)) (recommendations r)
    /\ numbered (Insights.seq db) added
    /\ Forall (fun row =>
                 Insights.confidence_score row = Some Insights.default_confidence
                 /\ Insights.related_tasks row
                    = related_of (analyticsQueries.getAllTasks store)
                                 (Insights.insight_type row))
              added.
Proof.
  intros H.
  set (tasks := analyticsQueries.getAllTasks store) in *.
  set (ids := Some (Insights.stringify_ids tasks)).
  set (a1 := text_rows now Insights.pattern ids (Insights.seq db) (patterns r)).
  set (s1 := Insights.seq db + len (patterns r)).
  set (a2 := text_rows now Insights.completion None s1 (completionInsights r)).
  set (s2 := s1 + len (completionInsights r)).
  set (a3 := text_rows now Insights.failure None s2 (failureReasons r)).
  set (s3 := s2 + len (failureReasons r)).
  set (a4 := text_rows now Insights.recommendation None s3 (recommendations r)).
  assert (L1 : len a1 = len (patterns r)) by (unfold len, a1; rewrite text_rows_length; reflexivity).
  assert (L2 : len a2 = len (completionInsights r))
    by (unfold len, a2; rewrite text_rows_length; reflexivity).
  assert (L3 : len a3 = len (failureReasons r))
    by (unfold len, a3; rewrite text_rows_length; reflexivity).
  assert (L4 : len a4 = len (recommendations r))
    by (unfold len, a4; rewrite text_rows_length; reflexivity).
  exists (a1 ++ a2 ++ a3 ++ a4). split; [|split; [|split]].
  - unfold Insights.get_analyze. fold tasks. cbv zeta. rewrite H. fold ids.
    rewrite (save_field_texts now (Insights.as_value (Built r)) "patterns" Insights.pattern ids (patterns r) db
               eq_refl (stringify_ids_truthy tasks)).
    fold a1 s1.
    rewrite (save_field_texts now (Insights.as_value (Built r)) "completionInsights" Insights.completion None
               (completionInsights r) _ eq_refl eq_refl).
    cbn [Insights.rows Insights.seq]. fold a2 s2.
    rewrite (save_field_texts now (Insights.as_value (Built r)) "failureReasons" Insights.failure None
               (failureReasons r) _ eq_refl eq_refl).
    cbn [Insights.rows Insights.seq]. fold a3 s3.
    rewrite (save_field_texts now (Insights.as_value (Built r)) "recommendations" Insights.recommendation None
               (recommendations r) _ eq_refl eq_refl).
    cbn [Insights.rows Insights.seq]. fold a4.
    rewrite <- !app_assoc, !len_app, L1, L2, L3, L4.
    f_equal. f_equal. f_equal. unfold s3, s2, s1. lia.
  - rewrite !map_app. unfold a1, a2, a3, a4. rewrite !text_rows_content. reflexivity.
  - apply numbered_app; [apply text_rows_numbered|]. rewrite L1. fold s1.
    apply numbered_app; [apply text_rows_numbered|]. rewrite L2. fold s2.
    apply numbered_app; [apply text_rows_numbered|]. rewrite L3. fold s3.
    apply text_rows_numbered.
  - rewrite !Forall_app. repeat split.
    + eapply Forall_impl; [|apply (text_rows_columns now Insights.pattern ids)].
      intros row [-> [-> ->]]. split; reflexivity.
    + eapply Forall_impl; [|apply (text_rows_columns now Insights.completion None)].
      intros row [-> [-> ->]]. split; reflexivity.
    + eapply Forall_impl; [|apply (text_rows_columns now Insights.failure None)].
      intros row [-> [-> ->]]. split; reflexivity.
    + eapply Forall_impl; [|apply (text_rows_columns now Insights.recommendation None)].
      intros row [-> [-> ->]]. split; reflexivity.
Qed.

(** X26: a reply that is an object with a list of pattern texts but no
    completion insights.  The handler has no rollback: the request fails
    with 500 and the error is logged, and the pattern rows written before
    the failure stay in the log. *)
Theorem analyze_partial_writes_stay (this : AIService) (now : Z) (store : Db.t)
    (db : Insights.t) (fields : list (string * value)) (lines : list string)
    (log : list event) :
  analyzeTasks fetch JSON_parse this (analyticsQueries.getAllTasks store)
  = (Return (Parsed (VObj fields)), log) ->
  lookup "patterns" fields = VArr (map VStr lines) ->
  is_nullish (lookup "completionInsights" fields) = true ->
  exists added,
    Insights.get_analyze fetch JSON_parse this now store db
    = (Insights.mkLog (Insights.rows db ++ added) (Insights.seq db + len added),
       log ++ [ConsoleError "AI analysis error:"],
       Insights.mkResponse 500 (Insights.PError "Failed to analyze tasks"))
    /\ map (fun row => (Insights.insight_type row, Insights.content row)) added
       = map (fun s => (Insights.pattern, Insights.Text s)) lines.
Proof.
  intros H Hp Hc.
  set (tasks := analyticsQueries.getAllTasks store) in *.
  set (ids := Some (Insights.stringify_ids tasks)).
  exists (text_rows now Insights.pattern ids (Insights.seq db) lines).
  split; [|apply text_rows_content].
  unfold Insights.get_analyze. fold tasks. cbv zeta. rewrite H. fold ids.
  cbn [Insights.as_value].
  rewrite (save_field_texts now (VObj fields) "patterns" Insights.pattern ids lines db
             (f_equal Return Hp) (stringify_ids_truthy tasks)).
  unfold Insights.save_field at 1. cbn [get].
  destruct (lookup "completionInsights" fields); try discriminate Hc;
    cbn [Insights.iterate]; unfold len; rewrite text_rows_length; reflexivity.
Qed.

(** X27: whatever the service and the reply, [GET /api/ai/analyze] only
    adds to the insight log: the rows it had stay first and unchanged and
    the counter advances by the number of rows added.  The answer is 200
    with the analysis and the effects of the service alone, or 500 with
    [Failed to analyze tasks] and the error logged last. *)
Theorem analyze_only_appends (this : AIService) (now : Z) (store : Db.t) (db : Insights.t) :
  let tasks := analyticsQueries.getAllTasks store in
  let result := Insights.get_analyze fetch JSON_parse this now store db in
  let service := analyzeTasks fetch JSON_parse this tasks in
  extends db (fst (fst result))
  /\ ((exists analysis,
         fst service = Return analysis
         /\ snd (fst result) = snd service
         /\ snd result = Insights.mkResponse 200 (Insights.PAnalysis analysis))
      \/ (snd (fst result) = snd service ++ [ConsoleError "AI analysis error:"]
          /\ snd result = Insights.mkResponse 500 (Insights.PError "Failed to analyze tasks"))).
Proof.
  intros tasks result service. unfold result, Insights.get_analyze. fold tasks. cbv zeta.
  fold service. destruct service as [[analysis|e] log]; cbn [fst snd].
  2:{ split; [apply extends_refl|]. right. split; reflexivity. }
  pose proof (save_field_extends now (Insights.as_value analysis) "patterns"
                Insights.pattern (Some (Insights.stringify_ids tasks)) db) as E1.
  destruct (Insights.save_field now (Insights.as_value analysis) "patterns"
              Insights.pattern (Some (Insights.stringify_ids tasks)) db) as [db1 [[]|e1]];
    cbn [fst snd] in *.
  2:{ split; [exact E1|]. right. split; reflexivity. }
  pose proof (save_field_extends now (Insights.as_value analysis) "completionInsights"
                Insights.completion None db1) as E2.
  destruct (Insights.save_field now (Insights.as_value analysis) "completionInsights"
              Insights.completion None db1) as [db2 [[]|e2]]; cbn [fst snd] in *.
  2:{ split; [exact (extends_trans _ _ _ E1 E2)|]. right. split; reflexivity. }
  pose proof (save_field_extends now (Insights.as_value analysis) "failureReasons"
                Insights.failure None db2) as E3.
  destruct (Insights.save_field now (Insights.as_value analysis) "failureReasons"
              Insights.failure None db2) as [db3 [[]|e3]]; cbn [fst snd] in *.
  2:{ split; [exact (extends_trans _ _ _ (extends_trans _ _ _ E1 E2) E3)|].
      right. split; reflexivity. }
  pose proof (save_field_extends now (Insights.as_value analysis) "recommendations"
                Insights.recommendation None db3) as E4.
  destruct (Insights.save_field now (Insights.as_value analysis) "recommendations"
              Insights.recommendation None db3) as [db4 [[]|e4]]; cbn [fst snd] in *.
  2:{ split; [exact (extends_trans _ _ _ (extends_trans _ _ _ (extends_trans _ _ _ E1 E2) E3) E4)|].
      right. split; reflexivity. }
  split; [exact (extends_trans _ _ _ (extends_trans _ _ _ (extends_trans _ _ _ E1 E2) E3) E4)|].
  left. exists analysis. repeat split.
Qed.

End AnalyzeHandler.

(** No credential: the heuristic answers and its lines are stored. *)
Lemma analyze_saves_every_line_witness :
  let store := mkDb [ mkTask 1 "Buy milk" None "todo" (Some "high"%string) 1000 None 0 ] 1 in
  let fetch := fun _ _ _ : string => Throw (A := HttpResponse) "unreachable" in
  let JSON_parse := fun _ : string => Throw (A := value) "SyntaxError" in
  exists added,
    Insights.get_analyze fetch JSON_parse (mkService "") 5000 store Insights.empty
    = (Insights.mkLog added (len added), [],
       Insights.mkResponse 200
         (Insights.PAnalysis (Built (fallback (analyticsQueries.getAllTasks store))))).
Proof.
  intros store fetch JSON_parse.
  destruct (analyze_saves_every_line fetch JSON_parse (mkService "") 5000 store
              Insights.empty (fallback (analyticsQueries.getAllTasks store)) []
              eq_refl) as [added [H _]].
  exists added. exact H.
Defined.

(** A reply with one pattern and nothing else. *)
Lemma analyze_partial_writes_stay_witness :
  let store := mkDb [ mkTask 1 "Buy milk" None "todo" (Some "high"%string) 1000 None 0 ] 1 in
  let reply :=
    VObj [ ("choices"%string,
            VArr [ VObj [ ("message"%string,
                           VObj [ ("content"%string, VStr "{}") ]) ] ]) ] in
  let fetch := fun _ _ _ : string => Return (mkHttp true (Return "body"%string)) in
  let JSON_parse := fun s : string =>
    if (s =? "body")%string then Return reply
    else Return (VObj [ ("patterns"%string, VArr [ VStr "Mornings work best" ]) ]) in
  exists added,
    fst (Insights.get_analyze fetch JSON_parse (mkService "gsk") 5000 store Insights.empty)
    = (Insights.mkLog added 1,
       snd (analyzeTasks fetch JSON_parse (mkService "gsk")
              (analyticsQueries.getAllTasks store))
       ++ [ConsoleError "AI analysis error:"])
    /\ map Insights.content added = [ Insights.Text "Mornings work best" ].
Proof.
  intros store reply fetch JSON_parse.
  destruct (analyze_partial_writes_stay fetch JSON_parse (mkService "gsk") 5000 store
              Insights.empty
              [ ("patterns"%string, VArr [ VStr "Mornings work best" ]) ]
              [ "Mornings work best"%string ]
              (snd (analyzeTasks fetch JSON_parse (mkService "gsk")
                      (analyticsQueries.getAllTasks store)))
              ltac:(vm_compute; reflexivity) eq_refl eq_refl) as [added [H1 H2]].
  exists added. split.
  - rewrite H1. cbn [fst]. f_equal. f_equal.
    apply (f_equal (@List.length _)) in H2. rewrite length_map in H2.
    unfold len. rewrite H2. reflexivity.
  - apply (f_equal (map snd)) in H2. rewrite map_map in H2. exact H2.
Defined.

(** * The handlers on any JSON *)

Ltac break_match :=
  match goal with
  | |- context [match ?x with _ => _ end] => destruct x eqn:?
  end.

Ltac break_match_in H :=
  match type of H with
  | context [match ?x with _ => _ end] => destruct x eqn:?
  end.

(** ** The driver *)

Lemma bind_value_one (v : value) (b : Wire.Bound) (rest : list value) (named : bool) :
  Wire.bind_value v = Return b ->
  Wire.bind_arguments named (v :: rest)
  = match Wire.bind_arguments named rest with
    | Return bs => Return (b :: bs)
    | Throw e => Throw e
    end.
Proof. destruct v; simpl; intros H; try discriminate H; injection H as <-; reflexivity. Qed.

Lemma bind_value_refused (v : value) (e : string) (rest : list value) (named : bool) :
  Wire.bind_value v = Throw e ->
  (forall l, v <> VArr l) -> (forall f, v <> VObj f) ->
  exists e', Wire.bind_arguments named (v :: rest) = Throw e'.
Proof.
  destruct v; simpl; intros H Ha Ho; try discriminate H.
  - eexists. reflexivity.
  - exfalso. apply (Ha l). reflexivity.
  - exfalso. apply (Ho fields). reflexivity.
Qed.

(** A first argument that binds as one value supplies the first parameter. *)
Lemma bind_parameters_first (n : nat) (v : value) (b : Wire.Bound) (rest : list value)
    (bs : list Wire.Bound) :
  Wire.bind_value v = Return b ->
  Wire.bind_parameters n (v :: rest) = Return bs ->
  exists bs', bs = b :: bs'.
Proof.
  intros Hv. unfold Wire.bind_parameters. rewrite (bind_value_one v b rest false Hv).
  destruct (Wire.bind_arguments false rest) as [bs'|e]; [|discriminate].
  destruct (_ =? _)%nat; [|discriminate].
  intros H. injection H as <-. exists bs'. reflexivity.
Qed.

(** Values that are strings, [null] or absent bind one to one. *)
Lemma bind_arguments_values (args : list value) (named : bool) :
  Forall (fun v => exists b, Wire.bind_value v = Return b) args ->
  exists bs, Wire.bind_arguments named args = Return bs
             /\ Forall2 (fun v b => Wire.bind_value v = Return b) args bs.
Proof.
  induction 1 as [|v args [b Hb] _ [bs [IH1 IH2]]].
  - exists []. split; [reflexivity|constructor].
  - exists (b :: bs). rewrite (bind_value_one v b args named Hb), IH1.
    split; [reflexivity|constructor; assumption].
Qed.

(** ** The store *)

Section WireFacts.

Context {sqlite : Wire.Engine}.

Lemma wire_getById_Some (i : Z) (db : Wire.t) (x : Wire.Row) :
  Wire.taskQueries.getById i db = Some x -> In x (Wire.tasks db) /\ Wire.id x = i.
Proof.
  unfold Wire.taskQueries.getById. intros H. apply find_some in H.
  destruct H as [H1 H2]. split; [exact H1|]. apply Z.eqb_eq, H2.
Qed.

Lemma wire_find_map (i : Z) (f : Wire.Row -> Wire.Row) (l : list Wire.Row) :
  (forall x, Wire.id (f x) = Wire.id x) ->
  find (fun x => Wire.id x =? i) (map f l)
  = option_map f (find (fun x => Wire.id x =? i) l).
Proof.
  intros Hf. induction l as [|x l IH]; simpl; [reflexivity|].
  rewrite Hf. destruct (Wire.id x =? i); [reflexivity|exact IH].
Qed.

(** What [update] writes: the row of the id, and nothing else. *)
Lemma wire_update_inv (ttl desc st prio : Wire.Bound) (done_at : option Z) (i : Z)
    (db db' : Wire.t) (existing : Wire.Row) :
  Wire.taskQueries.getById i db = Some existing ->
  Wire.taskQueries.update ttl desc st prio done_at i db = Return db' ->
  exists t s,
    Wire.text_column ttl = Some t /\ Wire.text_column st = Some s
    /\ db' = Wire.mkDb
               (map (fun x =>
                       if Wire.id x =? i
                       then Wire.mkRow (Wire.id x) t (Wire.text_column desc) s
                                       (Wire.text_column prio) (Wire.created_at x) done_at
                                       (Wire.position x)
                       else x)
                    (Wire.tasks db))
               (Wire.seq db)
    /\ Wire.taskQueries.getById i db'
       = Some (Wire.mkRow (Wire.id existing) t (Wire.text_column desc) s
                          (Wire.text_column prio) (Wire.created_at existing) done_at
                          (Wire.position existing)).
Proof.
  intros Hx. unfold Wire.taskQueries.update. rewrite Hx.
  destruct (Wire.text_column ttl) as [t|]; [|discriminate].
  destruct (Wire.text_column st) as [s|]; [|discriminate].
  intros H. injection H as <-. exists t, s. repeat split.
  unfold Wire.taskQueries.getById in *. cbn [Wire.tasks].
  rewrite wire_find_map.
  - rewrite Hx. simpl. apply find_some in Hx. destruct Hx as [_ Hx]. rewrite Hx. reflexivity.
  - intros x. destruct (Wire.id x =? i); reflexivity.
Qed.

Lemma wire_update_refused (ttl desc st prio : Wire.Bound) (done_at : option Z) (i : Z)
    (db : Wire.t) (existing : Wire.Row) :
  Wire.taskQueries.getById i db = Some existing ->
  (exists e, Wire.taskQueries.update ttl desc st prio done_at i db = Throw e)
  <-> Wire.text_column ttl = None \/ Wire.text_column st = None.
Proof.
  intros Hx. unfold Wire.taskQueries.update. rewrite Hx.
  destruct (Wire.text_column ttl) as [t|], (Wire.text_column st) as [s|]; split;
    try (intros [e H]; discriminate H); try (intros [H|H]; discriminate H);
    intros _; try (eexists; reflexivity); auto.
Qed.

End WireFacts.

Section WireHandlers.

Context {sqlite : Wire.Engine}.

(** The two ways [PUT] on an existing row ends: the catch block, with the
    store as it was, or the update and the row read back. *)
Lemma put_task_inv (now i : Z) (body : value) (db : Wire.t) (existing : Wire.Row) :
  Wire.taskQueries.getById i db = Some existing ->
  Wire.put_task now i body db
  = (db, [ConsoleError "Update task error:"],
     Wire.mkResponse 500 (Wire.PError "Failed to update task"))
  \/ exists title description status priority ttl desc st prio db',
       get body "title" = Return title
       /\ get body "description" = Return description
       /\ get body "status" = Return status
       /\ get body "priority" = Return priority
       /\ Wire.bind_parameters 4
            [ if is_truthy title then title else VStr (Wire.title existing);
              match description with
              | VUndefined => Wire.nullable (Wire.description existing)
              | _ => description
              end;
              if is_truthy status then status else VStr (Wire.status existing);
              if is_truthy priority then priority
              else Wire.nullable (Wire.priority existing) ]
          = Return [ ttl; desc; st; prio ]
       /\ Wire.taskQueries.update ttl desc st prio (completion_of now status existing) i db
          = Return db'
       /\ Wire.put_task now i body db
          = (db', [], Wire.json (Wire.PTask (Wire.taskQueries.getById i db'))).
Proof.
  intros Hx. unfold Wire.put_task. rewrite Hx.
  destruct (get body "title") as [title|]; [|left; reflexivity].
  destruct (get body "description") as [description|]; [|left; reflexivity].
  destruct (get body "status") as [status|]; [|left; reflexivity].
  destruct (get body "priority") as [priority|]; [|left; reflexivity].
  fold (completion_of now status existing).
  destruct (Wire.bind_parameters 4 _) as [bs|] eqn:Hb; [|left; reflexivity].
  destruct bs as [|ttl [|desc [|st [|prio [|extra bs]]]]]; try (left; reflexivity).
  destruct (Wire.taskQueries.update ttl desc st prio _ i db) as [db'|] eqn:Hu;
    [|left; reflexivity].
  right. exists title, description, status, priority, ttl, desc, st, prio, db'.
  repeat split; assumption.
Qed.

Lemma post_task_inv (now : Z) (body : value) (db : Wire.t) :
  Wire.post_task now body db
  = (db, [ConsoleError "Create task error:"],
     Wire.mkResponse 500 (Wire.PError "Failed to create task"))
  \/ (exists title,
        get body "title" = Return title /\ is_truthy title = false
        /\ Wire.post_task now body db
           = (db, [], Wire.mkResponse 400 (Wire.PError "Title is required")))
  \/ exists title description status priority position ttl desc st prio pos db' rowid,
       get body "title" = Return title /\ is_truthy title = true
       /\ get body "description" = Return description
       /\ get body "status" = Return status
       /\ get body "priority" = Return priority
       /\ get body "position" = Return position
       /\ Wire.bind_parameters 5
            [ title; description; Wire.or_default status (VStr "todo");
              Wire.or_default priority (VStr "medium");
              Wire.or_default position (VNum 0) ]
          = Return [ ttl; desc; st; prio; pos ]
       /\ Wire.taskQueries.create now ttl desc st prio pos db = Return (db', rowid)
       /\ Wire.post_task now body db
          = (db', [], Wire.mkResponse 201 (Wire.PTask (Wire.taskQueries.getById rowid db'))).
Proof.
  unfold Wire.post_task.
  destruct (get body "title") as [title|]; [|left; reflexivity].
  destruct (get body "description") as [description|]; [|left; reflexivity].
  destruct (get body "status") as [status|]; [|left; reflexivity].
  destruct (get body "priority") as [priority|]; [|left; reflexivity].
  destruct (get body "position") as [position|]; [|left; reflexivity].
  destruct (is_truthy title) eqn:Ht; cbn [negb].
  2:{ right. left. exists title. repeat split; assumption. }
  destruct (Wire.bind_parameters 5 _) as [bs|] eqn:Hb; [|left; reflexivity].
  destruct bs as [|ttl [|desc [|st [|prio [|pos [|extra bs]]]]]]; try (left; reflexivity).
  destruct (Wire.taskQueries.create now ttl desc st prio pos db) as [[db' rowid]|] eqn:Hc;
    [|left; reflexivity].
  right. right.
  exists title, description, status, priority, position, ttl, desc, st, prio, pos, db', rowid.
  repeat split; assumption.
Qed.

Lemma create_inv (now : Z) (ttl desc st prio pos : Wire.Bound) (db db' : Wire.t) (rowid : Z) :
  Wire.taskQueries.create now ttl desc st prio pos db = Return (db', rowid) ->
  exists t s c,
    Wire.text_column ttl = Some t /\ Wire.text_column st = Some s
    /\ Wire.integer_column pos = Some c
    /\ rowid = Wire.seq db + 1
    /\ db' = Wire.mkDb
               (Wire.tasks db
                ++ [Wire.mkRow rowid t (Wire.text_column desc) s (Wire.text_column prio)
                               (Db.CURRENT_TIMESTAMP now) None c])
               rowid.
Proof.
  unfold Wire.taskQueries.create.
  destruct (Wire.text_column ttl) as [t|]; [|discriminate].
  destruct (Wire.text_column st) as [s|]; [|discriminate].
  destruct (Wire.integer_column pos) as [c|]; [|discriminate].
  intros H. injection H as <- <-. exists t, s, c. repeat split.
Qed.

Lemma with_cell_own (x : Wire.Row) : with_cell (Wire.position x) x = x.
Proof. destruct x; reflexivity. Qed.

Lemma same_but_positions_refl (db : Wire.t) : same_but_positions db db.
Proof.
  split; [reflexivity|]. induction (Wire.tasks db) as [|x l IH]; constructor; [|exact IH].
  exists (Wire.position x). symmetry. apply with_cell_own.
Qed.

Lemma same_but_positions_trans (db1 db2 db3 : Wire.t) :
  same_but_positions db1 db2 -> same_but_positions db2 db3 -> same_but_positions db1 db3.
Proof.
  intros [S1 R1] [S2 R2]. split; [congruence|].
  revert R2. generalize (Wire.tasks db3). induction R1 as [|x y l1 l2 [c Hc] _ IH];
    intros l3 R2; inversion R2 as [|y' z l2' l3' [c' Hc'] R2']; subst; constructor.
  - exists c'. reflexivity.
  - apply IH, R2'.
Qed.

Lemma updatePosition_positions (pos i : Wire.Bound) (db db' : Wire.t) :
  Wire.taskQueries.updatePosition pos i db = Return db' -> same_but_positions db db'.
Proof.
  unfold Wire.taskQueries.updatePosition.
  destruct (Wire.rowid_of i) as [k|]; [|intros H; injection H as <-; apply same_but_positions_refl].
  destruct (Wire.taskQueries.getById k db);
    [|intros H; injection H as <-; apply same_but_positions_refl].
  destruct (Wire.integer_column pos) as [c|]; [|discriminate].
  intros H. injection H as <-. split; [reflexivity|]. cbn [Wire.tasks].
  induction (Wire.tasks db) as [|x l IH]; simpl; constructor; [|exact IH].
  destruct (Wire.id x =? k).
  - exists c. reflexivity.
  - exists (Wire.position x). symmetry. apply with_cell_own.
Qed.

Lemma write_position_positions (element : value) (db db' : Wire.t) :
  Wire.write_position element db = Return db' -> same_but_positions db db'.
Proof.
  unfold Wire.write_position.
  destruct (get element "id"); [|discriminate].
  destruct (get element "position"); [|discriminate].
  destruct (Wire.bind_parameters 2 _) as [bs|]; [|discriminate].
  destruct bs as [|pos [|i [|extra bs]]]; try discriminate.
  apply updatePosition_positions.
Qed.

Lemma forEach_positions (elements : list value) (db : Wire.t) :
  same_but_positions db (fst (Wire.forEach elements db)).
Proof.
  revert db. induction elements as [|e rest IH]; intros db; simpl.
  - apply same_but_positions_refl.
  - destruct (Wire.write_position e db) as [db'|] eqn:Hw; simpl.
    + eapply same_but_positions_trans; [apply (write_position_positions _ _ _ Hw)|apply IH].
    + apply same_but_positions_refl.
Qed.

Lemma patch_reorder_positions (body : value) (db : Wire.t) :
  same_but_positions db (fst (fst (Wire.patch_reorder body db))).
Proof.
  unfold Wire.patch_reorder.
  destruct (get body "tasks") as [v|]; [|apply same_but_positions_refl].
  destruct v; try apply same_but_positions_refl.
  pose proof (forEach_positions l db) as H.
  destruct (Wire.forEach l db) as [db' [u|e]]; exact H.
Qed.

(** A property of the columns other than the position passes from a store
    to one with the same rows but for their positions. *)
Lemma same_but_positions_Forall (P : Wire.Row -> Prop) (db db' : Wire.t) :
  (forall x c, P x -> P (with_cell c x)) ->
  same_but_positions db db' ->
  Forall P (Wire.tasks db) -> Forall P (Wire.tasks db').
Proof.
  intros HP [_ R]. induction R as [|x y l1 l2 [c ->] _ IH]; intros H; constructor.
  - apply HP. inversion H; assumption.
  - apply IH. inversion H; assumption.
Qed.

(** No row is created in the future. *)
Lemma handle_created (now : Z) (r : Wire.Request) (db : Wire.t) :
  Forall (fun x => Wire.created_at x <= now) (Wire.tasks db) ->
  Forall (fun x => Wire.created_at x <= now) (Wire.tasks (fst (fst (Wire.handle now r db)))).
Proof.
  intros H. destruct r as [body|i body|body|i]; simpl.
  - destruct (post_task_inv now body db)
      as [E|[[title [_ [_ E]]]|(title & description & status & priority & position & ttl
                               & desc & st & prio & pos & db' & rowid & _ & _ & _ & _ & _
                               & _ & _ & Hc & E)]];
      rewrite E; cbn [fst]; try exact H.
    apply create_inv in Hc. destruct Hc as (t & s & c & _ & _ & _ & _ & ->).
    cbn [Wire.tasks]. apply Forall_app. split; [exact H|].
    constructor; [|constructor]. cbn [Wire.created_at].
    unfold Db.CURRENT_TIMESTAMP. pose proof (Z.mul_div_le now 1000 ltac:(lia)). lia.
  - destruct (Wire.taskQueries.getById i db) as [existing|] eqn:Hx.
    + destruct (put_task_inv now i body db existing Hx)
        as [E|(title & description & status & priority & ttl & desc & st & prio & db'
               & _ & _ & _ & _ & _ & Hu & E)];
        rewrite E; cbn [fst]; [exact H|].
      destruct (wire_update_inv _ _ _ _ _ _ _ _ _ Hx Hu) as (t & s & _ & _ & -> & _).
      cbn [Wire.tasks]. apply Forall_map. revert H. apply Forall_impl.
      intros x Hc. destruct (Wire.id x =? i); [exact Hc|exact Hc].
    + unfold Wire.put_task. rewrite Hx.
      repeat (break_match; try exact H).
  - apply (same_but_positions_Forall _ db); [|apply patch_reorder_positions|exact H].
    intros x c Hx. exact Hx.
  - unfold Wire.delete_task.
    destruct (Wire.taskQueries.getById i db); cbn [fst]; [|exact H].
    apply Forall_forall. intros x Hx. apply filter_In in Hx.
    rewrite Forall_forall in H. apply H, Hx.
Qed.

Lemma reachable_created (allowed : Wire.Request -> Prop) (s : Wire.Server) :
  Wire.reachable allowed s ->
  Forall (fun x => Wire.created_at x <= Wire.clock s) (Wire.tasks (Wire.store s)).
Proof.
  induction 1 as [t0|s now r Hs IH Hnow Hr]; simpl.
  - constructor.
  - apply handle_created. revert IH. apply Forall_impl. intros x Hx. lia.
Qed.

Lemma is_string_done (status : value) :
  Wire.is_string "done" status = true <-> status = VStr "done".
Proof.
  destruct status; simpl; split; intros H; try discriminate H.
  - apply String.eqb_eq in H. subst. reflexivity.
  - injection H as ->. reflexivity.
Qed.

(** [PUT] with texts as declared is never refused. *)
Lemma put_task_declared (now i : Z) (fields : list (string * value)) (db : Wire.t)
    (existing : Wire.Row) :
  Wire.taskQueries.getById i db = Some existing ->
  declared_texts fields ->
  Wire.code (snd (Wire.put_task now i (VObj fields) db)) = 200.
Proof.
  intros Hx (Ht & Hd & Hs & Hp). unfold Wire.put_task. cbn [get]. rewrite Hx.
  destruct (lookup "title" fields) as [| | | |ttl| |]; try discriminate Ht;
    destruct (lookup "description" fields) as [| | | |desc| |]; try discriminate Hd;
    destruct (lookup "status" fields) as [| | | |st| |]; try discriminate Hs;
    destruct (lookup "priority" fields) as [| | | |prio| |]; try discriminate Hp;
    cbn [is_truthy];
    repeat match goal with
           | |- context [truthy_string ?x] => destruct (truthy_string x)
           end;
    destruct (Wire.description existing), (Wire.priority existing);
    cbn [Wire.nullable Wire.bind_parameters Wire.bind_arguments Wire.bind_value
         List.length Nat.eqb];
    unfold Wire.taskQueries.update; rewrite Hx; reflexivity.
Qed.

(** C1, as the code has it: [PUT /api/tasks/:id] with any JSON body on an
    existing row of a reachable store, served at time [now].  Either the update is refused,
    the handler answers 500 and the store is as it was; or it answers 200
    with the row read back, which keeps its id and its creation time: when
    the body's status is the string 'done' and the row's status was not
    'done', its [completed_at] is [now], which is not before its
    [created_at], and in every other case its [completed_at] is the one the
    row had.  A body whose texts are strings is never refused. *)
Theorem update_completed_at (s : Wire.Server) (now i : Z) (body : value)
    (existing : Wire.Row) :
  Wire.reachable any_request s ->
  Wire.clock s <= now ->
  Wire.taskQueries.getById i (Wire.store s) = Some existing ->
  (Wire.put_task now i body (Wire.store s)
   = (Wire.store s, [ConsoleError "Update task error:"],
      Wire.mkResponse 500 (Wire.PError "Failed to update task"))
   \/ exists status updated,
        get body "status" = Return status
        /\ snd (Wire.put_task now i body (Wire.store s))
           = Wire.mkResponse 200 (Wire.PTask (Some updated))
        /\ Wire.taskQueries.getById i (fst (fst (Wire.put_task now i body (Wire.store s))))
           = Some updated
        /\ Wire.id updated = Wire.id existing
        /\ Wire.created_at updated = Wire.created_at existing
        /\ (status = VStr "done" -> Wire.status existing <> "done"%string ->
            Wire.completed_at updated = Some now /\ Wire.created_at updated <= now)
        /\ (status <> VStr "done" \/ Wire.status existing = "done"%string ->
            Wire.completed_at updated = Wire.completed_at existing))
  /\ (forall fields, body = VObj fields -> declared_texts fields ->
        Wire.code (snd (Wire.put_task now i body (Wire.store s))) = 200).
Proof.
  intros Hs Hnow Hx. split.
  2:{ intros fields -> Hd. apply (put_task_declared now i fields _ existing Hx Hd). }
  destruct (put_task_inv now i body (Wire.store s) existing Hx)
    as [E|(title & description & status & priority & ttl & desc & st & prio & db'
           & _ & _ & Hst & _ & _ & Hu & E)]; [left; exact E|right].
  destruct (wire_update_inv _ _ _ _ _ _ _ _ _ Hx Hu) as (t & u & _ & _ & _ & Hget).
  exists status. eexists. rewrite E. cbn [fst snd]. rewrite Hget.
  split; [exact Hst|]. split; [reflexivity|]. split; [reflexivity|].
  cbn [Wire.id Wire.created_at Wire.completed_at].
  split; [reflexivity|]. split; [reflexivity|]. unfold completion_of. split.
  - intros -> Hne. apply String.eqb_neq in Hne. cbn [Wire.is_string].
    rewrite Hne. simpl. split; [reflexivity|].
    apply (reachable_created any_request) in Hs. rewrite Forall_forall in Hs.
    apply wire_getById_Some in Hx. destruct Hx as [Hx _].
    specialize (Hs existing Hx). lia.
  - intros [Hne|He].
    + destruct (Wire.is_string "done" status) eqn:Hd; [|reflexivity].
      apply is_string_done in Hd. contradiction.
    + rewrite He. simpl. rewrite andb_false_r. reflexivity.
Qed.

End WireHandlers.

(** A task created at time 1500 and completed at time 90000. *)
Lemma update_completed_at_witness :
  let created :=
    Wire.handle (sqlite := decimal_engine) 1500
      (Wire.POST_task (VObj [ ("title"%string, VStr "Buy milk") ])) Wire.empty in
  let s := Wire.mkServer (fst (fst created)) 1500 in
  let result :=
    Wire.put_task (sqlite := decimal_engine) 90000 1
      (VObj [ ("status"%string, VStr "done") ]) (Wire.store s) in
  exists updated,
    snd result = Wire.mkResponse 200 (Wire.PTask (Some updated))
    /\ Wire.completed_at updated = Some 90000
    /\ Wire.created_at updated = 1000.
Proof.
  intros created s result.
  assert (Hs : Wire.reachable (sqlite := decimal_engine) any_request s).
  { apply (Wire.reach_request any_request (Wire.mkServer Wire.empty 0) 1500
             (Wire.POST_task (VObj [ ("title"%string, VStr "Buy milk") ])));
      [apply Wire.reach_start|simpl; lia|exact I]. }
  destruct (update_completed_at s 90000 1 (VObj [ ("status"%string, VStr "done") ])
              (Wire.mkRow 1 "Buy milk" None "todo" (Some "medium"%string) 1000 None
                          (Wire.CInt 0))
              Hs ltac:(simpl; lia) eq_refl) as [[E|(status & updated & Hst & H1 & _ & _ & H2 & H3 & _)] _].
  - discriminate E.
  - exists updated. split; [exact H1|]. injection Hst as <-.
    destruct (H3 eq_refl ltac:(discriminate)) as [H4 _].
    split; [exact H4|exact H2].
Defined.

(** The claim as it is written fails on a status that arrives as an array:
    the row is 'todo', the update is answered 200 and stores 'done', and
    the completion time stays empty. *)
Lemma update_completed_at_counterexample :
  let db :=
    fst (fst (Wire.post_task (sqlite := decimal_engine) 1500
                (VObj [ ("title"%string, VStr "Buy milk") ]) Wire.empty)) in
  let result :=
    Wire.put_task (sqlite := decimal_engine) 90000 1
      (VObj [ ("status"%string, VArr [ VStr "done" ]) ]) db in
  option_map Wire.status (Wire.taskQueries.getById 1 db) = Some "todo"%string
  /\ Wire.code (snd result) = 200
  /\ option_map Wire.status (Wire.taskQueries.getById 1 (fst (fst result)))
     = Some "done"%string
  /\ option_map Wire.completed_at (Wire.taskQueries.getById 1 (fst (fst result)))
     = Some None.
Proof. repeat split. Qed.

Section WireTitles.

Context {sqlite : Wire.Engine}.

Hypothesis real_text_nonempty : forall x, Wire.real_text x <> ""%string.

(** A first argument that is no array and no object supplies the first
    parameter, or the call throws. *)
Lemma bind_parameters_one_value (n : nat) (v : value) (rest : list value)
    (bs : list Wire.Bound) :
  (forall l, v <> VArr l) -> (forall f, v <> VObj f) ->
  Wire.bind_parameters n (v :: rest) = Return bs ->
  exists b bs', Wire.bind_value v = Return b /\ bs = b :: bs'.
Proof.
  intros Ha Ho H. destruct (Wire.bind_value v) as [b|e] eqn:Hv.
  - destruct (bind_parameters_first n v b rest bs Hv H) as [bs' ->].
    exists b, bs'. split; reflexivity.
  - destruct (bind_value_refused v e rest false Hv Ha Ho) as [e' He'].
    unfold Wire.bind_parameters in H. rewrite He' in H. discriminate H.
Qed.

(** The text stored for a truthy value is not empty. *)
Lemma truthy_text_nonempty (v : value) (b : Wire.Bound) (t : string) :
  is_truthy v = true -> Wire.bind_value v = Return b -> Wire.text_column b = Some t ->
  t <> ""%string.
Proof.
  destruct v; simpl; intros Ht Hb Hc; try discriminate; injection Hb as <-;
    simpl in Hc; injection Hc as <-.
  - apply real_text_nonempty.
  - apply truthy_string_nonempty, Ht.
Qed.

Lemma handle_titles (now : Z) (r : Wire.Request) (db : Wire.t) :
  title_is_one_value r ->
  Forall (fun x => Wire.title x <> ""%string) (Wire.tasks db) ->
  Forall (fun x => Wire.title x <> ""%string) (Wire.tasks (fst (fst (Wire.handle now r db)))).
Proof.
  intros Hr H. destruct r as [body|i body|body|i]; simpl.
  - destruct (post_task_inv now body db)
      as [E|[[title [_ [_ E]]]|(title & description & status & priority & position & ttl
                               & desc & st & prio & pos & db' & rowid & Hget & Ht & _ & _
                               & _ & _ & Hb & Hc & E)]];
      rewrite E; cbn [fst]; try exact H.
    simpl in Hr. rewrite Hget in Hr.
    destruct (bind_parameters_one_value 5 title _ _
                ltac:(intros l ->; exact Hr) ltac:(intros f ->; exact Hr) Hb)
      as (b & bs' & Hv & Hbs).
    injection Hbs as <- _.
    apply create_inv in Hc. destruct Hc as (t & s & c & Hcol & _ & _ & _ & ->).
    cbn [Wire.tasks]. apply Forall_app. split; [exact H|].
    constructor; [|constructor]. cbn [Wire.title].
    apply (truthy_text_nonempty title ttl t Ht Hv Hcol).
  - destruct (Wire.taskQueries.getById i db) as [existing|] eqn:Hx.
    + destruct (put_task_inv now i body db existing Hx)
        as [E|(title & description & status & priority & ttl & desc & st & prio & db'
               & Hget & _ & _ & _ & Hb & Hu & E)];
        rewrite E; cbn [fst]; [exact H|].
      simpl in Hr. rewrite Hget in Hr.
      destruct (wire_update_inv _ _ _ _ _ _ _ _ _ Hx Hu) as (t & s & Hcol & _ & -> & _).
      assert (Ht : t <> ""%string).
      { destruct (is_truthy title) eqn:Htr.
        - destruct (bind_parameters_one_value 4 title _ _
                      ltac:(intros l ->; exact Hr) ltac:(intros f ->; exact Hr) Hb)
            as (b & bs' & Hv & Hbs).
          injection Hbs as <- _.
          apply (truthy_text_nonempty title ttl t Htr Hv Hcol).
        - destruct (bind_parameters_first 4 (VStr (Wire.title existing))
                      (Wire.BText (Wire.title existing)) _ _ eq_refl Hb) as [bs' Hbs].
          injection Hbs as -> _. simpl in Hcol. injection Hcol as <-.
          rewrite Forall_forall in H. apply H.
          apply wire_getById_Some in Hx. apply Hx. }
      cbn [Wire.tasks]. apply Forall_map. revert H. apply Forall_impl.
      intros x Hne. destruct (Wire.id x =? i); [exact Ht|exact Hne].
    + unfold Wire.put_task. rewrite Hx.
      repeat (break_match; try exact H).
  - apply (same_but_positions_Forall _ db); [|apply patch_reorder_positions|exact H].
    intros x c Hx. exact Hx.
  - unfold Wire.delete_task.
    destruct (Wire.taskQueries.getById i db); cbn [fst]; [|exact H].
    apply Forall_forall. intros x Hx. apply filter_In in Hx.
    rewrite Forall_forall in H. apply H, Hx.
Qed.

Lemma get_again (body : value) (k k' : string) (v : value) :
  get body k = Return v -> exists v', get body k' = Return v'.
Proof. destruct body; simpl; intros H; try discriminate H; eexists; reflexivity. Qed.

End WireTitles.

Section WireTitlesClaim.

Context {sqlite : Wire.Engine}.

(** C10, as the code has it: in every store reachable by requests whose
    [title] is no array and no object, no row has an empty title.  [POST
    /api/tasks] with a missing or otherwise falsy title answers 400 and
    inserts nothing.  [PUT /api/tasks/:id] with the empty string as title
    on an existing row either is refused, with 500 and the store as it was,
    or answers 200 and keeps the title the row had; it is not refused when
    the texts of the body are strings.  (A number sent as title is stored
    as the text SQLite renders for it, which is never empty.) *)
Theorem stored_titles_nonempty (s : Wire.Server) :
  (forall x, Wire.real_text x <> ""%string) ->
  Wire.reachable title_is_one_value s ->
  Forall (fun x => Wire.title x <> ""%string) (Wire.tasks (Wire.store s))
  /\ (forall now body title,
        get body "title" = Return title -> is_truthy title = false ->
        Wire.handle now (Wire.POST_task body) (Wire.store s)
        = (Wire.store s, [], Wire.mkResponse 400 (Wire.PError "Title is required")))
  /\ (forall now i body x,
        get body "title" = Return (VStr "") ->
        Wire.taskQueries.getById i (Wire.store s) = Some x ->
        (Wire.handle now (Wire.PUT_task i body) (Wire.store s)
         = (Wire.store s, [ConsoleError "Update task error:"],
            Wire.mkResponse 500 (Wire.PError "Failed to update task"))
         \/ exists y,
              snd (Wire.handle now (Wire.PUT_task i body) (Wire.store s))
              = Wire.mkResponse 200 (Wire.PTask (Some y))
              /\ Wire.taskQueries.getById i
                   (fst (fst (Wire.handle now (Wire.PUT_task i body) (Wire.store s))))
                 = Some y
              /\ Wire.title y = Wire.title x)
        /\ (forall fields, body = VObj fields -> declared_texts fields ->
              Wire.code (snd (Wire.handle now (Wire.PUT_task i body) (Wire.store s))) = 200)).
Proof.
  intros Hreal Hs. split; [|split].
  - induction Hs as [t0|s now r Hs IH Hnow Hr]; simpl.
    + constructor.
    + apply (handle_titles Hreal); assumption.
  - intros now body title Hget Ht. simpl. unfold Wire.post_task.
    destruct (get_again body "title" "description" title Hget) as [d Hd].
    destruct (get_again body "title" "status" title Hget) as [st Hst].
    destruct (get_again body "title" "priority" title Hget) as [p Hp].
    destruct (get_again body "title" "position" title Hget) as [pos Hpos].
    rewrite Hget, Hd, Hst, Hp, Hpos, Ht. reflexivity.
  - intros now i body x Hget Hx. simpl. split.
    2:{ intros fields -> Hd. apply (put_task_declared now i fields _ x Hx Hd). }
    destruct (put_task_inv now i body (Wire.store s) x Hx)
      as [E|(title & description & status & priority & ttl & desc & st & prio & db'
             & Hget' & _ & _ & _ & Hb & Hu & E)]; [left; exact E|right].
    rewrite Hget in Hget'. injection Hget' as <-. cbn [is_truthy truthy_string] in Hb.
    simpl in Hb.
    destruct (bind_parameters_first 4 (VStr (Wire.title x)) (Wire.BText (Wire.title x))
                _ _ eq_refl Hb) as [bs' Hbs].
    injection Hbs as -> _.
    destruct (wire_update_inv _ _ _ _ _ _ _ _ _ Hx Hu) as (t & u & Hcol & _ & _ & Hy).
    simpl in Hcol. injection Hcol as <-.
    eexists. rewrite E. cbn [fst snd]. rewrite Hy.
    split; [reflexivity|]. split; reflexivity.
Qed.

End WireTitlesClaim.

Lemma decimal_engine_text (x : Q) : Wire.real_text (Engine := decimal_engine) x <> ""%string.
Proof.
  simpl. destruct (show (Qfloor x)); discriminate.
Qed.

(** A server that has served one [POST /api/tasks] at time 1500. *)
Lemma stored_titles_nonempty_witness :
  let s :=
    Wire.mkServer
      (fst (fst (Wire.handle (sqlite := decimal_engine) 1500
                   (Wire.POST_task (VObj [ ("title"%string, VStr "Buy milk") ]))
                   Wire.empty)))
      1500 in
  map Wire.title (Wire.tasks (Wire.store s)) = [ "Buy milk"%string ]
  /\ Forall (fun x => Wire.title x <> ""%string) (Wire.tasks (Wire.store s)).
Proof.
  intros s. split; [reflexivity|].
  refine (proj1 (stored_titles_nonempty (sqlite := decimal_engine) s decimal_engine_text _)).
  apply (Wire.reach_request title_is_one_value (Wire.mkServer Wire.empty 0) 1500
           (Wire.POST_task (VObj [ ("title"%string, VStr "Buy milk") ])));
    [apply Wire.reach_start|simpl; lia|exact I].
Defined.

(** The claim as it is written fails on a title that arrives as an array
    of one empty string: it is truthy, the driver binds its element, and
    the row is stored with an empty title. *)
Lemma stored_titles_nonempty_counterexample :
  let s :=
    Wire.mkServer
      (fst (fst (Wire.handle (sqlite := decimal_engine) 1500
                   (Wire.POST_task (VObj [ ("title"%string, VArr [ VStr "" ]) ]))
                   Wire.empty)))
      1500 in
  Wire.reachable (sqlite := decimal_engine) any_request s
  /\ Wire.code (snd (Wire.handle (sqlite := decimal_engine) 1500
                       (Wire.POST_task (VObj [ ("title"%string, VArr [ VStr "" ]) ]))
                       Wire.empty)) = 201
  /\ map Wire.title (Wire.tasks (Wire.store s)) = [ ""%string ].
Proof.
  intros s. split; [|split; reflexivity].
  apply (Wire.reach_request any_request (Wire.mkServer Wire.empty 0) 1500
           (Wire.POST_task (VObj [ ("title"%string, VArr [ VStr "" ]) ])));
    [apply Wire.reach_start|simpl; lia|exact I].
Qed.

Section WireReorder.

Context {sqlite : Wire.Engine}.


Lemma integer_of_real_inject (z : Z) : Wire.integer_of_real (inject_Z z) = Some z.
Proof.
  unfold Wire.integer_of_real, Qred, inject_Z.
  pose proof (Z.ggcd_gcd z 1) as Hg. pose proof (Z.ggcd_correct_divisors z 1) as Hd.
  destruct (Z.ggcd z 1) as [g [a b]]. cbn [fst snd] in *.
  rewrite Z.gcd_1_r in Hg. subst g. destruct Hd as [Ha Hb].
  assert (a = z) by lia. assert (b = 1) by lia. subst a b. reflexivity.
Qed.

Lemma set_cell_absent (k : Z) (c : Wire.Cell) (db : Wire.t) :
  Wire.taskQueries.getById k db = None -> set_cell k c db = db.
Proof.
  intros H. unfold set_cell. destruct db as [rows seq]. cbn [Wire.tasks Wire.seq].
  f_equal. unfold Wire.taskQueries.getById in H. cbn [Wire.tasks] in H.
  rewrite <- (map_id rows) at 2. apply map_ext_in. intros x Hx.
  pose proof (find_none _ _ H x Hx) as Hn. simpl in Hn. rewrite Hn. reflexivity.
Qed.

(** A pair of integers is written whether or not its id names a row. *)
Lemma write_position_pair (p : Z * Z) (db : Wire.t) :
  - 2 ^ 63 < snd p < 2 ^ 63 - 1 ->
  Wire.write_position (pair_value p) db = Return (set_cell (fst p) (Wire.CInt (snd p)) db).
Proof.
  intros Hp. destruct p as [k z]. cbn [fst snd] in *.
  unfold Wire.write_position, pair_value. cbn [get lookup fst snd String.eqb Ascii.eqb
    Bool.eqb andb Wire.bind_parameters Wire.bind_arguments Wire.bind_value List.length Nat.eqb].
  simpl. unfold Wire.taskQueries.updatePosition. cbn [Wire.rowid_of].
  rewrite integer_of_real_inject.
  destruct (Wire.taskQueries.getById k db) eqn:Hx.
  - cbn [Wire.integer_column]. rewrite integer_of_real_inject.
    replace (- 2 ^ 63 <? z) with true by lia. replace (z <? 2 ^ 63 - 1) with true by lia.
    reflexivity.
  - rewrite (set_cell_absent k _ db Hx). reflexivity.
Qed.

Lemma final_cell_step (p : Z * Z) (l : list (Z * Z)) (x : Wire.Row) :
  final_cell (p :: l) x
  = final_cell l (if Wire.id x =? fst p then with_cell (Wire.CInt (snd p)) x else x).
Proof.
  unfold final_cell. simpl. destruct (Wire.id x =? fst p) eqn:E; simpl; rewrite ?E; reflexivity.
Qed.

Lemma with_cell_twice (c c' : Wire.Cell) (x : Wire.Row) :
  with_cell c (with_cell c' x) = with_cell c x.
Proof. reflexivity. Qed.

Lemma forEach_pairs (l : list (Z * Z)) (db : Wire.t) :
  Forall (fun p => - 2 ^ 63 < snd p < 2 ^ 63 - 1) l ->
  Wire.forEach (map pair_value l) db
  = (Wire.mkDb (map (fun x => with_cell (final_cell l x) x) (Wire.tasks db)) (Wire.seq db),
     Return tt).
Proof.
  intros Hl. revert db. induction Hl as [|p l Hp _ IH]; intros db.
  - simpl. f_equal. destruct db as [rows seq]. cbn [Wire.tasks Wire.seq]. f_equal.
    rewrite <- (map_id rows) at 1. apply map_ext. intros x. symmetry. apply with_cell_own.
  - cbn [map Wire.forEach]. rewrite (write_position_pair p db Hp), IH.
    unfold set_cell. cbn [Wire.tasks Wire.seq]. rewrite map_map. f_equal. f_equal.
    apply map_ext. intros x. rewrite final_cell_step.
    destruct (Wire.id x =? fst p); [apply with_cell_twice|reflexivity].
Qed.


End WireReorder.


(** ** The handlers of [Api] are those of [Wire] on bodies as declared *)

Section Declared.

Context {sqlite : Wire.Engine}.

Lemma getById_store_of (i : Z) (db : Db.t) :
  Wire.taskQueries.getById i (store_of db) = option_map row_of (taskQueries.getById i db).
Proof.
  unfold Wire.taskQueries.getById, taskQueries.getById, store_of. cbn [Wire.tasks].
  induction (tasks db) as [|x l IH]; simpl; [reflexivity|].
  destruct (id x =? i); [reflexivity|exact IH].
Qed.

Lemma integer_column_in_range (z : Z) :
  in_range z -> Wire.integer_column (Wire.BReal (inject_Z z)) = Some (Wire.CInt z).
Proof.
  intros Hz. unfold in_range in Hz. cbn [Wire.integer_column].
  rewrite integer_of_real_inject.
  replace (- 2 ^ 63 <? z) with true by lia. replace (z <? 2 ^ 63 - 1) with true by lia.
  reflexivity.
Qed.

(** [POST /api/tasks] *)
Lemma post_task_declared (now : Z) (b : TaskBody) (db : Db.t) :
  match b_position b with Some z => in_range z | None => True end ->
  Wire.post_task now (body_value b) (store_of db)
  = (store_of (fst (post_task now b db)), [], response_of (snd (post_task now b db))).
Proof.
  intros Hpos. unfold Wire.post_task, post_task, body_value. cbn [get lookup]. simpl.
  destruct (b_title b) as [ttl|]; cbn [text_value is_truthy]; [|reflexivity].
  destruct (truthy_string ttl); cbn [negb]; [|reflexivity].
  assert (Hc : forall z, in_range z ->
             Wire.integer_column (Wire.BReal (inject_Z z)) = Some (Wire.CInt z))
    by apply integer_column_in_range.
  destruct (b_description b) as [desc|], (b_status b) as [st|], (b_priority b) as [prio|],
    (b_position b) as [pos|];
    cbn [text_value integer_value Wire.or_default Wire.bind_parameters Wire.bind_arguments
         Wire.bind_value List.length Nat.eqb];
    unfold Wire.taskQueries.create, taskQueries.create;
    cbn [Wire.text_column];
    try rewrite (Hc pos Hpos); try rewrite (Hc 0 ltac:(unfold in_range; lia));
    cbn [fst snd store_of Wire.seq Wire.tasks tasks Db.seq];
    unfold response_of; cbn [code payload];
    rewrite <- (getById_store_of (Db.seq db + 1));
    unfold store_of; cbn [tasks Db.seq]; rewrite map_app; reflexivity.
Qed.

Lemma update_store_of (ttl : string) (desc : option string) (st : string)
    (prio : option string) (done_at : option Z) (i : Z) (db : Db.t) (x : Task) :
  taskQueries.getById i db = Some x ->
  Wire.taskQueries.update (Wire.BText ttl)
    match desc with Some d => Wire.BText d | None => Wire.BNull end
    (Wire.BText st)
    match prio with Some p => Wire.BText p | None => Wire.BNull end
    done_at i (store_of db)
  = Return (store_of (taskQueries.update ttl desc st prio done_at i db)).
Proof.
  intros Hx. unfold Wire.taskQueries.update. rewrite getById_store_of, Hx.
  cbn [option_map Wire.text_column]. f_equal.
  unfold store_of, taskQueries.update. cbn [Wire.tasks Wire.seq tasks Db.seq].
  rewrite !map_map. f_equal. apply map_ext. intros y.
  unfold row_of at 1. cbn [Wire.id].
  destruct (id y =? i); [|reflexivity].
  destruct desc, prio; reflexivity.
Qed.

(** [PUT /api/tasks/:id] *)
Lemma put_task_declared_agrees (now i : Z) (b : TaskBody) (db : Db.t) :
  Wire.put_task now i (body_value b) (store_of db)
  = (store_of (fst (put_task now i b db)), [], response_of (snd (put_task now i b db))).
Proof.
  unfold Wire.put_task, put_task, body_value. cbn [get lookup]. simpl.
  rewrite getById_store_of.
  destruct (taskQueries.getById i db) as [x|] eqn:Hx; cbn [option_map]; [|reflexivity].
  assert (Hdone : forall st,
             Wire.is_string "done" (text_value st)
             = match st with Some s => (s =? "done")%string | None => false end)
    by (intros [st|]; reflexivity).
  rewrite Hdone. clear Hdone.
  unfold row_of at 1 2 3 4 5 6.
  cbn [Wire.status Wire.completed_at Wire.title Wire.description Wire.priority].
  set (done_at := if _ && _ then Some now else completed_at x).
  assert (Hargs :
    Wire.bind_parameters 4
      [ if is_truthy (text_value (b_title b)) then text_value (b_title b) else VStr (title x);
        match text_value (b_description b) with
        | VUndefined => Wire.nullable (description x)
        | _ => text_value (b_description b)
        end;
        if is_truthy (text_value (b_status b)) then text_value (b_status b)
        else VStr (status x);
        if is_truthy (text_value (b_priority b)) then text_value (b_priority b)
        else Wire.nullable (priority x) ]
    = Return
        [ Wire.BText (or_else (b_title b) (title x));
          match (match b_description b with Some d => Some d | None => description x end) with
          | Some d => Wire.BText d
          | None => Wire.BNull
          end;
          Wire.BText (or_else (b_status b) (status x));
          match or_else_null (b_priority b) (priority x) with
          | Some p => Wire.BText p
          | None => Wire.BNull
          end ]).
  { unfold or_else, or_else_null, truthy.
    destruct (b_title b) as [ttl|], (b_description b) as [desc|], (b_status b) as [st|],
      (b_priority b) as [prio|];
      cbn [text_value is_truthy];
      repeat match goal with
             | |- context [truthy_string ?s] => destruct (truthy_string s)
             end;
      destruct (description x), (priority x); reflexivity. }
  rewrite Hargs.
  rewrite (update_store_of _ _ _ _ done_at i db x Hx).
  cbn [fst snd]. unfold response_of, json. cbn [code payload].
  rewrite getById_store_of. reflexivity.
Qed.

Lemma final_cell_row_of (l : list (Z * Z)) (x : Task) :
  with_cell (final_cell l (row_of x)) (row_of x) = row_of (with_position (final_position l x) x).
Proof.
  unfold final_cell, final_position, with_cell, row_of, with_position.
  cbn [Wire.id Wire.title Wire.description Wire.status Wire.priority Wire.created_at
       Wire.completed_at Wire.position id title description status priority created_at
       completed_at position].
  f_equal. generalize (position x) as p.
  induction l as [|[k pos] l IH]; intros p; simpl; [reflexivity|].
  destruct (id x =? k); apply IH.
Qed.

(** [PATCH /api/tasks/reorder] *)
Lemma patch_reorder_declared (b : ReorderBody) (db : Db.t) :
  match b with
  | NotAnArray => True
  | TaskArray l => Forall (fun p => in_range (snd p)) l
  end ->
  Wire.patch_reorder (reorder_value b) (store_of db)
  = (store_of (fst (patch_reorder b db)), [], response_of (snd (patch_reorder b db))).
Proof.
  destruct b as [|l]; intros Hl; [reflexivity|].
  rewrite patch_reorder_store. destruct (reorder_rows l db) as [Hrows Hseq].
  unfold Wire.patch_reorder, reorder_value.
  change (get (VObj [ ("tasks"%string, VArr (map pair_value l)) ]) "tasks")
    with (Return (VArr (map pair_value l))).
  cbv iota. rewrite (forEach_pairs l (store_of db) Hl).
  unfold store_of. rewrite Hrows, Hseq. cbn [Wire.tasks Wire.seq].
  rewrite !map_map. f_equal. f_equal. f_equal.
  apply map_ext. intros x. apply final_cell_row_of.
Qed.

(** [DELETE /api/tasks/:id] *)
Lemma delete_task_declared (i : Z) (db : Db.t) :
  Wire.delete_task i (store_of db)
  = (store_of (fst (delete_task i db)), [], response_of (snd (delete_task i db))).
Proof.
  unfold Wire.delete_task, delete_task. rewrite getById_store_of.
  destruct (taskQueries.getById i db); cbn [option_map fst snd]; [|reflexivity].
  f_equal. f_equal. unfold Wire.taskQueries.delete, taskQueries.delete, store_of.
  cbn [Wire.tasks Wire.seq tasks Db.seq]. f_equal.
  induction (tasks db) as [|x l IH]; simpl; [reflexivity|].
  destruct (id x =? i); simpl; [exact IH|rewrite IH; reflexivity].
Qed.

End Declared.
